(** * Sm-Nd isotope data reduction scheme (Iolite 4, UWA v4.8 and v4.9)

    A shallow embedding of [runDRS] and [rho_corr_147Sm_143Nd] from
    [Sm_Nd_Isotopes_UWA_v4.8.py] and [Sm_Nd_Isotopes_UWA_v4.9.py].

    - numpy [float64] samples are IEEE 754 binary64 values, taken from the
      executable specification [SpecFloat] ([spec_float] at the binary64
      precision and exponent range); a numpy array is a list of samples;
    - the Iolite host ([data], [drs]) is a record of oracles; every call
      that changes the host is an event of a trace, and the named time
      series live in a finite map;
    - numpy's transcendental functions and [corrcoef] are a record of
      parameters. *)

From Stdlib Require Import SpecFloat PrimFloat FloatOps.
From Stdlib Require Import ZArith.
From stdpp Require Import base option list strings gmap.

Set Warnings "-inexact-float".
Set Default Proof Using "Type".

(** ** binary64 samples *)

Abbreviation f64 := spec_float.
Abbreviation array := (list spec_float).
Abbreviation exn := string.
Abbreviation Store := (gmap string (list spec_float)).

Definition NaN : f64 := S754_nan.
Definition fzero : f64 := S754_zero false.

Definition fadd : f64 → f64 → f64 := SFadd prec emax.
Definition fsub : f64 → f64 → f64 := SFsub prec emax.
Definition fmul : f64 → f64 → f64 := SFmul prec emax.
Definition fdiv : f64 → f64 → f64 := SFdiv prec emax.
Definition fsqrt : f64 → f64 := SFsqrt prec emax.
Definition of_nat (n : nat) : f64 :=
  binary_normalize prec emax (Z.of_nat n) 0 false.

(** [x == 0], [x != 0] and [x > 0] of IEEE 754: every comparison with NaN
    is false, so [NaN != 0] is true; [-0.0 == 0]. *)
Definition feq0 (x : f64) : bool := SFeqb x fzero.
Definition fne0 (x : f64) : bool := negb (SFeqb x fzero).
Definition fgt0 (x : f64) : bool := SFltb fzero x.

(** [np.isnan] *)
Definition isnan (x : f64) : bool :=
  match x with S754_nan => true | _ => false end.

(** A sample that is [+0.0], [-0.0] or NaN. *)
Definition zero_or_nan (x : f64) : bool :=
  match x with S754_zero _ | S754_nan => true | _ => false end.

(** The decimal literals of the script, rounded to binary64 as Python does. *)
Definition c1_0 : f64 := Eval vm_compute in Prim2SF 1%float.
Definition c146_9149 : f64 := Eval vm_compute in Prim2SF 146.9149%float.
Definition c148_9172 : f64 := Eval vm_compute in Prim2SF 148.9172%float.
Definition c143_912 : f64 := Eval vm_compute in Prim2SF 143.912%float.
Definition c147_9148 : f64 := Eval vm_compute in Prim2SF 147.9148%float.
Definition c145_9131 : f64 := Eval vm_compute in Prim2SF 145.9131%float.
Definition c143_9098 : f64 := Eval vm_compute in Prim2SF 143.9098%float.
Definition c142_9098 : f64 := Eval vm_compute in Prim2SF 142.9098%float.
Definition c144_9126 : f64 := Eval vm_compute in Prim2SF 144.9126%float.
Definition c147_916889 : f64 := Eval vm_compute in Prim2SF 147.916889%float.
Definition c0_172 : f64 := Eval vm_compute in Prim2SF 0.172%float.

(** ** Elementwise array operations

    All series of one run share the host's time axis, so an operation of the
    correction engine on two arrays pairs the samples of equal index. *)

Definition amul (a b : array) : array := zip_with fmul a b.
Definition adiv (a b : array) : array := zip_with fdiv a b.
Definition asub (a b : array) : array := zip_with fsub a b.
(** array (op) scalar and scalar (op) array *)
Definition muls (a : array) (s : f64) : array := (λ x, fmul x s) <$> a.
Definition divs (a : array) (s : f64) : array := (λ x, fdiv x s) <$> a.
Definition sdiv (s : f64) (a : array) : array := fdiv s <$> a.
(** [a != 0] *)
Definition ane0 (a : array) : list bool := fne0 <$> a.
(** [np.where(c, a, np.nan)] *)
Definition where_nan (c : list bool) (a : array) : array :=
  zip_with (λ (b : bool) x, if b then x else NaN) c a.
(** [np.full_like(a, v)] *)
Definition full_like (a : array) (v : f64) : array := replicate (length a) v.

(** ** Exceptions inside a [try] block *)

#[global] Instance exn_ret : MRet (sum exn) := λ A x, inr x.
#[global] Instance exn_bind : MBind (sum exn) := λ A B f m,
  match m with inl e => inl e | inr x => f x end.

(** Where the arrays come from the host and the operation sits in a [try]
    block, a shape mismatch is an exception like any other: numpy pairs
    equal lengths, stretches a one-element operand, and raises otherwise. *)
Definition broadcast2 {A B C} (f : A → B → C) (a : list A) (b : list B) :
    exn + list C :=
  if decide (length a = length b) then inr (zip_with f a b)
  else match a, b with
       | [x], _ => inr (f x <$> b)
       | _, [y] => inr ((λ x, f x y) <$> a)
       | _, _ => inl "operands could not be broadcast together"
       end.

(** [a[m]] for a boolean array [m] *)
Definition bool_index {A} (a : list A) (m : list bool) : exn + list A :=
  if decide (length a = length m)
  then inr ((filter (λ p, p.2 = true) (zip a m)).*1)
  else inl "boolean index did not match indexed array".

(** ** numpy *)

Record NumPy := {
  np_log : f64 → f64;                       (* np.log on a sample *)
  np_power : f64 → f64 → f64;               (* b ** x on a sample *)
  np_log10 : f64 → f64;                     (* np.log10 on a sample *)
  np_corrcoef01 : array → array → exn + f64 (* np.corrcoef(x, y)[0, 1] *)
}.

Definition alog (np : NumPy) (a : array) : array := np_log np <$> a.
Definition spow (np : NumPy) (b : f64) (a : array) : array :=
  np_power np b <$> a.

(** ** Settings, selection groups, host *)

(** [drs.settings()], with the entries the script reads.  The record holds
    every entry: a run on a dictionary that lacks one ends with a [KeyError]
    at the line that reads it, and is not among the runs described here
    (v4.8 reads ["PropagateError"], which the widget of v4.9 does not
    write). *)
Record Settings := {
  IndexChannel : string; MaskChannel : string; ReferenceMaterial : string;
  MaskCutoff : f64; MaskTrim : f64;
  NdTrue : f64; Sm147_149 : f64; Sm144_149 : f64; Sm148_149 : f64;
  PropagateError : bool
}.

Definition set_ReferenceMaterial (rm : string) (s : Settings) : Settings :=
  {| IndexChannel := IndexChannel s; MaskChannel := MaskChannel s;
     ReferenceMaterial := rm;
     MaskCutoff := MaskCutoff s; MaskTrim := MaskTrim s;
     NdTrue := NdTrue s; Sm147_149 := Sm147_149 s;
     Sm144_149 := Sm144_149 s; Sm148_149 := Sm148_149 s;
     PropagateError := PropagateError s |}.

(** [data.Baseline], [data.ReferenceMaterial] and the sample-like types *)
Inductive GroupType := data_Baseline | data_ReferenceMaterial | data_Sample.

#[global] Instance GroupType_eq_dec : EqDecision GroupType.
Proof. solve_decision. Defined.

(** A selection group: [sel.name()] and [sel.type]. *)
Record Group := { g_name : string; g_type : GroupType }.

(** The collaborators that [runDRS] only consumes. *)
Record Host := {
  (** [data.selectionGroupList()] *)
  selectionGroupList : list Group;
  (** the names of [data.timeSeriesList(data.Input)] *)
  timeSeriesList_Input : list string;
  (** [data.timeSeries(name).time()] *)
  timeSeries_time : string → array;
  (** [drs.createMaskFromCutoff(channel, cutoff, trim)] *)
  createMaskFromCutoff : string → f64 → f64 → array;
  (** [data.timeSeries(name).data()] once the baselines are subtracted *)
  timeSeries_data : string → array;
  (** [data.createSpline(rm, name)]: the exception it raises, if any *)
  createSpline : string → string → Store → option exn;
  (** [data.spline(rm, name).data()] *)
  spline_data : string → string → Store → exn + array;
  (** [data.referenceMaterialData(rm)[key].value()] *)
  referenceMaterialData : string → string → exn + f64;
  (** [series.dataForSelection(sel)] *)
  dataForSelection : Group → array → exn + array
}.

(** [data.selectionGroupNames(type)] *)
Definition selectionGroupNames (h : Host) (ty : GroupType) : list string :=
  g_name <$> filter (λ g, g_type g = ty) (selectionGroupList h).

(** ** Effects

    Every call that changes the host is an event of the trace.  What
    [drs.baselineSubtract] and [data.propagateErrors] do inside the host is
    theirs: the baseline-subtracted channels are what [timeSeries_data]
    answers, and the store of the model holds the series that the script
    itself creates.  Outside the [try] blocks no call raises here; a run in
    which one does ends at that call, having made the calls before it. *)

Inductive Event :=
| Message (text : string)                      (* drs.message *)
| Progress (percent : nat)                     (* drs.progress *)
| Finished                                     (* drs.finished *)
| SetSetting (key value : string)              (* drs.setSetting *)
| SetIndexChannel (name : string)              (* drs.setIndexChannel *)
| BaselineSubtract (group channel : string)    (* drs.baselineSubtract *)
| CreateTimeSeries (name : string) (values : array)
| CreateSpline (rm name : string)
| PropagateErrors (groups : list Group) (target source rm : string)
| RegisterAssociatedResult (label : string)
| SetData (name : string) (values : array).

Record World := {
  store : Store;            (* the series created by the script *)
  settings : Settings;      (* drs.settings() *)
  trace : list Event        (* host calls so far, oldest first *)
}.

Definition M (A : Type) : Type := World → A * World.

#[global] Instance M_ret : MRet M := λ A x w, (x, w).
#[global] Instance M_bind : MBind M := λ A B f m w,
  let '(x, w') := m w in f x w'.

Definition emit (e : Event) : M unit := λ w,
  (tt, {| store := store w; settings := settings w;
          trace := trace w ++ [e] |}).

Definition drs_settings : M Settings := λ w, (settings w, w).
Definition data_store : M Store := λ w, (store w, w).

Definition drs_message (text : string) : M unit := emit (Message text).
Definition drs_progress (p : nat) : M unit := emit (Progress p).
Definition drs_finished : M unit := emit Finished.
Definition drs_setIndexChannel (name : string) : M unit :=
  emit (SetIndexChannel name).
Definition drs_baselineSubtract (group channel : string) : M unit :=
  emit (BaselineSubtract group channel).
Definition data_registerAssociatedResult (label : string) : M unit :=
  emit (RegisterAssociatedResult label).
Definition data_propagateErrors (groups : list Group)
    (target source rm : string) : M unit :=
  emit (PropagateErrors groups target source rm).

(** [drs.setSetting("ReferenceMaterial", rm)] *)
Definition drs_setSetting_ReferenceMaterial (rm : string) : M unit := λ w,
  (tt, {| store := store w;
          settings := set_ReferenceMaterial rm (settings w);
          trace := trace w ++ [SetSetting "ReferenceMaterial" rm] |}).

(** [data.createTimeSeries(name, data.Output, time, values)]: the series is
    stored under [name], replacing whatever was there. *)
Definition data_createTimeSeries (name : string) (values : array) : M unit :=
  λ w, (tt, {| store := <[name := values]> (store w);
               settings := settings w;
               trace := trace w ++ [CreateTimeSeries name values] |}).

(** [data.timeSeries(name).setData(values)] *)
Definition data_setData (name : string) (values : array) : M unit :=
  λ w, (tt, {| store := <[name := values]> (store w);
               settings := settings w;
               trace := trace w ++ [SetData name values] |}).

(** A [for] loop whose body only has effects. *)
Fixpoint for_each {A} (body : A → M unit) (l : list A) : M unit :=
  match l with
  | [] => mret tt
  | x :: l' => body x;; for_each body l'
  end.

(** [data.timeSeries(name)] inside a [try] block: a missing series makes the
    method call that follows raise. *)
Definition data_timeSeries (st : Store) (name : string) : exn + array :=
  match st !! name with
  | Some a => inr a
  | None => inl ("no time series named " +:+ name)
  end.

(** ** rho_corr_147Sm_143Nd *)

(** [~np.isnan(sm) & ~np.isnan(nd) & (sm > 0) & (nd > 0)] *)
Definition valid_mask (sm nd : array) : exn + list bool :=
  v1 ← broadcast2 andb ((λ x, negb (isnan x)) <$> sm)
                       ((λ x, negb (isnan x)) <$> nd);
  v2 ← broadcast2 andb v1 (fgt0 <$> sm);
  broadcast2 andb v2 (fgt0 <$> nd).

(** The body of the [try] block: [inr] is the value handed to
    [result.setValue], [inl] an exception. *)
Definition rho_try (np : NumPy) (h : Host) (st : Store) (sel : Group) :
    exn + f64 :=
  ts_sm ← data_timeSeries st "StdCorr_147Sm_144";
  sm ← dataForSelection h sel ts_sm;
  ts_nd ← data_timeSeries st "StdCorr_143Nd_144";
  nd ← dataForSelection h sel ts_nd;
  valid ← valid_mask sm nd;
  if existsb id valid then
    sm_valid ← bool_index sm valid;
    nd_valid ← bool_index nd valid;
    np_corrcoef01 np (np_log10 np <$> sm_valid) (np_log10 np <$> nd_valid)
  else inr NaN.

(** The function returns [result.value()]. *)
Definition rho_corr_147Sm_143Nd (np : NumPy) (h : Host) (sel : Group) :
    M f64 :=
  st ← data_store;
  match rho_try np h st sel with
  | inr rho_val => mret rho_val
  | inl e =>
      drs_message ("[rho_corr_147Sm_143Nd] Error in selection " +:+
                   g_name sel +:+ ": " +:+ e);;
      mret NaN
  end.

(** ** runDRS *)

Inductive Version := v4_8 | v4_9.

(** The count rates and the mask, as [runDRS] reads them. *)
Record Inputs := {
  Nd143 : array; Nd144 : array; Nd145 : array; Nd146 : array;
  Nd148 : array; Sm147 : array; Sm149 : array;
  mask : array
}.

(** Every array of the correction engine, under the name the script gives it. *)
Record Engine := {
  SmFract : array; Sm144 : array; Sm148 : array;
  Nd144c : array; Nd148c : array; Nd144c_safe : array;
  NdFract : array;
  Nd143_144_Corr : array; Nd145_144_Corr : array;
  Nd148_144_Corr : array; Sm147_Nd144_Corr : array;
  TotalNd : array
}.

(** [np.where(Sm149 != 0, Sm147 / Sm149, np.nan)]: the measured 147Sm/149Sm
    ratio (the quotient is evaluated at every sample, the selection happens
    afterwards). *)
Definition measured_Sm147_149 (i : Inputs) : array :=
  where_nan (ane0 (Sm149 i)) (adiv (Sm147 i) (Sm149 i)).

(** Lines 88-108 (v4.9) and 88-110 (v4.8), which are the same code. *)
Definition correction_engine (np : NumPy) (c : Settings) (i : Inputs) :
    Engine :=
  let SmFract :=
    amul (divs (alog np (sdiv (Sm147_149 c) (measured_Sm147_149 i)))
               (np_log np (fdiv c146_9149 c148_9172))) (mask i) in
  let Sm144 :=
    amul (amul (muls (Sm149 i) (Sm144_149 c))
               (spow np (fdiv c148_9172 c143_912) SmFract)) (mask i) in
  let Sm148 :=
    amul (amul (muls (Sm149 i) (Sm148_149 c))
               (spow np (fdiv c148_9172 c147_9148) SmFract)) (mask i) in
  let Nd144c := amul (asub (Nd144 i) Sm144) (mask i) in
  let Nd148c := amul (asub (Nd148 i) Sm148) (mask i) in
  let Nd144c_safe := where_nan (ane0 Nd144c) Nd144c in
  let NdFract :=
    amul (divs (alog np (sdiv (NdTrue c)
                           (where_nan (ane0 Nd144c_safe)
                                      (adiv (Nd146 i) Nd144c_safe))))
               (np_log np (fdiv c145_9131 c143_9098))) (mask i) in
  let Nd143_144_Corr :=
    amul (amul (adiv (Nd143 i) Nd144c_safe)
               (spow np (fdiv c142_9098 c143_9098) NdFract)) (mask i) in
  let Nd145_144_Corr :=
    amul (amul (adiv (Nd145 i) Nd144c_safe)
               (spow np (fdiv c144_9126 c143_9098) NdFract)) (mask i) in
  let Nd148_144_Corr :=
    amul (amul (adiv Nd148c Nd144c_safe)
               (spow np (fdiv c147_916889 c143_9098) NdFract)) (mask i) in
  let Sm147_Nd144_Corr := amul (adiv (Sm147 i) Nd144c_safe) (mask i) in
  let TotalNd := amul (divs (Nd146 i) c0_172) (mask i) in
  {| SmFract := SmFract; Sm144 := Sm144; Sm148 := Sm148;
     Nd144c := Nd144c; Nd148c := Nd148c; Nd144c_safe := Nd144c_safe;
     NdFract := NdFract;
     Nd143_144_Corr := Nd143_144_Corr; Nd145_144_Corr := Nd145_144_Corr;
     Nd148_144_Corr := Nd148_144_Corr;
     Sm147_Nd144_Corr := Sm147_Nd144_Corr;
     TotalNd := TotalNd |}.

(** [raw * std / np.where(spline != 0, spline, np.nan)] *)
Definition std_quotient (raw : array) (std : f64) (spline : array) :
    exn + array :=
  broadcast2 fdiv (muls raw std) (where_nan (ane0 spline) spline).

(** The body of a standardization [try] block, after [data.createSpline] was
    called: [inr] is the array assigned to [StdCorr_...]. *)
Definition std_try (h : Host) (st : Store) (rmName series key : string)
    (raw : array) : exn + array :=
  match createSpline h rmName series st with
  | Some e => inl e
  | None =>
      spline ← spline_data h rmName series st;
      std ← referenceMaterialData h rmName key;
      std_quotient raw std spline
  end.

(** One standardization block (lines 114-122 and 124-132 of v4.9, 116-124
    and 126-134 of v4.8): [series] is the published raw ratio, [key] the
    ratio's key in the reference-material record, which is also the label of
    the warning. *)
Definition standardize (h : Host) (rmName series key : string) (raw : array) :
    M array :=
  st ← data_store;
  emit (CreateSpline rmName series);;
  match std_try h st rmName series key raw with
  | inr StdCorr => mret StdCorr
  | inl e =>
      drs_message ("Warning: Standard correction for " +:+ key +:+
                   " failed: " +:+ e);;
      mret (full_like raw NaN)
  end.

(** The loop that looks for the first rho that is not NaN; the result is
    [first_rho_val].  [rho_corr_147Sm_143Nd] handles its exceptions itself,
    so the loop's own [except: continue] has nothing to catch. *)
Fixpoint scan_rho (np : NumPy) (h : Host) (groups : list Group) : M f64 :=
  match groups with
  | [] => mret NaN
  | sel :: rest =>
      if decide (g_type sel ≠ data_Baseline) then
        v ← rho_corr_147Sm_143Nd np h sel;
        if negb (isnan v) then mret v (* break *)
        else scan_rho np h rest
      else scan_rho np h rest
  end.

(** [runDRS] from the parameter loading on, for the resolved reference
    material [rmName]; [settings] is the dictionary read at the start. *)
Definition runDRS_reduce (np : NumPy) (v : Version) (h : Host)
    (settings : Settings) (time : array) (rmName : string) : M unit :=
  let cutoff := MaskCutoff settings in
  let trim := MaskTrim settings in
  let propErrors := PropagateError settings in (* read by v4.8 only *)
  drs_setIndexChannel (IndexChannel settings);;
  let mask := createMaskFromCutoff h (MaskChannel settings) cutoff trim in
  for_each (drs_baselineSubtract "Baseline") (timeSeriesList_Input h);;
  let r := correction_engine np settings
    {| Nd143 := timeSeries_data h "Nd143_CPS";
       Nd144 := timeSeries_data h "Nd144_CPS";
       Nd145 := timeSeries_data h "Nd145_CPS";
       Nd146 := timeSeries_data h "Nd146_CPS";
       Nd148 := timeSeries_data h "Nd148_CPS";
       Sm147 := timeSeries_data h "Sm147_CPS";
       Sm149 := timeSeries_data h "Sm149_CPS";
       mask := mask |} in
  data_createTimeSeries "Nd143_144_Corr" (Nd143_144_Corr r);;
  data_createTimeSeries "Sm147_Nd144_Corr" (Sm147_Nd144_Corr r);;
  StdCorr_143Nd_144 ←
    standardize h rmName "Nd143_144_Corr" "143Nd/144Nd" (Nd143_144_Corr r);
  StdCorr_147Sm_144 ←
    standardize h rmName "Sm147_Nd144_Corr" "147Sm/144Nd"
                (Sm147_Nd144_Corr r);
  data_createTimeSeries "StdCorr_147Sm_144" StdCorr_147Sm_144;;
  data_createTimeSeries "StdCorr_143Nd_144" StdCorr_143Nd_144;;
  match v with
  | v4_8 => data_createTimeSeries "Nd143_144_Corr" (Nd143_144_Corr r)
  | v4_9 => mret tt
  end;;
  data_createTimeSeries "Nd145_144_Corr" (Nd145_144_Corr r);;
  data_createTimeSeries "Nd148_144_Corr" (Nd148_144_Corr r);;
  data_createTimeSeries "NdFract" (NdFract r);;
  data_createTimeSeries "SmFract" (SmFract r);;
  data_createTimeSeries "TotalNd" (TotalNd r);;
  match v with
  | v4_8 =>
      if propErrors then
        let selGroups :=
          filter (λ g, g_type g ≠ data_Baseline) (selectionGroupList h) in
        data_propagateErrors selGroups "StdCorr_143Nd_144" "Nd143_144_Corr"
                             rmName;;
        data_propagateErrors selGroups "StdCorr_147Sm_144" "Sm147_Nd144_Corr"
                             rmName;;
        drs_message "Propagated uncertainties calculated."
      else mret tt
  | v4_9 => mret tt
  end;;
  data_registerAssociatedResult
    "log10(StdCorr_147Sm/144Nd) vs log10(StdCorr_143Nd/144Nd) rho";;
  data_createTimeSeries "rho" (full_like time NaN);;
  first_rho_val ← scan_rho np h (selectionGroupList h);
  (if negb (isnan first_rho_val)
   then data_setData "rho" (full_like time first_rho_val)
   else mret tt);;
  drs_progress 100;;
  drs_message "Finished!";;
  drs_finished.

(** The fallback branch: announce the replacement and persist it. *)
Definition use_fallback (v : Version) (settings : Settings) (rmName : string) :
    M unit :=
  drs_message
    match v with
    | v4_8 => "Selected reference material '" +:+ ReferenceMaterial settings
              +:+ "' not found. Using '" +:+ rmName +:+ "' instead."
    | v4_9 => "Using fallback reference material: " +:+ rmName
    end;;
  drs_setSetting_ReferenceMaterial rmName.

Definition runDRS (np : NumPy) (v : Version) (h : Host) : M unit :=
  drs_message match v with
              | v4_8 => "Running Sm-Nd Isotopes_UWA_v48..."
              | v4_9 => "Running Sm-Nd Isotopes_UWA_v4.9..."
              end;;
  drs_progress 0;;
  settings ← drs_settings;
  let time := timeSeries_time h (IndexChannel settings) in
  let rmName := ReferenceMaterial settings in
  let rmNames := selectionGroupNames h data_ReferenceMaterial in
  if decide (rmName ∉ rmNames) then
    if decide ("G_LREE" ∈ rmNames) then
      use_fallback v settings "G_LREE";;
      runDRS_reduce np v h settings time "G_LREE"
    else
      match rmNames with
      | first :: _ =>
          use_fallback v settings first;;
          runDRS_reduce np v h settings time first
      | [] =>
          drs_message
            match v with
            | v4_8 => "Error: No reference material available. Please define one in your data."
            | v4_9 => "Error: No reference material available."
            end;;
          drs_finished (* return *)
      end
  else runDRS_reduce np v h settings time rmName.

(** ** Observations on a run *)

(** The world a run starts from: the host's store and settings, and an
    empty trace. *)
Definition initial (st : Store) (s : Settings) : World :=
  {| store := st; settings := s; trace := [] |}.

(** The world [runDRS] leaves behind. *)
Definition run (np : NumPy) (v : Version) (h : Host) (st : Store)
    (s : Settings) : World :=
  (runDRS np v h (initial st s)).2.

Definition add_events (evs : list Event) (w : World) : World :=
  {| store := store w; settings := settings w; trace := trace w ++ evs |}.

(** The output series created, oldest first. *)
Definition created (tr : list Event) : list (string * array) :=
  omap (λ e, match e with
             | CreateTimeSeries name values => Some (name, values)
             | _ => None
             end) tr.

(** The calls of the error-propagation routine. *)
Definition is_propagation (e : Event) : bool :=
  match e with PropagateErrors _ _ _ _ => true | _ => false end.

Definition propagations (tr : list Event) : list Event :=
  filter (λ e, is_propagation e = true) tr.

(** The writes to the settings. *)
Definition is_setSetting (e : Event) : bool :=
  match e with SetSetting _ _ => true | _ => false end.

Definition settings_writes (tr : list Event) : list Event :=
  filter (λ e, is_setSetting e = true) tr.

(** Events that touch neither a series, nor the settings, nor the error
    propagation. *)
Definition silent (e : Event) : bool :=
  match e with
  | CreateTimeSeries _ _ | SetData _ _ | PropagateErrors _ _ _ _
  | SetSetting _ _ => false
  | _ => true
  end.

(** The updates of a series through [setData]. *)
Definition is_setData (e : Event) : bool :=
  match e with SetData _ _ => true | _ => false end.

Definition updates (tr : list Event) : list Event :=
  filter (λ e, is_setData e = true) tr.

(** The series an event writes. *)
Definition written (e : Event) : option string :=
  match e with
  | CreateTimeSeries name _ | SetData name _ => Some name
  | _ => None
  end.

(** The events that write a series which an earlier event of the trace
    (or [seen]) has written already. *)
Fixpoint overwrites (seen : list string) (tr : list Event) : list Event :=
  match tr with
  | [] => []
  | e :: tr' =>
      match written e with
      | Some name =>
          if decide (name ∈ seen) then e :: overwrites seen tr'
          else overwrites (name :: seen) tr'
      | None => overwrites seen tr'
      end
  end.

(** What [rho_corr_147Sm_143Nd] returns and logs, as functions of the store. *)
Definition rho_value (np : NumPy) (h : Host) (st : Store) (sel : Group) :
    f64 :=
  match rho_try np h st sel with inr v => v | inl _ => NaN end.

Definition rho_events (np : NumPy) (h : Host) (st : Store) (sel : Group) :
    list Event :=
  match rho_try np h st sel with
  | inr _ => []
  | inl e => [Message ("[rho_corr_147Sm_143Nd] Error in selection " +:+
                       g_name sel +:+ ": " +:+ e)]
  end.

(** What the loop over the groups returns and logs. *)
Fixpoint scan_value (np : NumPy) (h : Host) (st : Store)
    (groups : list Group) : f64 :=
  match groups with
  | [] => NaN
  | sel :: rest =>
      if decide (g_type sel ≠ data_Baseline) then
        if negb (isnan (rho_value np h st sel)) then rho_value np h st sel
        else scan_value np h st rest
      else scan_value np h st rest
  end.

Fixpoint scan_events (np : NumPy) (h : Host) (st : Store)
    (groups : list Group) : list Event :=
  match groups with
  | [] => []
  | sel :: rest =>
      if decide (g_type sel ≠ data_Baseline) then
        rho_events np h st sel ++
        (if negb (isnan (rho_value np h st sel)) then []
         else scan_events np h st rest)
      else scan_events np h st rest
  end.

(** The pairs of samples that pass [not NaN and > 0] on both sides. *)
Definition valid_pair (p : f64 * f64) : bool :=
  negb (isnan p.1) && negb (isnan p.2) && fgt0 p.1 && fgt0 p.2.

Definition valid_pairs (sm nd : array) : list (f64 * f64) :=
  filter (λ p, valid_pair p = true) (zip sm nd).

(** What a standardization block assigns and emits. *)
Definition std_value (h : Host) (st : Store) (rmName series key : string)
    (raw : array) : array :=
  match std_try h st rmName series key raw with
  | inr StdCorr => StdCorr
  | inl _ => full_like raw NaN
  end.

Definition std_events (h : Host) (st : Store) (rmName series key : string)
    (raw : array) : list Event :=
  CreateSpline rmName series ::
  match std_try h st rmName series key raw with
  | inr _ => []
  | inl e => [Message ("Warning: Standard correction for " +:+ key +:+
                       " failed: " +:+ e)]
  end.

(** The inputs and the engine's arrays of a run. *)
Definition inputs_of (h : Host) (s : Settings) : Inputs :=
  {| Nd143 := timeSeries_data h "Nd143_CPS";
     Nd144 := timeSeries_data h "Nd144_CPS";
     Nd145 := timeSeries_data h "Nd145_CPS";
     Nd146 := timeSeries_data h "Nd146_CPS";
     Nd148 := timeSeries_data h "Nd148_CPS";
     Sm147 := timeSeries_data h "Sm147_CPS";
     Sm149 := timeSeries_data h "Sm149_CPS";
     mask := createMaskFromCutoff h (MaskChannel s) (MaskCutoff s)
                                  (MaskTrim s) |}.

Definition engine_of (np : NumPy) (h : Host) (s : Settings) : Engine :=
  correction_engine np s (inputs_of h s).

(** The store when the standardization blocks run: the two raw corrected
    ratios are published. *)
Definition published (np : NumPy) (h : Host) (s : Settings) (st : Store) :
    Store :=
  <["Sm147_Nd144_Corr" := Sm147_Nd144_Corr (engine_of np h s)]>
    (<["Nd143_144_Corr" := Nd143_144_Corr (engine_of np h s)]> st).

Definition StdCorr_143Nd_144_of (np : NumPy) (h : Host) (s : Settings)
    (st : Store) (rmName : string) : array :=
  std_value h (published np h s st) rmName "Nd143_144_Corr" "143Nd/144Nd"
            (Nd143_144_Corr (engine_of np h s)).

Definition StdCorr_147Sm_144_of (np : NumPy) (h : Host) (s : Settings)
    (st : Store) (rmName : string) : array :=
  std_value h (published np h s st) rmName "Sm147_Nd144_Corr" "147Sm/144Nd"
            (Sm147_Nd144_Corr (engine_of np h s)).

(** The series a reduction creates, in order: the two raw ratios, then
    (after the standardization blocks) all the others but rho. *)
Definition raw_outputs (np : NumPy) (h : Host) (s : Settings) :
    list (string * array) :=
  [("Nd143_144_Corr", Nd143_144_Corr (engine_of np h s));
   ("Sm147_Nd144_Corr", Sm147_Nd144_Corr (engine_of np h s))].

Definition later_outputs (np : NumPy) (v : Version) (h : Host) (s : Settings)
    (st : Store) (rmName : string) : list (string * array) :=
  [("StdCorr_147Sm_144", StdCorr_147Sm_144_of np h s st rmName);
   ("StdCorr_143Nd_144", StdCorr_143Nd_144_of np h s st rmName)] ++
  match v with
  | v4_8 => [("Nd143_144_Corr", Nd143_144_Corr (engine_of np h s))]
  | v4_9 => []
  end ++
  [("Nd145_144_Corr", Nd145_144_Corr (engine_of np h s));
   ("Nd148_144_Corr", Nd148_144_Corr (engine_of np h s));
   ("NdFract", NdFract (engine_of np h s));
   ("SmFract", SmFract (engine_of np h s));
   ("TotalNd", TotalNd (engine_of np h s))].

Definition create (p : string * array) : Event := CreateTimeSeries p.1 p.2.

Definition store_all (l : list (string * array)) (st : Store) : Store :=
  foldl (λ m p, <[p.1 := p.2]> m) st l.

(** The store when the loop over the groups starts. *)
Definition store_at_scan (np : NumPy) (v : Version) (h : Host) (s : Settings)
    (time : array) (rmName : string) (st : Store) : Store :=
  <["rho" := full_like time NaN]>
    (store_all (later_outputs np v h s st rmName) (published np h s st)).

(** [first_rho_val] when the loop is over. *)
Definition first_rho_val_of (np : NumPy) (v : Version) (h : Host)
    (s : Settings) (time : array) (rmName : string) (st : Store) : f64 :=
  scan_value np h (store_at_scan np v h s time rmName st)
             (selectionGroupList h).

Definition propagation_events (v : Version) (h : Host) (s : Settings)
    (rmName : string) : list Event :=
  match v with
  | v4_8 =>
      if PropagateError s then
        [PropagateErrors
           (filter (λ g, g_type g ≠ data_Baseline) (selectionGroupList h))
           "StdCorr_143Nd_144" "Nd143_144_Corr" rmName;
         PropagateErrors
           (filter (λ g, g_type g ≠ data_Baseline) (selectionGroupList h))
           "StdCorr_147Sm_144" "Sm147_Nd144_Corr" rmName;
         Message "Propagated uncertainties calculated."]
      else []
  | v4_9 => []
  end.

(** The events of the loop over the groups and of the update of the rho
    series. *)
Definition rho_series_events (np : NumPy) (v : Version) (h : Host)
    (s : Settings) (time : array) (rmName : string) (st : Store) :
    list Event :=
  scan_events np h (store_at_scan np v h s time rmName st)
              (selectionGroupList h) ++
  (if negb (isnan (first_rho_val_of np v h s time rmName st))
   then [SetData "rho"
           (full_like time (first_rho_val_of np v h s time rmName st))]
   else []).

(** The events of [runDRS_reduce], spelled out. *)
Definition reduce_events (np : NumPy) (v : Version) (h : Host) (s : Settings)
    (time : array) (rmName : string) (st : Store) : list Event :=
  [SetIndexChannel (IndexChannel s)] ++
  (BaselineSubtract "Baseline" <$> timeSeriesList_Input h) ++
  (create <$> raw_outputs np h s) ++
  std_events h (published np h s st) rmName "Nd143_144_Corr" "143Nd/144Nd"
             (Nd143_144_Corr (engine_of np h s)) ++
  std_events h (published np h s st) rmName "Sm147_Nd144_Corr" "147Sm/144Nd"
             (Sm147_Nd144_Corr (engine_of np h s)) ++
  (create <$> later_outputs np v h s st rmName) ++
  propagation_events v h s rmName ++
  [RegisterAssociatedResult
     "log10(StdCorr_147Sm/144Nd) vs log10(StdCorr_143Nd/144Nd) rho";
   CreateTimeSeries "rho" (full_like time NaN)] ++
  rho_series_events np v h s time rmName st ++
  [Progress 100; Message "Finished!"; Finished].

(** The store [runDRS_reduce] leaves behind. *)
Definition reduce_store (np : NumPy) (v : Version) (h : Host) (s : Settings)
    (time : array) (rmName : string) (st : Store) : Store :=
  if negb (isnan (first_rho_val_of np v h s time rmName st))
  then <["rho" := full_like time (first_rho_val_of np v h s time rmName st)]>
         (store_at_scan np v h s time rmName st)
  else store_at_scan np v h s time rmName st.

(** One of the three host calls of a standardization block raises [e]. *)
Definition raises (h : Host) (st : Store) (rmName series key : string)
    (e : exn) : Prop :=
  createSpline h rmName series st = Some e ∨
  (createSpline h rmName series st = None ∧
   spline_data h rmName series st = inl e) ∨
  (createSpline h rmName series st = None ∧
   (∃ spline, spline_data h rmName series st = inr spline) ∧
   referenceMaterialData h rmName key = inl e).

(** Two hosts that answer alike, except possibly where the standardization
    of [series] (spline) and [key] (accepted value) is concerned. *)
Definition same_but (series key : string) (h h' : Host) : Prop :=
  selectionGroupList h = selectionGroupList h' ∧
  timeSeriesList_Input h = timeSeriesList_Input h' ∧
  timeSeries_time h = timeSeries_time h' ∧
  createMaskFromCutoff h = createMaskFromCutoff h' ∧
  timeSeries_data h = timeSeries_data h' ∧
  dataForSelection h = dataForSelection h' ∧
  (∀ rm sr st, sr ≠ series →
     createSpline h rm sr st = createSpline h' rm sr st ∧
     spline_data h rm sr st = spline_data h' rm sr st) ∧
  (∀ rm k, k ≠ key →
     referenceMaterialData h rm k = referenceMaterialData h' rm k).

(** [h], except that creating the spline of [series] raises [e]. *)
Definition failing_host (series : string) (e : exn) (h : Host) : Host :=
  {| selectionGroupList := selectionGroupList h;
     timeSeriesList_Input := timeSeriesList_Input h;
     timeSeries_time := timeSeries_time h;
     createMaskFromCutoff := createMaskFromCutoff h;
     timeSeries_data := timeSeries_data h;
     createSpline := λ rm sr st,
       if decide (sr = series) then Some e else createSpline h rm sr st;
     spline_data := spline_data h;
     referenceMaterialData := referenceMaterialData h;
     dataForSelection := dataForSelection h |}.

(** The names of the series a run creates. *)
Definition output_names (v : Version) : list string :=
  ["Nd143_144_Corr"; "Sm147_Nd144_Corr"; "StdCorr_147Sm_144";
   "StdCorr_143Nd_144"] ++
  match v with v4_8 => ["Nd143_144_Corr"] | v4_9 => [] end ++
  ["Nd145_144_Corr"; "Nd148_144_Corr"; "NdFract"; "SmFract"; "TotalNd";
   "rho"].

(** The created series other than [name]. *)
Definition created_except (name : string) (tr : list Event) :
    list (string * array) :=
  filter (λ p, p.1 ≠ name) (created tr).

(** The reference material a run settles on, if any. *)
Definition resolved (h : Host) (s : Settings) : option string :=
  let rmNames := selectionGroupNames h data_ReferenceMaterial in
  if decide (ReferenceMaterial s ∈ rmNames) then Some (ReferenceMaterial s)
  else if decide ("G_LREE" ∈ rmNames) then Some "G_LREE"
  else head rmNames.

(** The messages of the reference-material check. *)
Definition start_message (v : Version) : string :=
  match v with
  | v4_8 => "Running Sm-Nd Isotopes_UWA_v48..."
  | v4_9 => "Running Sm-Nd Isotopes_UWA_v4.9..."
  end.

Definition fallback_message (v : Version) (s : Settings) (rmName : string) :
    string :=
  match v with
  | v4_8 => "Selected reference material '" +:+ ReferenceMaterial s
            +:+ "' not found. Using '" +:+ rmName +:+ "' instead."
  | v4_9 => "Using fallback reference material: " +:+ rmName
  end.

Definition error_message (v : Version) : string :=
  match v with
  | v4_8 => "Error: No reference material available. Please define one in your data."
  | v4_9 => "Error: No reference material available."
  end.

(** The world in which the reduction proper starts: after the two opening
    calls and, when [fallback] is set, the announcement and the settings
    write of the fallback branch. *)
Definition after_resolution (v : Version) (st : Store) (s : Settings)
    (fallback : bool) (rmName : string) : World :=
  if fallback then
    {| store := st; settings := set_ReferenceMaterial rmName s;
       trace := [Message (start_message v); Progress 0;
                 Message (fallback_message v s rmName);
                 SetSetting "ReferenceMaterial" rmName] |}
  else
    {| store := st; settings := s;
       trace := [Message (start_message v); Progress 0] |}.

(** The time axis of a run. *)
Definition time_of (h : Host) (s : Settings) : array :=
  timeSeries_time h (IndexChannel s).

(** All eight input arrays have [n] samples. *)
Definition aligned (n : nat) (i : Inputs) : Prop :=
  length (Nd143 i) = n ∧ length (Nd144 i) = n ∧ length (Nd145 i) = n ∧
  length (Nd146 i) = n ∧ length (Nd148 i) = n ∧ length (Sm147 i) = n ∧
  length (Sm149 i) = n ∧ length (mask i) = n.

(** The masked products of the engine. *)
Definition Forall_engine (P : f64 → Prop) (r : Engine) : Prop :=
  Forall P (SmFract r) ∧ Forall P (NdFract r) ∧
  Forall P (Sm144 r) ∧ Forall P (Sm148 r) ∧
  Forall P (Nd144c r) ∧ Forall P (Nd148c r) ∧
  Forall P (Nd143_144_Corr r) ∧ Forall P (Nd145_144_Corr r) ∧
  Forall P (Nd148_144_Corr r) ∧ Forall P (Sm147_Nd144_Corr r) ∧
  Forall P (TotalNd r).

Definition length_engine (n : nat) (r : Engine) : Prop :=
  length (SmFract r) = n ∧ length (NdFract r) = n ∧
  length (Sm144 r) = n ∧ length (Sm148 r) = n ∧
  length (Nd144c r) = n ∧ length (Nd148c r) = n ∧
  length (Nd143_144_Corr r) = n ∧ length (Nd145_144_Corr r) = n ∧
  length (Nd148_144_Corr r) = n ∧ length (Sm147_Nd144_Corr r) = n ∧
  length (TotalNd r) = n.

(** Every array of the list is NaN at sample [i]. *)
Definition nan_at (i : nat) (l : list array) : Prop :=
  Forall (λ a : array, a !! i = Some NaN) l.

(** ** A numpy and a host to run the script on

    [numpy_special] has the special values of C99 Annex F (NaN in, NaN out;
    [1 ** x = 1]; [x ** 0 = 1]) and a first-order estimate at the other
    arguments; its [corrcoef] is the textbook two-pass Pearson coefficient
    in binary64, NaN for fewer than two observations. *)

Definition log_special (x : f64) : f64 :=
  match x with
  | S754_nan => NaN
  | S754_zero _ => S754_infinity true
  | S754_infinity false => x
  | S754_infinity true | S754_finite true _ _ => NaN
  | S754_finite false _ _ => fsub x c1_0
  end.

Definition power_special (b x : f64) : f64 :=
  if SFeqb b c1_0 then c1_0
  else if feq0 x then c1_0
  else if isnan b || isnan x then NaN
  else fadd c1_0 (fmul x (log_special b)).

Definition c10_0 : f64 := Eval vm_compute in Prim2SF 10%float.

Definition log10_special (x : f64) : f64 :=
  fdiv (log_special x) (log_special c10_0).

Definition fsum (a : array) : f64 := foldl fadd fzero a.

Definition deviations (a : array) : array :=
  let mean := fdiv (fsum a) (of_nat (length a)) in
  (λ x, fsub x mean) <$> a.

Definition covariance (x y : array) : f64 :=
  fdiv (fsum (amul (deviations x) (deviations y))) (of_nat (length x - 1)).

Definition clip1 (x : f64) : f64 :=
  if SFltb x (SFopp c1_0) then SFopp c1_0
  else if SFltb c1_0 x then c1_0 else x.

Definition pearson (x y : array) : exn + f64 :=
  if decide (length x = length y) then
    if decide (length x < 2) then inr NaN
    else inr (clip1 (fdiv (fdiv (covariance x y) (fsqrt (covariance x x)))
                          (fsqrt (covariance y y))))
  else inl "all the input array dimensions must match exactly".

Definition numpy_special : NumPy :=
  {| np_log := log_special; np_power := power_special;
     np_log10 := log10_special; np_corrcoef01 := pearson |}.

Definition c0_5 : f64 := Eval vm_compute in Prim2SF 0.5%float.
Definition c2_0 : f64 := Eval vm_compute in Prim2SF 2%float.
Definition c3_0 : f64 := Eval vm_compute in Prim2SF 3%float.
Definition c400 : f64 := Eval vm_compute in Prim2SF 400%float.
Definition c600 : f64 := Eval vm_compute in Prim2SF 600%float.
Definition c900 : f64 := Eval vm_compute in Prim2SF 900%float.
Definition c920 : f64 := Eval vm_compute in Prim2SF 920%float.
Definition c300 : f64 := Eval vm_compute in Prim2SF 300%float.
Definition c1000 : f64 := Eval vm_compute in Prim2SF 1000%float.
Definition c5000 : f64 := Eval vm_compute in Prim2SF 5000%float.
Definition c0_1 : f64 := Eval vm_compute in Prim2SF 0.1%float.
Definition c0_7219 : f64 := Eval vm_compute in Prim2SF 0.7219%float.
Definition c1_0868 : f64 := Eval vm_compute in Prim2SF 1.0868%float.
Definition c0_22332 : f64 := Eval vm_compute in Prim2SF 0.22332%float.
Definition c0_81419 : f64 := Eval vm_compute in Prim2SF 0.81419%float.
Definition c0_512 : f64 := Eval vm_compute in Prim2SF 0.512%float.
Definition c0_1967 : f64 := Eval vm_compute in Prim2SF 0.1967%float.

(** The defaults that [settingsWidget] writes, with a reference material. *)
Definition default_settings (rm : string) : Settings :=
  {| IndexChannel := "Nd146"; MaskChannel := "Nd146";
     ReferenceMaterial := rm;
     MaskCutoff := c0_1; MaskTrim := fzero;
     NdTrue := c0_7219; Sm147_149 := c1_0868;
     Sm144_149 := c0_22332; Sm148_149 := c0_81419;
     PropagateError := true |}.

(** Two-sample count rates. *)
Definition sample_data (name : string) : array :=
  if decide (name = "Nd143_CPS") then [c600; c600]
  else if decide (name = "Nd144_CPS") then [c5000; c5000]
  else if decide (name = "Nd145_CPS") then [c400; c400]
  else if decide (name = "Nd146_CPS") then [c900; c900]
  else if decide (name = "Nd148_CPS") then [c300; c300]
  else if decide (name = "Sm147_CPS") then [c1000; c1000]
  else if decide (name = "Sm149_CPS") then [c920; c920]
  else [].

(** A host with the given groups and mask; the spline of a series is the
    series itself, the accepted values are 0.512 and 0.1967, and a selection
    covers the whole time axis. *)
Definition sample_host (groups : list Group) (m : array) : Host :=
  {| selectionGroupList := groups;
     timeSeriesList_Input := ["Nd143"; "Nd146"; "Sm147"];
     timeSeries_time := λ _, [fzero; c1_0];
     createMaskFromCutoff := λ _ _ _, m;
     timeSeries_data := sample_data;
     createSpline := λ _ _ _, None;
     spline_data := λ _ series st, data_timeSeries st series;
     referenceMaterialData := λ _ key,
       if decide (key = "143Nd/144Nd") then inr c0_512
       else if decide (key = "147Sm/144Nd") then inr c0_1967
       else inl ("KeyError: " +:+ key);
     dataForSelection := λ _ a, inr a |}.

Definition sample_groups : list Group :=
  [ {| g_name := "Baseline"; g_type := data_Baseline |};
    {| g_name := "G_LREE"; g_type := data_ReferenceMaterial |};
    {| g_name := "Monazite"; g_type := data_Sample |} ].

(** Inputs with [Sm149 == 0] at sample 0 and a masked-out sample 1. *)
Definition zero_settings : Settings := default_settings "G_LREE".

Definition zero_inputs : Inputs :=
  {| Nd143 := [c600; c600]; Nd144 := [c5000; c5000];
     Nd145 := [c400; c400]; Nd146 := [c900; c900];
     Nd148 := [c300; c300]; Sm147 := [c1000; c1000];
     Sm149 := [fzero; c920];
     mask := [c1_0; fzero] |}.

(** The host of the examples: all samples pass the mask. *)
Definition sample_run_host : Host := sample_host sample_groups [c1_0; c1_0].

(** A host with three samples whose ratios vary, so that a rho exists: the
    reference-material group has no selection (extraction raises), the two
    sample groups cover the whole time axis. *)
Definition rho_groups : list Group :=
  [ {| g_name := "Baseline"; g_type := data_Baseline |};
    {| g_name := "G_LREE"; g_type := data_ReferenceMaterial |};
    {| g_name := "Monazite"; g_type := data_Sample |};
    {| g_name := "Zircon"; g_type := data_Sample |} ].

Definition rho_host : Host :=
  {| selectionGroupList := rho_groups;
     timeSeriesList_Input := ["Nd143"; "Nd146"; "Sm147"];
     timeSeries_time := λ _, [fzero; c1_0; c2_0];
     createMaskFromCutoff := λ _ _ _, [c1_0; c1_0; c1_0];
     timeSeries_data := λ name,
       if decide (name = "Nd143_CPS") then [c600; c400; c300]
       else if decide (name = "Sm147_CPS") then [c1000; c920; c900]
       else sample_data name ++ take 1 (sample_data name);
     createSpline := λ _ _ _, None;
     spline_data := λ _ series _,
       if decide (series = "Nd143_144_Corr")
       then inr [SFopp c1_0; SFopp c1_0; SFopp c1_0]
       else inr [c1_0; c1_0; c1_0];
     referenceMaterialData := λ _ key,
       if decide (key = "143Nd/144Nd") then inr c0_512
       else if decide (key = "147Sm/144Nd") then inr c0_1967
       else inl ("KeyError: " +:+ key);
     dataForSelection := λ g a,
       if decide (g_type g = data_ReferenceMaterial)
       then inl "the group has no selection"
       else inr a |}.

(** ** settingsWidget: the default settings

    The [drs.setSetting] calls at the start of [settingsWidget] (lines
    178-186 of v4.9, 192-201 of v4.8).  Each call replaces one entry of the
    settings; the event carries the value as the script writes it.  The Qt
    widgets built afterwards are not part of the model. *)

Definition set_IndexChannel (x : string) (s : Settings) : Settings :=
  {| IndexChannel := x; MaskChannel := MaskChannel s;
     ReferenceMaterial := ReferenceMaterial s;
     MaskCutoff := MaskCutoff s; MaskTrim := MaskTrim s;
     NdTrue := NdTrue s; Sm147_149 := Sm147_149 s;
     Sm144_149 := Sm144_149 s; Sm148_149 := Sm148_149 s;
     PropagateError := PropagateError s |}.

Definition set_MaskChannel (x : string) (s : Settings) : Settings :=
  {| IndexChannel := IndexChannel s; MaskChannel := x;
     ReferenceMaterial := ReferenceMaterial s;
     MaskCutoff := MaskCutoff s; MaskTrim := MaskTrim s;
     NdTrue := NdTrue s; Sm147_149 := Sm147_149 s;
     Sm144_149 := Sm144_149 s; Sm148_149 := Sm148_149 s;
     PropagateError := PropagateError s |}.

Definition set_MaskCutoff (x : f64) (s : Settings) : Settings :=
  {| IndexChannel := IndexChannel s; MaskChannel := MaskChannel s;
     ReferenceMaterial := ReferenceMaterial s;
     MaskCutoff := x; MaskTrim := MaskTrim s;
     NdTrue := NdTrue s; Sm147_149 := Sm147_149 s;
     Sm144_149 := Sm144_149 s; Sm148_149 := Sm148_149 s;
     PropagateError := PropagateError s |}.

Definition set_MaskTrim (x : f64) (s : Settings) : Settings :=
  {| IndexChannel := IndexChannel s; MaskChannel := MaskChannel s;
     ReferenceMaterial := ReferenceMaterial s;
     MaskCutoff := MaskCutoff s; MaskTrim := x;
     NdTrue := NdTrue s; Sm147_149 := Sm147_149 s;
     Sm144_149 := Sm144_149 s; Sm148_149 := Sm148_149 s;
     PropagateError := PropagateError s |}.

Definition set_NdTrue (x : f64) (s : Settings) : Settings :=
  {| IndexChannel := IndexChannel s; MaskChannel := MaskChannel s;
     ReferenceMaterial := ReferenceMaterial s;
     MaskCutoff := MaskCutoff s; MaskTrim := MaskTrim s;
     NdTrue := x; Sm147_149 := Sm147_149 s;
     Sm144_149 := Sm144_149 s; Sm148_149 := Sm148_149 s;
     PropagateError := PropagateError s |}.

Definition set_Sm147_149 (x : f64) (s : Settings) : Settings :=
  {| IndexChannel := IndexChannel s; MaskChannel := MaskChannel s;
     ReferenceMaterial := ReferenceMaterial s;
     MaskCutoff := MaskCutoff s; MaskTrim := MaskTrim s;
     NdTrue := NdTrue s; Sm147_149 := x;
     Sm144_149 := Sm144_149 s; Sm148_149 := Sm148_149 s;
     PropagateError := PropagateError s |}.

Definition set_Sm144_149 (x : f64) (s : Settings) : Settings :=
  {| IndexChannel := IndexChannel s; MaskChannel := MaskChannel s;
     ReferenceMaterial := ReferenceMaterial s;
     MaskCutoff := MaskCutoff s; MaskTrim := MaskTrim s;
     NdTrue := NdTrue s; Sm147_149 := Sm147_149 s;
     Sm144_149 := x; Sm148_149 := Sm148_149 s;
     PropagateError := PropagateError s |}.

Definition set_Sm148_149 (x : f64) (s : Settings) : Settings :=
  {| IndexChannel := IndexChannel s; MaskChannel := MaskChannel s;
     ReferenceMaterial := ReferenceMaterial s;
     MaskCutoff := MaskCutoff s; MaskTrim := MaskTrim s;
     NdTrue := NdTrue s; Sm147_149 := Sm147_149 s;
     Sm144_149 := Sm144_149 s; Sm148_149 := x;
     PropagateError := PropagateError s |}.

Definition set_PropagateError (x : bool) (s : Settings) : Settings :=
  {| IndexChannel := IndexChannel s; MaskChannel := MaskChannel s;
     ReferenceMaterial := ReferenceMaterial s;
     MaskCutoff := MaskCutoff s; MaskTrim := MaskTrim s;
     NdTrue := NdTrue s; Sm147_149 := Sm147_149 s;
     Sm144_149 := Sm144_149 s; Sm148_149 := Sm148_149 s;
     PropagateError := x |}.

(** [drs.setSetting(key, value)]: [update] is the effect on the settings,
    [text] the value as written. *)
Definition drs_setSetting (key text : string)
    (update : Settings → Settings) : M unit := λ w,
  (tt, {| store := store w; settings := update (settings w);
          trace := trace w ++ [SetSetting key text] |}).

(** ["G_LREE" if "G_LREE" in rmNames else (rmNames[0] if rmNames else "")] *)
Definition default_ReferenceMaterial (rmNames : list string) : string :=
  if decide ("G_LREE" ∈ rmNames) then "G_LREE"
  else match rmNames with first :: _ => first | [] => "" end.

Definition settingsWidget (v : Version) (h : Host) : M unit :=
  let rmNames := selectionGroupNames h data_ReferenceMaterial in
  drs_setSetting "IndexChannel" "Nd146" (set_IndexChannel "Nd146");;
  drs_setSetting "ReferenceMaterial" (default_ReferenceMaterial rmNames)
    (set_ReferenceMaterial (default_ReferenceMaterial rmNames));;
  drs_setSetting "MaskChannel" "Nd146" (set_MaskChannel "Nd146");;
  drs_setSetting "MaskCutoff" "0.1" (set_MaskCutoff c0_1);;
  drs_setSetting "MaskTrim" "0.0" (set_MaskTrim fzero);;
  drs_setSetting "NdTrue" "0.7219" (set_NdTrue c0_7219);;
  drs_setSetting "Sm147_149" "1.08680" (set_Sm147_149 c1_0868);;
  drs_setSetting "Sm144_149" "0.22332" (set_Sm144_149 c0_22332);;
  drs_setSetting "Sm148_149" "0.81419" (set_Sm148_149 c0_81419);;
  match v with
  | v4_8 => drs_setSetting "PropagateError" "True" (set_PropagateError true)
  | v4_9 => mret tt
  end.

(** [runDRS] started from a world: what the host does when the user runs the
    scheme after the settings were prepared. *)
Definition run_from (np : NumPy) (v : Version) (h : Host) (w : World) :
    World :=
  run np v h (store w) (settings w).

(** ** More observations *)

Definition is_finished (e : Event) : bool :=
  match e with Finished => true | _ => false end.

Definition is_progress (e : Event) : bool :=
  match e with Progress _ => true | _ => false end.

Definition is_baselineSubtract (e : Event) : bool :=
  match e with BaselineSubtract _ _ => true | _ => false end.

Definition is_createSpline (e : Event) : bool :=
  match e with CreateSpline _ _ => true | _ => false end.

(** The events of a trace that an observer selects. *)
Definition select (P : Event → bool) (tr : list Event) : list Event :=
  filter (λ e, P e = true) tr.

Definition is_message (e : Event) : bool :=
  match e with Message _ => true | _ => false end.

(** Messages and spline requests. *)
Definition talk (e : Event) : bool :=
  match e with Message _ | CreateSpline _ _ => true | _ => false end.

(** The condition of the loop over the groups. *)
Definition not_Baseline (g : Group) : Prop := g_type g ≠ data_Baseline.

#[global] Instance not_Baseline_dec g : Decision (not_Baseline g).
Proof. unfold not_Baseline. apply _. Defined.

(** A host whose selections take their samples from the series. *)
Definition selects_samples (h : Host) : Prop :=
  ∀ g (a b : array), dataForSelection h g a = inr b → Forall (λ x, x ∈ a) b.

(** A host whose splines have [n] samples. *)
Definition splines_have (n : nat) (h : Host) : Prop :=
  ∀ rm series st spline,
    spline_data h rm series st = inr spline → length spline = n.

(** Inputs whose mask is NaN at sample 1. *)
Definition nan_mask_inputs : Inputs :=
  {| Nd143 := [c600; c600]; Nd144 := [c5000; c5000];
     Nd145 := [c400; c400]; Nd146 := [c900; c900];
     Nd148 := [c300; c300]; Sm147 := [c1000; c1000];
     Sm149 := [c920; c920];
     mask := [c1_0; NaN] |}.

(** ** rho on scaled inputs *)

(** [data.timeSeries(name).dataForSelection(sel)] inside the [try] block *)
Definition selected (h : Host) (st : Store) (sel : Group) (name : string) :
    exn + array :=
  ts ← data_timeSeries st name;
  dataForSelection h sel ts.

(** [10 * a] *)
Definition times10 (a : array) : array := fmul c10_0 <$> a.

(** A sample that is a binary64 value, as every [float64] of numpy is: the
    mantissa and the exponent of a finite sample are in range. *)
Definition binary64 (x : f64) : Prop := valid_binary prec emax x = true.

(** [np], with [log10] taken of ten times its argument. *)
Definition log10_of_times10 (np : NumPy) : NumPy :=
  {| np_log := np_log np; np_power := np_power np;
     np_log10 := λ x, np_log10 np (fmul c10_0 x);
     np_corrcoef01 := np_corrcoef01 np |}.

Definition pinf : f64 := S754_infinity false.

(** What numpy does with an infinite sample: [log10(inf)] is [inf], and the
    coefficient of two series of one length is NaN as soon as one of them
    holds [inf] (its mean is infinite and [inf - inf] is NaN). *)
Definition inf_gives_nan (np : NumPy) : Prop :=
  np_log10 np pinf = pinf ∧
  ∀ x y, length x = length y → pinf ∈ x ∨ pinf ∈ y →
         np_corrcoef01 np x y = inr NaN.

(** *** Samples near the top of the binary64 range

    [numpy_binade] is [numpy_special] with a logarithm that does not
    overflow in [pearson]: [log10 x] to within one binade, that is
    [e * log10 2] for [2 ^ (e - 1) <= x < 2 ^ e]. *)

Definition c0_30103 : f64 :=
  Eval vm_compute in Prim2SF 0.30102999566398120%float.
Definition c1e307 : f64 := Eval vm_compute in Prim2SF 1e307%float.
Definition c5e307 : f64 := Eval vm_compute in Prim2SF 5e307%float.
Definition c1e308 : f64 := Eval vm_compute in Prim2SF 1e308%float.

Definition log10_binade (x : f64) : f64 :=
  match x with
  | S754_nan => NaN
  | S754_zero _ => S754_infinity true
  | S754_infinity false => x
  | S754_infinity true | S754_finite true _ _ => NaN
  | S754_finite false m e =>
      fmul (binary_normalize prec emax (Z.pos (digits2_pos m) + e) 0 false)
           c0_30103
  end.

Definition numpy_binade : NumPy :=
  {| np_log := log_special; np_power := power_special;
     np_log10 := log10_binade; np_corrcoef01 := pearson |}.

(** Standardized ratios whose Sm/Nd samples are below the largest binary64
    value, two of them by less than a factor of ten. *)
Definition large_store : Store :=
  {[ "StdCorr_147Sm_144" := [c1e308; c1e307; c5e307];
     "StdCorr_143Nd_144" := [c2_0; c3_0; c0_5] ]}.

Definition large_store_times10 : Store :=
  {[ "StdCorr_147Sm_144" := times10 [c1e308; c1e307; c5e307];
     "StdCorr_143Nd_144" := times10 [c2_0; c3_0; c0_5] ]}.

Definition Monazite : Group :=
  {| g_name := "Monazite"; g_type := data_Sample |}.

(** ** Host calls *)

(** The host calls other than [drs.message]. *)
Definition is_call (e : Event) : bool := negb (is_message e).

Definition is_series_write (e : Event) : bool :=
  match e with CreateTimeSeries _ _ | SetData _ _ => true | _ => false end.

(** * Properties *)

Arguments fadd : simpl never.
Arguments fsub : simpl never.
Arguments fmul : simpl never.
Arguments fdiv : simpl never.
Arguments amul : simpl never.
Arguments adiv : simpl never.
Arguments asub : simpl never.
Arguments muls : simpl never.
Arguments divs : simpl never.
Arguments sdiv : simpl never.
Arguments ane0 : simpl never.
Arguments where_nan : simpl never.
Arguments alog : simpl never.
Arguments spow : simpl never.
Arguments full_like : simpl never.
Arguments correction_engine : simpl never.
Arguments engine_of : simpl never.
Arguments std_try : simpl never.
Arguments rho_try : simpl never.

(** ** Samples: NaN and zero in binary64 arithmetic *)

Lemma fmul_nan_l x : fmul NaN x = NaN.
Proof. by destruct x. Qed.

Lemma fmul_nan_r x : fmul x NaN = NaN.
Proof. by destruct x. Qed.

Lemma fdiv_nan_l x : fdiv NaN x = NaN.
Proof. by destruct x. Qed.

Lemma fdiv_nan_r x : fdiv x NaN = NaN.
Proof. by destruct x. Qed.

Lemma fsub_nan_r x : fsub x NaN = NaN.
Proof. by destruct x. Qed.

Lemma feq0_spec x : feq0 x = true ↔ ∃ s, x = S754_zero s.
Proof.
  split.
  - intros H. destruct x as [s|s| |s m e];
      [eauto | by destruct s | done | by destruct s].
  - by intros [s ->].
Qed.

Lemma fne0_zero x : feq0 x = true → fne0 x = false.
Proof. unfold fne0, feq0. by intros ->. Qed.

(** A product with a zero is a zero or NaN, whatever the other factor. *)
Lemma fmul_zero_r x m : feq0 m = true → zero_or_nan (fmul x m) = true.
Proof. intros [s ->]%feq0_spec. by destruct x. Qed.

(** ** Arrays: lengths *)

Lemma length_amul a b : length (amul a b) = length a `min` length b.
Proof. apply length_zip_with. Qed.
Lemma length_adiv a b : length (adiv a b) = length a `min` length b.
Proof. apply length_zip_with. Qed.
Lemma length_asub a b : length (asub a b) = length a `min` length b.
Proof. apply length_zip_with. Qed.
Lemma length_muls a s : length (muls a s) = length a.
Proof. apply length_fmap. Qed.
Lemma length_divs a s : length (divs a s) = length a.
Proof. apply length_fmap. Qed.
Lemma length_sdiv s a : length (sdiv s a) = length a.
Proof. apply length_fmap. Qed.
Lemma length_ane0 a : length (ane0 a) = length a.
Proof. apply length_fmap. Qed.
Lemma length_where_nan c a :
  length (where_nan c a) = length c `min` length a.
Proof. apply length_zip_with. Qed.
Lemma length_alog np a : length (alog np a) = length a.
Proof. apply length_fmap. Qed.
Lemma length_spow np b a : length (spow np b a) = length a.
Proof. apply length_fmap. Qed.
Lemma length_full_like a v : length (full_like a v) = length a.
Proof. apply length_replicate. Qed.

Ltac alen :=
  repeat (rewrite ?length_amul, ?length_adiv, ?length_asub, ?length_muls,
    ?length_divs, ?length_sdiv, ?length_ane0, ?length_where_nan,
    ?length_alog, ?length_spow, ?length_full_like in *); lia.

(** ** Arrays: a NaN sample stays NaN *)

Lemma zip_with_at {A B} (f : A → B → f64) (l : list A) (k : list B) i x y :
  l !! i = Some x → k !! i = Some y → zip_with f l k !! i = Some (f x y).
Proof. intros Hx Hy. rewrite lookup_zip_with, Hx; simpl. by rewrite Hy. Qed.

Lemma zip_with_nan_r {A} (f : A → f64 → f64) (l : list A) (b : array) i :
  (∀ x, f x NaN = NaN) →
  b !! i = Some NaN → i < length l → zip_with f l b !! i = Some NaN.
Proof.
  intros Hf Hb [x Hx]%lookup_lt_is_Some.
  rewrite (zip_with_at f l b i x NaN) by done. by rewrite Hf.
Qed.

Lemma zip_with_nan_l {B} (f : f64 → B → f64) (a : array) (k : list B) i :
  (∀ y, f NaN y = NaN) →
  a !! i = Some NaN → i < length k → zip_with f a k !! i = Some NaN.
Proof.
  intros Hf Ha [y Hy]%lookup_lt_is_Some.
  rewrite (zip_with_at f a k i NaN y) by done. by rewrite Hf.
Qed.

Lemma fmap_nan (f : f64 → f64) (a : array) i :
  f NaN = NaN → a !! i = Some NaN → (f <$> a) !! i = Some NaN.
Proof. intros Hf Ha. by rewrite list_lookup_fmap, Ha; simpl; rewrite Hf. Qed.

Lemma where_nan_false c a i :
  c !! i = Some false → i < length a → where_nan c a !! i = Some NaN.
Proof.
  intros Hc [x Hx]%lookup_lt_is_Some. unfold where_nan.
  by rewrite (zip_with_at _ c a i false x).
Qed.

Lemma where_nan_nan c a i :
  a !! i = Some NaN → i < length c → where_nan c a !! i = Some NaN.
Proof.
  intros Ha Hc. unfold where_nan. apply zip_with_nan_r; [|done..].
  by intros [].
Qed.

Lemma ane0_zero a i z :
  a !! i = Some z → feq0 z = true → ane0 a !! i = Some false.
Proof.
  intros Ha Hz. unfold ane0. rewrite list_lookup_fmap, Ha; simpl.
  by rewrite fne0_zero.
Qed.

(** The guarded divisor pattern [np.where(d != 0, q, np.nan)] at a sample
    where [d] is zero. *)
Lemma guarded_zero d q i z :
  d !! i = Some z → feq0 z = true → i < length q →
  where_nan (ane0 d) q !! i = Some NaN.
Proof. intros Hd Hz Hq. apply where_nan_false; eauto using ane0_zero. Qed.

Lemma amul_nan_l a b i :
  a !! i = Some NaN → i < length b → amul a b !! i = Some NaN.
Proof. apply zip_with_nan_l, fmul_nan_l. Qed.

Lemma amul_nan_r a b i :
  b !! i = Some NaN → i < length a → amul a b !! i = Some NaN.
Proof. apply zip_with_nan_r, fmul_nan_r. Qed.

Lemma adiv_nan_r a b i :
  b !! i = Some NaN → i < length a → adiv a b !! i = Some NaN.
Proof. apply zip_with_nan_r, fdiv_nan_r. Qed.

Lemma asub_nan_r a b i :
  b !! i = Some NaN → i < length a → asub a b !! i = Some NaN.
Proof. apply zip_with_nan_r, fsub_nan_r. Qed.

Lemma sdiv_nan s a i : a !! i = Some NaN → sdiv s a !! i = Some NaN.
Proof. apply fmap_nan, fdiv_nan_r. Qed.

Lemma divs_nan a s i : a !! i = Some NaN → divs a s !! i = Some NaN.
Proof. apply (fmap_nan (λ x, fdiv x s)), fdiv_nan_l. Qed.

Lemma alog_nan np a i :
  np_log np NaN = NaN → a !! i = Some NaN → alog np a !! i = Some NaN.
Proof. apply fmap_nan. Qed.

Lemma spow_nan np b a i :
  np_power np b NaN = NaN → a !! i = Some NaN → spow np b a !! i = Some NaN.
Proof. apply fmap_nan. Qed.

(** ** The correction engine, one assignment at a time *)

Section Engine_equations.
Variable np : NumPy.
Variable c : Settings.
Variable i : Inputs.

Let r := correction_engine np c i.

Lemma eq_SmFract :
  SmFract r =
  amul (divs (alog np (sdiv (Sm147_149 c) (measured_Sm147_149 i)))
             (np_log np (fdiv c146_9149 c148_9172))) (mask i).
Proof. reflexivity. Qed.

Lemma eq_Sm144 :
  Sm144 r =
  amul (amul (muls (Sm149 i) (Sm144_149 c))
             (spow np (fdiv c148_9172 c143_912) (SmFract r))) (mask i).
Proof. reflexivity. Qed.

Lemma eq_Sm148 :
  Sm148 r =
  amul (amul (muls (Sm149 i) (Sm148_149 c))
             (spow np (fdiv c148_9172 c147_9148) (SmFract r))) (mask i).
Proof. reflexivity. Qed.

Lemma eq_Nd144c : Nd144c r = amul (asub (Nd144 i) (Sm144 r)) (mask i).
Proof. reflexivity. Qed.

Lemma eq_Nd148c : Nd148c r = amul (asub (Nd148 i) (Sm148 r)) (mask i).
Proof. reflexivity. Qed.

Lemma eq_Nd144c_safe :
  Nd144c_safe r = where_nan (ane0 (Nd144c r)) (Nd144c r).
Proof. reflexivity. Qed.

Lemma eq_NdFract :
  NdFract r =
  amul (divs (alog np (sdiv (NdTrue c)
                 (where_nan (ane0 (Nd144c_safe r))
                            (adiv (Nd146 i) (Nd144c_safe r)))))
             (np_log np (fdiv c145_9131 c143_9098))) (mask i).
Proof. reflexivity. Qed.

Lemma eq_Nd143_144_Corr :
  Nd143_144_Corr r =
  amul (amul (adiv (Nd143 i) (Nd144c_safe r))
             (spow np (fdiv c142_9098 c143_9098) (NdFract r))) (mask i).
Proof. reflexivity. Qed.

Lemma eq_Nd145_144_Corr :
  Nd145_144_Corr r =
  amul (amul (adiv (Nd145 i) (Nd144c_safe r))
             (spow np (fdiv c144_9126 c143_9098) (NdFract r))) (mask i).
Proof. reflexivity. Qed.

Lemma eq_Nd148_144_Corr :
  Nd148_144_Corr r =
  amul (amul (adiv (Nd148c r) (Nd144c_safe r))
             (spow np (fdiv c147_916889 c143_9098) (NdFract r))) (mask i).
Proof. reflexivity. Qed.

Lemma eq_Sm147_Nd144_Corr :
  Sm147_Nd144_Corr r = amul (adiv (Sm147 i) (Nd144c_safe r)) (mask i).
Proof. reflexivity. Qed.

Lemma eq_TotalNd : TotalNd r = amul (divs (Nd146 i) c0_172) (mask i).
Proof. reflexivity. Qed.

Lemma correction_engine_length n :
  aligned n i → length_engine n r ∧ length (Nd144c_safe r) = n.
Proof.
  intros (?&?&?&?&?&?&?&?).
  assert (length (SmFract r) = n)
    by (rewrite eq_SmFract; unfold measured_Sm147_149; alen).
  assert (length (Sm144 r) = n) by (rewrite eq_Sm144; alen).
  assert (length (Sm148 r) = n) by (rewrite eq_Sm148; alen).
  assert (length (Nd144c r) = n) by (rewrite eq_Nd144c; alen).
  assert (length (Nd148c r) = n) by (rewrite eq_Nd148c; alen).
  assert (length (Nd144c_safe r) = n) by (rewrite eq_Nd144c_safe; alen).
  assert (length (NdFract r) = n) by (rewrite eq_NdFract; alen).
  unfold length_engine. repeat apply conj; try done.
  - rewrite eq_Nd143_144_Corr; alen.
  - rewrite eq_Nd145_144_Corr; alen.
  - rewrite eq_Nd148_144_Corr; alen.
  - rewrite eq_Sm147_Nd144_Corr; alen.
  - rewrite eq_TotalNd; alen.
Qed.

End Engine_equations.

Lemma Forall_amul_mask (a m : array) :
  Forall (λ x, feq0 x = true) m →
  Forall (λ x, zero_or_nan x = true) (amul a m).
Proof.
  intros Hm. revert a. induction Hm as [|y m Hy _ IH]; intros [|x a];
    unfold amul; simpl; constructor; auto using fmul_zero_r.
Qed.

(** C8. With a mask that is zero at every sample, each masked product of the
    correction engine (SmFract, NdFract, the interfering Sm144 and Sm148,
    Nd144c, Nd148c, the four corrected ratios and TotalNd) has one sample
    per time point, and each sample is +0.0, -0.0 or NaN. *)
Theorem all_zero_mask_products np c inp n :
  aligned n inp →
  Forall (λ m, feq0 m = true) (mask inp) →
  length_engine n (correction_engine np c inp) ∧
  Forall_engine (λ x, zero_or_nan x = true) (correction_engine np c inp).
Proof.
  intros Hal Hm. split; [by apply correction_engine_length|].
  unfold Forall_engine.
  rewrite eq_SmFract, eq_NdFract, eq_Sm144, eq_Sm148, eq_Nd144c, eq_Nd148c,
    eq_Nd143_144_Corr, eq_Nd145_144_Corr, eq_Nd148_144_Corr,
    eq_Sm147_Nd144_Corr, eq_TotalNd.
  repeat apply conj; by apply Forall_amul_mask.
Qed.

Lemma all_zero_mask_products_witness :
  let inp := inputs_of (sample_host sample_groups [fzero; S754_zero true])
                       (default_settings "G_LREE") in
  length_engine 2
    (correction_engine numpy_special (default_settings "G_LREE") inp) ∧
  Forall_engine (λ x, zero_or_nan x = true)
    (correction_engine numpy_special (default_settings "G_LREE") inp).
Proof.
  apply (all_zero_mask_products numpy_special (default_settings "G_LREE")
           (inputs_of (sample_host sample_groups [fzero; S754_zero true])
                      (default_settings "G_LREE")) 2).
  - repeat apply conj; reflexivity.
  - repeat constructor.
Defined.

(** ** Claim C1: a zero denominator gives NaN *)

Section Zero_denominator.
Variable np : NumPy.
Variable c : Settings.
Variable inp : Inputs.
Variables (n i : nat).
Hypothesis log_nan : np_log np NaN = NaN.
Hypothesis power_nan : ∀ b, SFeqb b c1_0 = false → np_power np b NaN = NaN.
Hypothesis Haligned : aligned n inp.
Hypothesis Hi : i < n.

Let r := correction_engine np c inp.

Lemma fract_nan (s L : f64) (q : array) :
  q !! i = Some NaN →
  amul (divs (alog np (sdiv s q)) L) (mask inp) !! i = Some NaN.
Proof using log_nan Haligned Hi.
  intros Hq. destruct Haligned as (?&?&?&?&?&?&?&?).
  apply amul_nan_l; [|lia]. by apply divs_nan, alog_nan, sdiv_nan.
Qed.

Lemma corrected_nan (num fract : array) (b : f64) :
  Nd144c_safe r !! i = Some NaN → length num = n → length fract = n →
  amul (amul (adiv num (Nd144c_safe r)) (spow np b fract)) (mask inp) !! i
  = Some NaN.
Proof using Haligned Hi.
  intros Hs Hn Hf. destruct Haligned as (?&?&?&?&?&?&?&?).
  apply amul_nan_l; [|lia]. apply amul_nan_l; [|alen].
  apply adiv_nan_r; [done|lia].
Qed.

(** Everything that divides by [Nd144c_safe]. *)
Lemma downstream_of_Nd144c_safe :
  Nd144c_safe r !! i = Some NaN →
  nan_at i [NdFract r; Nd143_144_Corr r; Nd145_144_Corr r;
            Nd148_144_Corr r; Sm147_Nd144_Corr r].
Proof using log_nan Haligned Hi.
  intros Hs.
  destruct (correction_engine_length np c inp n Haligned)
    as ((?&?&?&?&?&?&?&?&?&?&?) & ?).
  pose proof Haligned as (?&?&?&?&?&?&?&?).
  repeat apply Forall_cons_2; [..|apply Forall_nil_2].
  - unfold r. rewrite eq_NdFract. apply fract_nan.
    apply where_nan_nan; [|alen]. apply adiv_nan_r; [done|lia].
  - unfold r. rewrite eq_Nd143_144_Corr. by apply corrected_nan.
  - unfold r. rewrite eq_Nd145_144_Corr. by apply corrected_nan.
  - unfold r. rewrite eq_Nd148_144_Corr. by apply corrected_nan.
  - unfold r. rewrite eq_Sm147_Nd144_Corr.
    apply amul_nan_l; [|lia]. apply adiv_nan_r; [done|lia].
Qed.

Lemma interference_nan (ratio b : f64) :
  SFeqb b c1_0 = false →
  SmFract r !! i = Some NaN →
  amul (amul (muls (Sm149 inp) ratio) (spow np b (SmFract r))) (mask inp) !! i
  = Some NaN.
Proof using power_nan Haligned Hi.
  intros Hb Hs. destruct Haligned as (?&?&?&?&?&?&?&?).
  apply amul_nan_l; [|lia]. apply amul_nan_r; [|alen].
  by apply spow_nan; [apply power_nan|].
Qed.

Lemma Sm149_zero_nan :
  feq0 <$> Sm149 inp !! i = Some true →
  nan_at i [measured_Sm147_149 inp; SmFract r; Sm144 r; Sm148 r;
            Nd144c r; Nd148c r; Nd144c_safe r; NdFract r;
            Nd143_144_Corr r; Nd145_144_Corr r; Nd148_144_Corr r;
            Sm147_Nd144_Corr r].
Proof using log_nan power_nan Haligned Hi.
  intros Hz. destruct (Sm149 inp !! i) as [z|] eqn:Hz149; [|done].
  injection Hz as Hz.
  destruct (correction_engine_length np c inp n Haligned)
    as ((?&?&?&?&?&?&?&?&?&?&?) & ?).
  pose proof Haligned as (?&?&?&?&?&?&?&?).
  assert (measured_Sm147_149 inp !! i = Some NaN) as Hmeas
    by (eapply guarded_zero; [done..|alen]).
  assert (SmFract r !! i = Some NaN) as HSmFract
    by (unfold r; rewrite eq_SmFract; by apply fract_nan).
  assert (Sm144 r !! i = Some NaN) as HSm144
    by (unfold r; rewrite eq_Sm144; by apply interference_nan).
  assert (Sm148 r !! i = Some NaN) as HSm148
    by (unfold r; rewrite eq_Sm148; by apply interference_nan).
  assert (Nd144c r !! i = Some NaN) as HNd144c.
  { unfold r. rewrite eq_Nd144c. apply amul_nan_l; [|lia].
    apply asub_nan_r; [done|lia]. }
  assert (Nd148c r !! i = Some NaN) as HNd148c.
  { unfold r. rewrite eq_Nd148c. apply amul_nan_l; [|lia].
    apply asub_nan_r; [done|lia]. }
  assert (Nd144c_safe r !! i = Some NaN) as Hsafe.
  { unfold r. rewrite eq_Nd144c_safe. apply where_nan_nan; [done|alen]. }
  repeat (apply Forall_cons_2; [done|]).
  by apply downstream_of_Nd144c_safe.
Qed.

Lemma Nd144c_zero_nan :
  feq0 <$> Nd144c r !! i = Some true →
  nan_at i [Nd144c_safe r; NdFract r; Nd143_144_Corr r; Nd145_144_Corr r;
            Nd148_144_Corr r; Sm147_Nd144_Corr r].
Proof using log_nan Haligned Hi.
  intros Hz. destruct (Nd144c r !! i) as [z|] eqn:Hz144; [|done].
  injection Hz as Hz.
  destruct (correction_engine_length np c inp n Haligned)
    as ((?&?&?&?&?&?&?&?&?&?&?) & ?).
  assert (Nd144c_safe r !! i = Some NaN) as Hsafe.
  { unfold r. rewrite eq_Nd144c_safe. eapply guarded_zero; [done..|lia]. }
  apply Forall_cons_2; [done|]. by apply downstream_of_Nd144c_safe.
Qed.

End Zero_denominator.

Lemma spline_zero_nan (raw spline : array) (std : f64) i :
  length raw = length spline →
  feq0 <$> spline !! i = Some true →
  ∃ q, std_quotient raw std spline = inr q ∧ length q = length raw ∧
       q !! i = Some NaN.
Proof.
  intros Hlen Hz. destruct (spline !! i) as [z|] eqn:Hs; [|done].
  injection Hz as Hz. apply lookup_lt_Some in Hs as Hi.
  unfold std_quotient, broadcast2. rewrite decide_True by alen.
  eexists; split; [done|]. split; [rewrite length_zip_with; alen|].
  apply zip_with_nan_r; [apply fdiv_nan_r| |alen].
  eapply guarded_zero; [done..|lia].
Qed.

(** C1. At a sample where a denominator is exactly zero (+0.0 or -0.0) the
    quotient and everything computed from it at that sample is NaN:
    (a) [Sm149 == 0]: the measured Sm147/Sm149 ratio, SmFract, Sm144, Sm148,
        Nd144c, Nd148c, the guarded Nd144c, NdFract and the four corrected
        ratios;
    (b) [Nd144c == 0]: the guarded divisor, NdFract and the four corrected
        ratios;
    (c) spline value [== 0]: the standardization quotient is computed
        without an exception and is NaN there.
    numpy's log maps NaN to NaN, and so does [b ** x] for a base other
    than 1. *)
Theorem zero_denominator_gives_nan np c inp n i raw std spline :
  np_log np NaN = NaN →
  (∀ b, SFeqb b c1_0 = false → np_power np b NaN = NaN) →
  aligned n inp → i < n →
  (feq0 <$> Sm149 inp !! i = Some true →
   nan_at i [measured_Sm147_149 inp;
             SmFract (correction_engine np c inp);
             Sm144 (correction_engine np c inp);
             Sm148 (correction_engine np c inp);
             Nd144c (correction_engine np c inp);
             Nd148c (correction_engine np c inp);
             Nd144c_safe (correction_engine np c inp);
             NdFract (correction_engine np c inp);
             Nd143_144_Corr (correction_engine np c inp);
             Nd145_144_Corr (correction_engine np c inp);
             Nd148_144_Corr (correction_engine np c inp);
             Sm147_Nd144_Corr (correction_engine np c inp)]) ∧
  (feq0 <$> Nd144c (correction_engine np c inp) !! i = Some true →
   nan_at i [Nd144c_safe (correction_engine np c inp);
             NdFract (correction_engine np c inp);
             Nd143_144_Corr (correction_engine np c inp);
             Nd145_144_Corr (correction_engine np c inp);
             Nd148_144_Corr (correction_engine np c inp);
             Sm147_Nd144_Corr (correction_engine np c inp)]) ∧
  (length raw = length spline → feq0 <$> spline !! i = Some true →
   ∃ q, std_quotient raw std spline = inr q ∧ length q = length raw ∧
        q !! i = Some NaN).
Proof.
  intros Hlog Hpow Hal Hi. split; [|split].
  - by apply (Sm149_zero_nan np c inp n i).
  - by apply (Nd144c_zero_nan np c inp n i).
  - apply spline_zero_nan.
Qed.

Lemma zero_denominator_gives_nan_witness :
  nan_at 0 [measured_Sm147_149 zero_inputs;
            SmFract (correction_engine numpy_special zero_settings zero_inputs);
            Sm144 (correction_engine numpy_special zero_settings zero_inputs);
            Sm148 (correction_engine numpy_special zero_settings zero_inputs);
            Nd144c (correction_engine numpy_special zero_settings zero_inputs);
            Nd148c (correction_engine numpy_special zero_settings zero_inputs);
            Nd144c_safe
              (correction_engine numpy_special zero_settings zero_inputs);
            NdFract (correction_engine numpy_special zero_settings zero_inputs);
            Nd143_144_Corr
              (correction_engine numpy_special zero_settings zero_inputs);
            Nd145_144_Corr
              (correction_engine numpy_special zero_settings zero_inputs);
            Nd148_144_Corr
              (correction_engine numpy_special zero_settings zero_inputs);
            Sm147_Nd144_Corr
              (correction_engine numpy_special zero_settings zero_inputs)] ∧
  nan_at 1 [Nd144c_safe
              (correction_engine numpy_special zero_settings zero_inputs);
            NdFract (correction_engine numpy_special zero_settings zero_inputs);
            Nd143_144_Corr
              (correction_engine numpy_special zero_settings zero_inputs);
            Nd145_144_Corr
              (correction_engine numpy_special zero_settings zero_inputs);
            Nd148_144_Corr
              (correction_engine numpy_special zero_settings zero_inputs);
            Sm147_Nd144_Corr
              (correction_engine numpy_special zero_settings zero_inputs)] ∧
  ∃ q, std_quotient [c600; c600] c0_512 [fzero; c600] = inr q ∧
       length q = 2 ∧ q !! 0 = Some NaN.
Proof.
  assert (∀ b, SFeqb b c1_0 = false → np_power numpy_special b NaN = NaN)
    as Hpow.
  { intros b Hb. simpl. unfold power_special. rewrite Hb. simpl.
    destruct (isnan b); reflexivity. }
  assert (aligned 2 zero_inputs) as Hal by (repeat apply conj; reflexivity).
  destruct (zero_denominator_gives_nan numpy_special zero_settings
              zero_inputs 2 0 [c600; c600] c0_512 [fzero; c600]
              eq_refl Hpow Hal) as (Ha & _ & Hc); [lia|].
  destruct (zero_denominator_gives_nan numpy_special zero_settings
              zero_inputs 2 1 [c600; c600] c0_512 [fzero; c600]
              eq_refl Hpow Hal) as (_ & Hb & _); [lia|].
  split; [apply Ha; reflexivity|].
  split; [apply Hb; vm_compute; reflexivity|].
  apply Hc; reflexivity.
Defined.

(** ** Running the effects *)

Lemma add_events_nil w : add_events [] w = w.
Proof. destruct w. unfold add_events; simpl. by rewrite app_nil_r. Qed.

Lemma add_events_app evs1 evs2 w :
  add_events evs2 (add_events evs1 w) = add_events (evs1 ++ evs2) w.
Proof. unfold add_events; simpl. by rewrite app_assoc. Qed.

Lemma bind_run {A B} (m : M A) (f : A → M B) w :
  (m ≫= f) w = f (m w).1 (m w).2.
Proof. unfold mbind, M_bind. by destruct (m w). Qed.

Lemma emit_run e w : emit e w = (tt, add_events [e] w).
Proof. done. Qed.

Lemma for_each_emit {A} (f : A → Event) (l : list A) w :
  for_each (λ x, emit (f x)) l w = (tt, add_events (f <$> l) w).
Proof.
  revert w. induction l as [|x l IH]; intros w; simpl.
  - by rewrite add_events_nil.
  - rewrite bind_run, emit_run; simpl. by rewrite IH, add_events_app.
Qed.

Lemma standardize_run h rm series key raw w :
  standardize h rm series key raw w =
  (std_value h (store w) rm series key raw,
   add_events (std_events h (store w) rm series key raw) w).
Proof.
  unfold standardize, std_value, std_events.
  rewrite bind_run; simpl. rewrite bind_run, emit_run; simpl.
  destruct (std_try h (store w) rm series key raw) as [e|v]; simpl.
  - unfold drs_message. rewrite bind_run, emit_run; simpl.
    by rewrite add_events_app.
  - done.
Qed.

Lemma rho_corr_run np h sel w :
  rho_corr_147Sm_143Nd np h sel w =
  (rho_value np h (store w) sel, add_events (rho_events np h (store w) sel) w).
Proof.
  unfold rho_corr_147Sm_143Nd, rho_value, rho_events.
  rewrite bind_run; simpl.
  destruct (rho_try np h (store w) sel) as [e|v]; simpl.
  - unfold drs_message. by rewrite bind_run, emit_run.
  - by rewrite add_events_nil.
Qed.

Lemma scan_rho_run np h groups w :
  scan_rho np h groups w =
  (scan_value np h (store w) groups,
   add_events (scan_events np h (store w) groups) w).
Proof.
  revert w. induction groups as [|sel rest IH]; intros w; simpl.
  - by rewrite add_events_nil.
  - case_decide; [|apply IH].
    rewrite bind_run, rho_corr_run; simpl.
    destruct (isnan (rho_value np h (store w) sel)); simpl.
    + by rewrite IH, add_events_app.
    + by rewrite app_nil_r.
Qed.

Lemma createTimeSeries_run name values w :
  data_createTimeSeries name values w =
  (tt, {| store := <[name := values]> (store w); settings := settings w;
          trace := trace w ++ [CreateTimeSeries name values] |}).
Proof. done. Qed.

(** [runDRS_reduce] produces the events and the store spelled out by
    [reduce_events] and [reduce_store], and leaves the settings alone. *)
Lemma reduce_run np v h s time rm w :
  runDRS_reduce np v h s time rm w =
  (tt, {| store := reduce_store np v h s time rm (store w);
          settings := settings w;
          trace := trace w ++ reduce_events np v h s time rm (store w) |}).
Proof.
  unfold runDRS_reduce, reduce_store, reduce_events, rho_series_events,
    first_rho_val_of, store_at_scan, later_outputs, raw_outputs,
    propagation_events, StdCorr_143Nd_144_of, StdCorr_147Sm_144_of,
    published.
  cbv zeta.
  change (correction_engine np s _) with (engine_of np h s).
  generalize (engine_of np h s). intros r.
  unfold drs_setIndexChannel, drs_baselineSubtract, drs_message,
    drs_progress, drs_finished, data_registerAssociatedResult,
    data_propagateErrors.
  destruct w as [st se tr].
  rewrite bind_run, emit_run; cbn [fst snd].
  rewrite bind_run, for_each_emit; cbn [fst snd].
  do 2 (rewrite bind_run, createTimeSeries_run;
        cbn [fst snd store settings trace add_events]).
  do 2 (rewrite bind_run, standardize_run;
        cbn [fst snd store settings trace add_events]).
  set (S143 := std_value h _ rm "Nd143_144_Corr" _ _).
  set (S147 := std_value h _ rm "Sm147_Nd144_Corr" _ _).
  set (E143 := std_events h _ rm "Nd143_144_Corr" _ _).
  set (E147 := std_events h _ rm "Sm147_Nd144_Corr" _ _).
  do 2 (rewrite bind_run, createTimeSeries_run;
        cbn [fst snd store settings trace add_events]).
  unfold emit, data_setData.
  destruct v, (PropagateError s);
    repeat (rewrite bind_run;
            first [rewrite createTimeSeries_run | rewrite scan_rho_run
                  | idtac];
            cbn [fst snd store settings trace add_events mret M_ret
                 store_all foldl app fmap list_fmap create]);
    match goal with
    | |- context [isnan ?x] => destruct (isnan x)
    end;
    cbn [negb fst snd store settings trace add_events mret M_ret];
    f_equal; f_equal;
    rewrite <- ?app_assoc; cbn [app]; reflexivity.
Qed.

(** ** The reference-material check *)

Lemma resolved_None h s :
  resolved h s = None ↔ selectionGroupNames h data_ReferenceMaterial = [].
Proof.
  unfold resolved. split.
  - repeat case_decide; try done. by destruct (selectionGroupNames _ _).
  - intros ->. rewrite decide_False, decide_False by apply not_elem_of_nil.
    done.
Qed.

(** A run that finds its reference material, or a fallback, is the
    reduction proper started after the check. *)
Lemma run_resolved np v h st s rm :
  resolved h s = Some rm →
  run np v h st s =
  (runDRS_reduce np v h s (time_of h s) rm
     (after_resolution v st s
        (bool_decide (ReferenceMaterial s ∉
                      selectionGroupNames h data_ReferenceMaterial)) rm)).2.
Proof.
  unfold resolved, run, runDRS, initial, use_fallback, after_resolution,
    time_of, drs_message, drs_progress, drs_settings,
    drs_setSetting_ReferenceMaterial, emit.
  intros Hrm. rewrite !bind_run; cbn [fst snd store settings trace app].
  destruct (decide (ReferenceMaterial s ∈ _)) as [Hin|Hin].
  - injection Hrm as <-. rewrite decide_False by (by intros ?).
    rewrite bool_decide_false by (by intros ?). done.
  - rewrite decide_True, bool_decide_true by done.
    destruct (decide ("G_LREE" ∈ _)) as [HG|HG].
    + injection Hrm as <-.
      rewrite !bind_run; cbn [fst snd store settings trace app].
      by destruct v.
    + destruct (selectionGroupNames h data_ReferenceMaterial)
        as [|first rest]; [done|]. injection Hrm as <-.
      rewrite !bind_run; cbn [fst snd store settings trace app].
      by destruct v.
Qed.

(** Without any reference-material group the run stops after the check. *)
Lemma run_aborted np v h st s :
  resolved h s = None →
  run np v h st s =
  {| store := st; settings := s;
     trace := [Message (start_message v); Progress 0;
               Message (error_message v); Finished] |}.
Proof.
  intros Hnil%resolved_None.
  unfold run, runDRS, initial, drs_message, drs_progress, drs_settings,
    drs_finished, emit.
  rewrite !bind_run; cbn [fst snd store settings trace app].
  rewrite Hnil. rewrite decide_True, decide_False by apply not_elem_of_nil.
  rewrite !bind_run; cbn [fst snd store settings trace app].
  by destruct v.
Qed.

(** The trace, the store and the settings of a run that is not aborted. *)
Lemma run_resolved_world np v h st s rm :
  resolved h s = Some rm →
  run np v h st s =
  {| store := reduce_store np v h s (time_of h s) rm st;
     settings :=
       settings (after_resolution v st s
         (bool_decide (ReferenceMaterial s ∉
                       selectionGroupNames h data_ReferenceMaterial)) rm);
     trace :=
       trace (after_resolution v st s
         (bool_decide (ReferenceMaterial s ∉
                       selectionGroupNames h data_ReferenceMaterial)) rm) ++
       reduce_events np v h s (time_of h s) rm st |}.
Proof.
  intros Hrm. rewrite (run_resolved np v h st s rm Hrm), reduce_run.
  unfold after_resolution. by case_bool_decide.
Qed.

(** ** Observations on the events of a reduction *)

Lemma created_app l k : created (l ++ k) = created l ++ created k.
Proof. apply omap_app. Qed.

Lemma created_silent l : Forall (λ e, silent e = true) l → created l = [].
Proof. induction 1 as [|[] l He _ IH]; try done. Qed.

Lemma created_create l : created (create <$> l) = l.
Proof.
  induction l as [|[n a] l IH]; [done|].
  transitivity ((n, a) :: created (create <$> l)); [done|by rewrite IH].
Qed.

Lemma propagations_app l k :
  propagations (l ++ k) = propagations l ++ propagations k.
Proof. apply filter_app. Qed.

Lemma propagations_silent l :
  Forall (λ e, silent e = true) l → propagations l = [].
Proof. induction 1 as [|[] l He _ IH]; try done. Qed.

Lemma propagations_create l : propagations (create <$> l) = [].
Proof. by induction l as [|[n a] l IH]. Qed.

Lemma settings_writes_app l k :
  settings_writes (l ++ k) = settings_writes l ++ settings_writes k.
Proof. apply filter_app. Qed.

Lemma settings_writes_silent l :
  Forall (λ e, silent e = true) l → settings_writes l = [].
Proof. induction 1 as [|[] l He _ IH]; try done. Qed.

Lemma settings_writes_create l : settings_writes (create <$> l) = [].
Proof. by induction l as [|[n a] l IH]. Qed.

Lemma silent_baseline g (l : list string) :
  Forall (λ e, silent e = true) (BaselineSubtract g <$> l).
Proof. induction l; by constructor. Qed.

Lemma silent_std_events h st rm series key raw :
  Forall (λ e, silent e = true) (std_events h st rm series key raw).
Proof.
  unfold std_events. destruct (std_try _ _ _ _ _ _); by repeat constructor.
Qed.

Lemma silent_rho_events np h st sel :
  Forall (λ e, silent e = true) (rho_events np h st sel).
Proof.
  unfold rho_events. destruct (rho_try _ _ _ _); by repeat constructor.
Qed.

Lemma silent_scan_events np h st groups :
  Forall (λ e, silent e = true) (scan_events np h st groups).
Proof.
  induction groups as [|sel rest IH]; simpl; [constructor|].
  case_decide; [|done]. apply Forall_app; split; [apply silent_rho_events|].
  by destruct (negb _).
Qed.

Create HintDb silent.
#[local] Hint Resolve silent_baseline silent_std_events silent_rho_events
  silent_scan_events : silent.

(** The series created by the reduction proper. *)
Lemma created_reduce_events np v h s time rm st :
  created (reduce_events np v h s time rm st) =
  raw_outputs np h s ++ later_outputs np v h s st rm ++
  [("rho", full_like time NaN)].
Proof.
  unfold reduce_events, rho_series_events.
  rewrite !created_app, !created_create.
  rewrite !created_silent by auto with silent.
  assert (created (propagation_events v h s rm) = []) as ->
    by (unfold propagation_events; by destruct v, (PropagateError s)).
  assert (∀ (b : bool) e, created (if b then [SetData "rho" e] else []) = [])
    as -> by (by intros []).
  by rewrite (created_silent (scan_events _ _ _ _)) by auto with silent.
Qed.

Lemma created_after_resolution v st s b rm :
  created (trace (after_resolution v st s b rm)) = [].
Proof. by destruct b. Qed.

Lemma created_run np v h st s rm :
  resolved h s = Some rm →
  created (trace (run np v h st s)) =
  raw_outputs np h s ++ later_outputs np v h s st rm ++
  [("rho", full_like (time_of h s) NaN)].
Proof.
  intros Hrm. rewrite (run_resolved_world np v h st s rm Hrm); simpl.
  by rewrite created_app, created_after_resolution, created_reduce_events.
Qed.

(** ** Claim C7: the order in which the output series are created *)

(** C7 (as amended). In a run that settles on a reference material, v4.9
    creates exactly ten series, in this order: Nd143_144_Corr,
    Sm147_Nd144_Corr, StdCorr_147Sm_144, StdCorr_143Nd_144, Nd145_144_Corr,
    Nd148_144_Corr, NdFract, SmFract, TotalNd, rho (all NaN).  v4.8 creates
    the same sequence with one more creation: Nd143_144_Corr is created a
    second time, with the same values, between StdCorr_143Nd_144 and
    Nd145_144_Corr. *)
Theorem output_series_order np h st s rm :
  resolved h s = Some rm →
  created (trace (run np v4_9 h st s)) =
    [("Nd143_144_Corr", Nd143_144_Corr (engine_of np h s));
     ("Sm147_Nd144_Corr", Sm147_Nd144_Corr (engine_of np h s));
     ("StdCorr_147Sm_144", StdCorr_147Sm_144_of np h s st rm);
     ("StdCorr_143Nd_144", StdCorr_143Nd_144_of np h s st rm);
     ("Nd145_144_Corr", Nd145_144_Corr (engine_of np h s));
     ("Nd148_144_Corr", Nd148_144_Corr (engine_of np h s));
     ("NdFract", NdFract (engine_of np h s));
     ("SmFract", SmFract (engine_of np h s));
     ("TotalNd", TotalNd (engine_of np h s));
     ("rho", full_like (time_of h s) NaN)] ∧
  created (trace (run np v4_8 h st s)) =
    [("Nd143_144_Corr", Nd143_144_Corr (engine_of np h s));
     ("Sm147_Nd144_Corr", Sm147_Nd144_Corr (engine_of np h s));
     ("StdCorr_147Sm_144", StdCorr_147Sm_144_of np h s st rm);
     ("StdCorr_143Nd_144", StdCorr_143Nd_144_of np h s st rm);
     ("Nd143_144_Corr", Nd143_144_Corr (engine_of np h s));
     ("Nd145_144_Corr", Nd145_144_Corr (engine_of np h s));
     ("Nd148_144_Corr", Nd148_144_Corr (engine_of np h s));
     ("NdFract", NdFract (engine_of np h s));
     ("SmFract", SmFract (engine_of np h s));
     ("TotalNd", TotalNd (engine_of np h s));
     ("rho", full_like (time_of h s) NaN)].
Proof.
  intros Hrm. split; by rewrite (created_run _ _ _ _ _ rm Hrm).
Qed.

Lemma output_series_order_witness :
  (created (trace (run numpy_special v4_9 sample_run_host ∅
                       (default_settings "G_LREE")))).*1 =
    ["Nd143_144_Corr"; "Sm147_Nd144_Corr"; "StdCorr_147Sm_144";
     "StdCorr_143Nd_144"; "Nd145_144_Corr"; "Nd148_144_Corr"; "NdFract";
     "SmFract"; "TotalNd"; "rho"] ∧
  (created (trace (run numpy_special v4_8 sample_run_host ∅
                       (default_settings "G_LREE")))).*1 =
    ["Nd143_144_Corr"; "Sm147_Nd144_Corr"; "StdCorr_147Sm_144";
     "StdCorr_143Nd_144"; "Nd143_144_Corr"; "Nd145_144_Corr";
     "Nd148_144_Corr"; "NdFract"; "SmFract"; "TotalNd"; "rho"].
Proof.
  destruct (output_series_order numpy_special sample_run_host ∅
              (default_settings "G_LREE") "G_LREE" eq_refl) as [H9 H8].
  rewrite H9, H8. split; reflexivity.
Defined.

(** v4.8 does not create the ten series of the claim in the claimed order
    with nothing in between: it creates eleven. *)
Lemma output_series_order_v4_8_counterexample :
  (created (trace (run numpy_special v4_8 sample_run_host ∅
                       (default_settings "G_LREE")))).*1 ≠
    ["Nd143_144_Corr"; "Sm147_Nd144_Corr"; "StdCorr_147Sm_144";
     "StdCorr_143Nd_144"; "Nd145_144_Corr"; "Nd148_144_Corr"; "NdFract";
     "SmFract"; "TotalNd"; "rho"].
Proof. vm_compute. discriminate. Qed.

(** ** Claim C2: the calls of the error propagation *)

Lemma propagations_reduce_events np v h s time rm st :
  propagations (reduce_events np v h s time rm st) =
  propagations (propagation_events v h s rm).
Proof.
  unfold reduce_events, rho_series_events.
  rewrite !propagations_app, !propagations_create.
  rewrite (propagations_silent (_ <$> _)) by auto with silent.
  rewrite !(propagations_silent (std_events _ _ _ _ _ _)) by auto with silent.
  rewrite (propagations_silent (scan_events _ _ _ _)) by auto with silent.
  assert (∀ (b : bool) e,
    propagations (if b then [SetData "rho" e] else []) = [])
    as -> by (by intros []).
  simpl. by rewrite app_nil_r.
Qed.

Lemma propagations_run np v h st s rm :
  resolved h s = Some rm →
  propagations (trace (run np v h st s)) =
  propagations (propagation_events v h s rm).
Proof.
  intros Hrm. rewrite (run_resolved_world np v h st s rm Hrm); simpl.
  rewrite propagations_app, propagations_reduce_events.
  by case_bool_decide.
Qed.

(** C2 (as amended). In v4.8, when the propagate-errors setting is enabled
    and the run settles on a reference material [rm], the error-propagation
    routine is called exactly twice, both times with the selection groups
    whose type is not Baseline: first for StdCorr_143Nd_144 with
    Nd143_144_Corr and [rm], then for StdCorr_147Sm_144 with Sm147_Nd144_Corr
    and [rm].  v4.9 never calls the routine. *)
Theorem error_propagation_calls np h st s rm :
  PropagateError s = true →
  resolved h s = Some rm →
  propagations (trace (run np v4_8 h st s)) =
    [PropagateErrors
       (filter (λ g, g_type g ≠ data_Baseline) (selectionGroupList h))
       "StdCorr_143Nd_144" "Nd143_144_Corr" rm;
     PropagateErrors
       (filter (λ g, g_type g ≠ data_Baseline) (selectionGroupList h))
       "StdCorr_147Sm_144" "Sm147_Nd144_Corr" rm] ∧
  propagations (trace (run np v4_9 h st s)) = [].
Proof.
  intros Hflag Hrm. rewrite !(propagations_run _ _ _ _ _ rm Hrm).
  unfold propagation_events. by rewrite Hflag.
Qed.

Lemma error_propagation_calls_witness :
  propagations (trace (run numpy_special v4_8 sample_run_host ∅
                           (default_settings "G_LREE"))) =
    [PropagateErrors
       [ {| g_name := "G_LREE"; g_type := data_ReferenceMaterial |};
         {| g_name := "Monazite"; g_type := data_Sample |} ]
       "StdCorr_143Nd_144" "Nd143_144_Corr" "G_LREE";
     PropagateErrors
       [ {| g_name := "G_LREE"; g_type := data_ReferenceMaterial |};
         {| g_name := "Monazite"; g_type := data_Sample |} ]
       "StdCorr_147Sm_144" "Sm147_Nd144_Corr" "G_LREE"] ∧
  propagations (trace (run numpy_special v4_9 sample_run_host ∅
                           (default_settings "G_LREE"))) = [].
Proof.
  exact (error_propagation_calls numpy_special sample_run_host ∅
           (default_settings "G_LREE") "G_LREE" eq_refl eq_refl).
Defined.

(** With the setting enabled the routine is not called at all: by v4.8 when
    there is no reference-material group (the run stops at the check), and
    by v4.9 on any input. *)
Lemma error_propagation_counterexample :
  PropagateError (default_settings "G_LREE") = true ∧
  propagations (trace (run numpy_special v4_8 (sample_host [] [c1_0; c1_0]) ∅
                           (default_settings "G_LREE"))) = [] ∧
  propagations (trace (run numpy_special v4_9 sample_run_host ∅
                           (default_settings "G_LREE"))) = [].
Proof. vm_compute. done. Qed.

(** ** Claim C3: which reference material a run uses *)

Lemma settings_writes_reduce_events np v h s time rm st :
  settings_writes (reduce_events np v h s time rm st) = [].
Proof.
  unfold reduce_events, rho_series_events.
  rewrite !settings_writes_app, !settings_writes_create.
  rewrite (settings_writes_silent (_ <$> _)) by auto with silent.
  rewrite !(settings_writes_silent (std_events _ _ _ _ _ _))
    by auto with silent.
  rewrite (settings_writes_silent (scan_events _ _ _ _)) by auto with silent.
  assert (∀ (b : bool) e,
    settings_writes (if b then [SetData "rho" e] else []) = [])
    as -> by (by intros []).
  assert (settings_writes (propagation_events v h s rm) = []) as ->
    by (unfold propagation_events; by destruct v, (PropagateError s)).
  done.
Qed.

Lemma resolved_configured h s :
  ReferenceMaterial s ∈ selectionGroupNames h data_ReferenceMaterial →
  resolved h s = Some (ReferenceMaterial s).
Proof. intros Hin. unfold resolved. by rewrite decide_True. Qed.

Lemma resolved_G_LREE h s :
  ReferenceMaterial s ∉ selectionGroupNames h data_ReferenceMaterial →
  "G_LREE" ∈ selectionGroupNames h data_ReferenceMaterial →
  resolved h s = Some "G_LREE".
Proof.
  intros Hout HG. unfold resolved. by rewrite decide_False, decide_True.
Qed.

Lemma resolved_first h s first rest :
  ReferenceMaterial s ∉ selectionGroupNames h data_ReferenceMaterial →
  "G_LREE" ∉ selectionGroupNames h data_ReferenceMaterial →
  selectionGroupNames h data_ReferenceMaterial = first :: rest →
  resolved h s = Some first.
Proof.
  intros Hout HG Hl. unfold resolved. rewrite !decide_False by done.
  by rewrite Hl.
Qed.

(** A run that takes the fallback [rm]: the reduction runs with [rm], the
    name is written to the settings, and that is the only settings write. *)
Lemma run_fallback np v h st s rm :
  ReferenceMaterial s ∉ selectionGroupNames h data_ReferenceMaterial →
  resolved h s = Some rm →
  run np v h st s =
    (runDRS_reduce np v h s (time_of h s) rm
       (after_resolution v st s true rm)).2 ∧
  settings (run np v h st s) = set_ReferenceMaterial rm s ∧
  settings_writes (trace (run np v h st s)) =
    [SetSetting "ReferenceMaterial" rm].
Proof.
  intros Hout Hrm. split; [|split].
  - rewrite (run_resolved np v h st s rm Hrm).
    by rewrite bool_decide_true.
  - rewrite (run_resolved_world np v h st s rm Hrm); simpl.
    by rewrite bool_decide_true.
  - rewrite (run_resolved_world np v h st s rm Hrm).
    rewrite bool_decide_true by done. cbn [trace].
    by rewrite settings_writes_app, settings_writes_reduce_events.
Qed.

(** C3. The reference material of a run:
    - a configured name that is among the reference-material group names is
      used as it is, and the settings are not written;
    - otherwise "G_LREE" is used if it is among them;
    - otherwise the first name is used if there is one;
    - in both fallback cases the chosen name is written to the settings (and
      nothing else is);
    - if there is no reference-material group, the run emits the error
      message, signals completion and returns: it creates no series and
      leaves store and settings as they were. *)
Theorem reference_material_resolution np v h st s :
  (ReferenceMaterial s ∈ selectionGroupNames h data_ReferenceMaterial →
   run np v h st s =
     (runDRS_reduce np v h s (time_of h s) (ReferenceMaterial s)
        (after_resolution v st s false (ReferenceMaterial s))).2 ∧
   settings (run np v h st s) = s ∧
   settings_writes (trace (run np v h st s)) = []) ∧
  (ReferenceMaterial s ∉ selectionGroupNames h data_ReferenceMaterial →
   "G_LREE" ∈ selectionGroupNames h data_ReferenceMaterial →
   run np v h st s =
     (runDRS_reduce np v h s (time_of h s) "G_LREE"
        (after_resolution v st s true "G_LREE")).2 ∧
   settings (run np v h st s) = set_ReferenceMaterial "G_LREE" s ∧
   settings_writes (trace (run np v h st s)) =
     [SetSetting "ReferenceMaterial" "G_LREE"]) ∧
  (∀ first rest,
   ReferenceMaterial s ∉ selectionGroupNames h data_ReferenceMaterial →
   "G_LREE" ∉ selectionGroupNames h data_ReferenceMaterial →
   selectionGroupNames h data_ReferenceMaterial = first :: rest →
   run np v h st s =
     (runDRS_reduce np v h s (time_of h s) first
        (after_resolution v st s true first)).2 ∧
   settings (run np v h st s) = set_ReferenceMaterial first s ∧
   settings_writes (trace (run np v h st s)) =
     [SetSetting "ReferenceMaterial" first]) ∧
  (selectionGroupNames h data_ReferenceMaterial = [] →
   run np v h st s =
     {| store := st; settings := s;
        trace := [Message (start_message v); Progress 0;
                  Message (error_message v); Finished] |} ∧
   created (trace (run np v h st s)) = []).
Proof.
  repeat apply conj.
  - intros Hin. pose proof (resolved_configured h s Hin) as Hrm.
    assert (bool_decide (ReferenceMaterial s ∉
              selectionGroupNames h data_ReferenceMaterial) = false) as Hb
      by (apply bool_decide_false; by intros ?).
    split; [|split].
    + by rewrite (run_resolved np v h st s _ Hrm), Hb.
    + by rewrite (run_resolved_world np v h st s _ Hrm), Hb.
    + rewrite (run_resolved_world np v h st s _ Hrm), Hb.
      cbn [trace]. by rewrite settings_writes_app,
        settings_writes_reduce_events.
  - intros Hout HG. apply run_fallback; [done|by apply resolved_G_LREE].
  - intros first rest Hout HG Hl. apply run_fallback; [done|].
    by eapply resolved_first.
  - intros Hnil. apply (resolved_None h s) in Hnil.
    rewrite (run_aborted np v h st s Hnil).
    by split.
Qed.

Lemma reference_material_resolution_witness :
  (* configured name present *)
  settings (run numpy_special v4_9 sample_run_host ∅
                (default_settings "G_LREE")) = default_settings "G_LREE" ∧
  (* configured name absent, G_LREE present *)
  settings (run numpy_special v4_9 sample_run_host ∅
                (default_settings "BHVO")) =
    set_ReferenceMaterial "G_LREE" (default_settings "BHVO") ∧
  (* configured name and G_LREE absent *)
  settings (run numpy_special v4_8
                (sample_host
                   [ {| g_name := "NIST610";
                        g_type := data_ReferenceMaterial |} ] [c1_0; c1_0])
                ∅ (default_settings "BHVO")) =
    set_ReferenceMaterial "NIST610" (default_settings "BHVO") ∧
  (* no reference material *)
  run numpy_special v4_9 (sample_host [] [c1_0; c1_0]) ∅
      (default_settings "G_LREE") =
    {| store := ∅; settings := default_settings "G_LREE";
       trace := [Message "Running Sm-Nd Isotopes_UWA_v4.9..."; Progress 0;
                 Message "Error: No reference material available.";
                 Finished] |}.
Proof.
  destruct (reference_material_resolution numpy_special v4_9 sample_run_host
              ∅ (default_settings "G_LREE")) as (H1 & _).
  destruct (reference_material_resolution numpy_special v4_9 sample_run_host
              ∅ (default_settings "BHVO")) as (_ & H2 & _).
  destruct (reference_material_resolution numpy_special v4_8
              (sample_host
                 [ {| g_name := "NIST610";
                      g_type := data_ReferenceMaterial |} ] [c1_0; c1_0])
              ∅ (default_settings "BHVO")) as (_ & _ & H3 & _).
  destruct (reference_material_resolution numpy_special v4_9
              (sample_host [] [c1_0; c1_0]) ∅ (default_settings "G_LREE"))
    as (_ & _ & _ & H4).
  repeat apply conj.
  - apply H1. apply (bool_decide_unpack _). vm_compute. exact I.
  - apply H2; apply (bool_decide_unpack _); vm_compute; exact I.
  - apply (H3 "NIST610" []);
      [apply (bool_decide_unpack _); vm_compute; exact I..|reflexivity].
  - apply H4. reflexivity.
Defined.

(** ** Claim C9: created series are not written again *)

Lemma overwrites_quiet seen l k :
  Forall (λ e, written e = None) l →
  overwrites seen (l ++ k) = overwrites seen k.
Proof. induction 1 as [|e l He _ IH]; [done|]. simpl. by rewrite He. Qed.

Lemma silent_quiet l :
  Forall (λ e, silent e = true) l → Forall (λ e, written e = None) l.
Proof. intros H. eapply Forall_impl; [done|]. by intros []. Qed.

Lemma quiet_propagation_events v h s rm :
  Forall (λ e, written e = None) (propagation_events v h s rm).
Proof.
  unfold propagation_events.
  destruct v, (PropagateError s); by repeat constructor.
Qed.

Lemma quiet_after_resolution v st s b rm :
  Forall (λ e, written e = None) (trace (after_resolution v st s b rm)).
Proof. destruct b; by repeat constructor. Qed.

Lemma overwrites_new seen name values k :
  bool_decide (name ∈ seen) = false →
  overwrites seen (CreateTimeSeries name values :: k) =
  overwrites (name :: seen) k.
Proof. intros H%bool_decide_eq_false. simpl. by rewrite decide_False. Qed.

Lemma overwrites_again seen name values k :
  bool_decide (name ∈ seen) = true →
  overwrites seen (CreateTimeSeries name values :: k) =
  CreateTimeSeries name values :: overwrites seen k.
Proof. intros H%bool_decide_eq_true. simpl. by rewrite decide_True. Qed.

Lemma overwrites_set seen name values k :
  bool_decide (name ∈ seen) = true →
  overwrites seen (SetData name values :: k) =
  SetData name values :: overwrites seen k.
Proof. intros H%bool_decide_eq_true. simpl. by rewrite decide_True. Qed.

(** The overwrites of the reduction proper: the update of rho when a rho was
    found and, in v4.8, the second creation of Nd143_144_Corr. *)
Lemma overwrites_reduce_events np v h s time rm st :
  overwrites [] (reduce_events np v h s time rm st) =
  match v with
  | v4_8 => [CreateTimeSeries "Nd143_144_Corr"
               (Nd143_144_Corr (engine_of np h s))]
  | v4_9 => []
  end ++
  (if negb (isnan (first_rho_val_of np v h s time rm st))
   then [SetData "rho"
           (full_like time (first_rho_val_of np v h s time rm st))]
   else []).
Proof.
  unfold reduce_events, rho_series_events.
  assert (create <$> raw_outputs np h s =
          [CreateTimeSeries "Nd143_144_Corr"
             (Nd143_144_Corr (engine_of np h s));
           CreateTimeSeries "Sm147_Nd144_Corr"
             (Sm147_Nd144_Corr (engine_of np h s))]) as -> by done.
  cbn [app].
  change (overwrites [] (SetIndexChannel ?c :: ?k)) with (overwrites [] k).
  rewrite overwrites_quiet by (apply silent_quiet; auto with silent).
  do 2 rewrite overwrites_new by done.
  do 2 rewrite overwrites_quiet by (apply silent_quiet; auto with silent).
  destruct v.
  - assert (create <$> later_outputs np v4_8 h s st rm =
      [CreateTimeSeries "StdCorr_147Sm_144"
         (StdCorr_147Sm_144_of np h s st rm);
       CreateTimeSeries "StdCorr_143Nd_144"
         (StdCorr_143Nd_144_of np h s st rm);
       CreateTimeSeries "Nd143_144_Corr" (Nd143_144_Corr (engine_of np h s));
       CreateTimeSeries "Nd145_144_Corr" (Nd145_144_Corr (engine_of np h s));
       CreateTimeSeries "Nd148_144_Corr" (Nd148_144_Corr (engine_of np h s));
       CreateTimeSeries "NdFract" (NdFract (engine_of np h s));
       CreateTimeSeries "SmFract" (SmFract (engine_of np h s));
       CreateTimeSeries "TotalNd" (TotalNd (engine_of np h s))]) as ->
      by done.
    cbn [app]. do 2 rewrite overwrites_new by done.
    rewrite overwrites_again by done. f_equal.
    do 5 rewrite overwrites_new by done.
    rewrite overwrites_quiet by apply quiet_propagation_events.
    change (overwrites ?l (RegisterAssociatedResult ?c :: ?k))
      with (overwrites l k).
    rewrite overwrites_new by done.
    rewrite <- app_assoc.
    rewrite overwrites_quiet by (apply silent_quiet; auto with silent).
    destruct (negb _); [|done]. cbn [app].
    by rewrite overwrites_set by done.
  - assert (create <$> later_outputs np v4_9 h s st rm =
      [CreateTimeSeries "StdCorr_147Sm_144"
         (StdCorr_147Sm_144_of np h s st rm);
       CreateTimeSeries "StdCorr_143Nd_144"
         (StdCorr_143Nd_144_of np h s st rm);
       CreateTimeSeries "Nd145_144_Corr" (Nd145_144_Corr (engine_of np h s));
       CreateTimeSeries "Nd148_144_Corr" (Nd148_144_Corr (engine_of np h s));
       CreateTimeSeries "NdFract" (NdFract (engine_of np h s));
       CreateTimeSeries "SmFract" (SmFract (engine_of np h s));
       CreateTimeSeries "TotalNd" (TotalNd (engine_of np h s))]) as ->
      by done.
    cbn [app]. do 7 rewrite overwrites_new by done.
    rewrite overwrites_quiet by apply quiet_propagation_events.
    change (overwrites ?l (RegisterAssociatedResult ?c :: ?k))
      with (overwrites l k).
    rewrite overwrites_new by done.
    rewrite <- app_assoc.
    rewrite overwrites_quiet by (apply silent_quiet; auto with silent).
    destruct (negb _); [|done]. cbn [app].
    by rewrite overwrites_set by done.
Qed.

Lemma overwrites_run np v h st s rm :
  resolved h s = Some rm →
  overwrites [] (trace (run np v h st s)) =
  overwrites [] (reduce_events np v h s (time_of h s) rm st).
Proof.
  intros Hrm. rewrite (run_resolved_world np v h st s rm Hrm). cbn [trace].
  by rewrite overwrites_quiet by apply quiet_after_resolution.
Qed.

(** C9 (as amended). In a run that settles on a reference material:
    - v4.9 writes no series a second time, except that the rho series, which
      is created all NaN, is overwritten wholesale with one constant value
      when a rho that is not NaN was found;
    - v4.8 does the same and, in addition, creates Nd143_144_Corr a second
      time, with the values of the first creation, so that the content of no
      series other than rho ever changes. *)
Theorem series_written_once np h st s rm :
  resolved h s = Some rm →
  overwrites [] (trace (run np v4_9 h st s)) =
    (if negb (isnan (first_rho_val_of np v4_9 h s (time_of h s) rm st))
     then [SetData "rho"
             (full_like (time_of h s)
                (first_rho_val_of np v4_9 h s (time_of h s) rm st))]
     else []) ∧
  overwrites [] (trace (run np v4_8 h st s)) =
    CreateTimeSeries "Nd143_144_Corr" (Nd143_144_Corr (engine_of np h s)) ::
    (if negb (isnan (first_rho_val_of np v4_8 h s (time_of h s) rm st))
     then [SetData "rho"
             (full_like (time_of h s)
                (first_rho_val_of np v4_8 h s (time_of h s) rm st))]
     else []) ∧
  (∀ v, head (created (trace (run np v h st s))) =
          Some ("Nd143_144_Corr", Nd143_144_Corr (engine_of np h s)) ∧
        last (created (trace (run np v h st s))) =
          Some ("rho", full_like (time_of h s) NaN)).
Proof.
  intros Hrm. rewrite !(overwrites_run _ _ _ _ _ rm Hrm).
  rewrite !overwrites_reduce_events. repeat apply conj; try done.
  intros v. rewrite (created_run _ _ _ _ _ rm Hrm). split; [done|].
  by rewrite app_assoc, last_snoc.
Qed.

Lemma series_written_once_witness :
  overwrites [] (trace (run numpy_special v4_9 sample_run_host ∅
                            (default_settings "G_LREE"))) = [] ∧
  written <$> overwrites [] (trace (run numpy_special v4_8 sample_run_host ∅
                                        (default_settings "G_LREE"))) =
    [Some "Nd143_144_Corr"].
Proof.
  destruct (series_written_once numpy_special sample_run_host ∅
              (default_settings "G_LREE") "G_LREE" eq_refl) as (H9 & H8 & _).
  rewrite H9, H8. split; vm_compute; reflexivity.
Defined.

(** v4.8 writes a series it has created that is not rho. *)
Lemma series_written_once_v4_8_counterexample :
  written <$> overwrites [] (trace (run numpy_special v4_8 sample_run_host ∅
                                        (default_settings "G_LREE"))) =
    [Some "Nd143_144_Corr"].
Proof. vm_compute. reflexivity. Qed.

(** ** Claim C10: the flat rho series *)

Section Scan.
Variable np : NumPy.
Variable h : Host.
Variable st : Store.

(** No group gives a rho: the loop ends with NaN. *)
Lemma scan_value_all_nan groups :
  (∀ g, g ∈ groups → g_type g ≠ data_Baseline →
        isnan (rho_value np h st g) = true) →
  scan_value np h st groups = NaN.
Proof.
  induction groups as [|sel rest IH]; intros Hall; simpl; [done|].
  case_decide as Hty.
  - rewrite (Hall sel) by (done || constructor); simpl.
    apply IH. intros g Hg. apply Hall. by constructor.
  - apply IH. intros g Hg. apply Hall. by constructor.
Qed.

(** The first group that gives a rho decides the value, and the groups after
    it contribute nothing. *)
Lemma scan_first pre g post :
  g_type g ≠ data_Baseline →
  isnan (rho_value np h st g) = false →
  (∀ g', g' ∈ pre → g_type g' ≠ data_Baseline →
         isnan (rho_value np h st g') = true) →
  scan_value np h st (pre ++ g :: post) = rho_value np h st g ∧
  scan_events np h st (pre ++ g :: post) = scan_events np h st (pre ++ [g]).
Proof.
  intros Hty Hv. induction pre as [|sel pre IH]; intros Hpre; simpl.
  - rewrite !decide_True by done. by rewrite Hv.
  - destruct IH as [IHv IHe].
    { intros g' Hg'. apply Hpre. by constructor. }
    case_decide as Hsel; [|done].
    rewrite (Hpre sel) by (done || constructor); simpl.
    by rewrite IHv, IHe.
Qed.

End Scan.

Lemma updates_app l k : updates (l ++ k) = updates l ++ updates k.
Proof. apply filter_app. Qed.

Lemma updates_silent l : Forall (λ e, silent e = true) l → updates l = [].
Proof. induction 1 as [|[] l He _ IH]; try done. Qed.

Lemma updates_create l : updates (create <$> l) = [].
Proof. by induction l as [|[n a] l IH]. Qed.

Lemma updates_reduce_events np v h s time rm st :
  updates (reduce_events np v h s time rm st) =
  if negb (isnan (first_rho_val_of np v h s time rm st))
  then [SetData "rho"
          (full_like time (first_rho_val_of np v h s time rm st))]
  else [].
Proof.
  unfold reduce_events, rho_series_events.
  rewrite !updates_app, !updates_create.
  rewrite (updates_silent (_ <$> _)) by auto with silent.
  rewrite !(updates_silent (std_events _ _ _ _ _ _)) by auto with silent.
  rewrite (updates_silent (scan_events _ _ _ _)) by auto with silent.
  assert (updates (propagation_events v h s rm) = []) as ->
    by (unfold propagation_events; by destruct v, (PropagateError s)).
  by destruct (negb _).
Qed.

Lemma updates_run np v h st s rm :
  resolved h s = Some rm →
  updates (trace (run np v h st s)) =
  if negb (isnan (first_rho_val_of np v h s (time_of h s) rm st))
  then [SetData "rho"
          (full_like (time_of h s)
             (first_rho_val_of np v h s (time_of h s) rm st))]
  else [].
Proof.
  intros Hrm. rewrite (run_resolved_world np v h st s rm Hrm). cbn [trace].
  rewrite updates_app, updates_reduce_events. by case_bool_decide.
Qed.

Lemma rho_series_of_run np v h st s rm :
  resolved h s = Some rm →
  store (run np v h st s) !! "rho" =
  Some (full_like (time_of h s)
          (first_rho_val_of np v h s (time_of h s) rm st)) ∧
  (isnan (first_rho_val_of np v h s (time_of h s) rm st) = true →
   first_rho_val_of np v h s (time_of h s) rm st = NaN).
Proof.
  intros Hrm. rewrite (run_resolved_world np v h st s rm Hrm). cbn [store].
  unfold reduce_store.
  destruct (first_rho_val_of np v h s (time_of h s) rm st) eqn:Hf;
    cbn [isnan negb]; (split; [apply lookup_insert_eq|done]).
Qed.

(** C10. In a run that settles on a reference material, with the rho of a
    group computed from the series in the store when the loop starts:
    - if the rho of every group that is not of type Baseline is NaN (which
      is also what an exception inside the computation gives), the rho
      series is never updated and holds NaN at every sample;
    - otherwise, for the first such group [g] (in the order of the group
      list) whose rho is not NaN, the rho series is updated exactly once and
      holds the rho of [g] at every sample;
    - the loop stops at [g]: run on the whole list or on the list cut after
      [g], it returns the same value and leaves the same world. *)
Theorem flat_rho_series np v h st s rm :
  resolved h s = Some rm →
  ((∀ g, g ∈ selectionGroupList h → g_type g ≠ data_Baseline →
         isnan (rho_value np h
                  (store_at_scan np v h s (time_of h s) rm st) g) = true) →
   store (run np v h st s) !! "rho" =
     Some (replicate (length (time_of h s)) NaN) ∧
   updates (trace (run np v h st s)) = []) ∧
  (∀ pre g post,
     selectionGroupList h = pre ++ g :: post →
     g_type g ≠ data_Baseline →
     isnan (rho_value np h
              (store_at_scan np v h s (time_of h s) rm st) g) = false →
     (∀ g', g' ∈ pre → g_type g' ≠ data_Baseline →
            isnan (rho_value np h
                     (store_at_scan np v h s (time_of h s) rm st) g')
            = true) →
     store (run np v h st s) !! "rho" =
       Some (replicate (length (time_of h s))
               (rho_value np h
                  (store_at_scan np v h s (time_of h s) rm st) g)) ∧
     updates (trace (run np v h st s)) =
       [SetData "rho"
          (replicate (length (time_of h s))
             (rho_value np h
                (store_at_scan np v h s (time_of h s) rm st) g))]) ∧
  (∀ w pre g post,
     g_type g ≠ data_Baseline →
     isnan (rho_value np h (store w) g) = false →
     (∀ g', g' ∈ pre → g_type g' ≠ data_Baseline →
            isnan (rho_value np h (store w) g') = true) →
     scan_rho np h (pre ++ g :: post) w = scan_rho np h (pre ++ [g]) w ∧
     (scan_rho np h (pre ++ g :: post) w).1 = rho_value np h (store w) g).
Proof.
  intros Hrm.
  destruct (rho_series_of_run np v h st s rm Hrm) as [Hstore _].
  pose proof (updates_run np v h st s rm Hrm) as Hupd.
  unfold first_rho_val_of in *. repeat apply conj.
  - intros Hall. rewrite Hstore, Hupd.
    by rewrite (scan_value_all_nan np h _ _ Hall).
  - intros pre g post Hl Hty Hv Hpre. rewrite Hstore, Hupd, Hl.
    destruct (scan_first np h _ pre g post Hty Hv Hpre) as [-> _].
    by rewrite Hv.
  - intros w pre g post Hty Hv Hpre. rewrite !scan_rho_run.
    destruct (scan_first np h (store w) pre g post Hty Hv Hpre)
      as [Hval Hev].
    destruct (scan_first np h (store w) pre g [] Hty Hv Hpre) as [Hval' _].
    cbn [fst]. by rewrite Hval, Hev, Hval'.
Qed.

Lemma flat_rho_series_witness :
  (* no group gives a rho *)
  store (run numpy_special v4_9 sample_run_host ∅
             (default_settings "G_LREE")) !! "rho" = Some [NaN; NaN] ∧
  (* G_LREE raises, Monazite gives a rho, Zircon is not looked at *)
  store (run numpy_special v4_8 rho_host ∅ (default_settings "G_LREE"))
    !! "rho" =
    Some (replicate 3 (S754_finite false 8888110961930328 (-53))) ∧
  updates (trace (run numpy_special v4_8 rho_host ∅
                      (default_settings "G_LREE"))) =
    [SetData "rho" (replicate 3 (S754_finite false 8888110961930328 (-53)))].
Proof.
  destruct (flat_rho_series numpy_special v4_9 sample_run_host ∅
              (default_settings "G_LREE") "G_LREE" eq_refl) as (Hnan & _).
  destruct (flat_rho_series numpy_special v4_8 rho_host ∅
              (default_settings "G_LREE") "G_LREE" eq_refl) as (_ & Hrho & _).
  split.
  - apply Hnan. intros g Hg Hty.
    repeat (apply elem_of_cons in Hg as [->|Hg]; [by vm_compute|]).
    by apply elem_of_nil in Hg.
  - apply (Hrho
      [ {| g_name := "Baseline"; g_type := data_Baseline |};
        {| g_name := "G_LREE"; g_type := data_ReferenceMaterial |} ]
      {| g_name := "Monazite"; g_type := data_Sample |}
      [ {| g_name := "Zircon"; g_type := data_Sample |} ]).
    + reflexivity.
    + discriminate.
    + vm_compute; reflexivity.
    + intros g Hg Hty.
      repeat (apply elem_of_cons in Hg as [->|Hg];
              [done || by vm_compute|]).
      by apply elem_of_nil in Hg.
Defined.

(** ** Claim C4: a standardization that fails *)

Lemma raises_std_try h st rm series key raw e :
  raises h st rm series key e → std_try h st rm series key raw = inl e.
Proof.
  unfold raises, std_try.
  intros [-> | [[-> ->] | (-> & [spline ->] & Hkey)]]; try done.
  simpl. by rewrite Hkey.
Qed.

Lemma std_value_failed h st rm series key raw e :
  std_try h st rm series key raw = inl e →
  std_value h st rm series key raw = replicate (length raw) NaN ∧
  Message ("Warning: Standard correction for " +:+ key +:+ " failed: " +:+ e)
    ∈ std_events h st rm series key raw.
Proof.
  unfold std_value, std_events. intros ->. split; [done|].
  apply list_elem_of_further, list_elem_of_here.
Qed.

Lemma last_reduce_events np v h s time rm st :
  last (reduce_events np v h s time rm st) = Some Finished.
Proof.
  unfold reduce_events. rewrite !app_assoc.
  by rewrite (last_app _ [_; _; _]).
Qed.

Lemma last_run np v h st s rm :
  resolved h s = Some rm → last (trace (run np v h st s)) = Some Finished.
Proof.
  intros Hrm. rewrite (run_resolved_world np v h st s rm Hrm). cbn [trace].
  by rewrite last_app, last_reduce_events.
Qed.

Lemma std_events_in_run np v h st s rm e :
  resolved h s = Some rm →
  e ∈ std_events h (published np h s st) rm "Nd143_144_Corr" "143Nd/144Nd"
        (Nd143_144_Corr (engine_of np h s)) ∨
  e ∈ std_events h (published np h s st) rm "Sm147_Nd144_Corr" "147Sm/144Nd"
        (Sm147_Nd144_Corr (engine_of np h s)) →
  e ∈ trace (run np v h st s).
Proof.
  intros Hrm He. rewrite (run_resolved_world np v h st s rm Hrm).
  cbn [trace]. unfold reduce_events. rewrite !elem_of_app. tauto.
Qed.

Section Same_but.
Variable np : NumPy.
Variables (series key : string) (h h' : Host).
Hypothesis Hsame : same_but series key h h'.

Lemma same_engine s : engine_of np h s = engine_of np h' s.
Proof using Hsame.
  destruct Hsame as (_ & _ & _ & Hm & Hd & _).
  unfold engine_of, inputs_of. by rewrite Hm, Hd.
Qed.

Lemma same_resolved s : resolved h s = resolved h' s.
Proof using Hsame.
  destruct Hsame as (Hg & _).
  unfold resolved, selectionGroupNames. by rewrite Hg.
Qed.

Lemma same_time s : time_of h s = time_of h' s.
Proof using Hsame.
  destruct Hsame as (_ & _ & Ht & _). unfold time_of. by rewrite Ht.
Qed.

Lemma same_std_value st rm series' key' raw :
  series' ≠ series → key' ≠ key →
  std_value h st rm series' key' raw = std_value h' st rm series' key' raw.
Proof using Hsame.
  destruct Hsame as (_ & _ & _ & _ & _ & _ & Hs & Hk). intros Hne Hkne.
  unfold std_value, std_try.
  destruct (Hs rm series' st Hne) as [-> ->]. by rewrite (Hk rm key' Hkne).
Qed.

End Same_but.

Lemma same_but_failing_host series key e h :
  same_but series key h (failing_host series e h).
Proof.
  unfold same_but, failing_host; simpl. repeat apply conj; try done.
  intros rm sr st Hne. by rewrite decide_False.
Qed.

Lemma same_but_failing_host_sym series key e h :
  same_but series key (failing_host series e h) h.
Proof.
  unfold same_but, failing_host; simpl. repeat apply conj; try done.
  intros rm sr st Hne. by rewrite decide_False.
Qed.

Lemma created_except_run np v h st s rm name :
  resolved h s = Some rm →
  created_except name (trace (run np v h st s)) =
  filter (λ p, p.1 ≠ name)
    (raw_outputs np h s ++ later_outputs np v h s st rm ++
     [("rho", full_like (time_of h s) NaN)]).
Proof.
  intros Hrm. unfold created_except. by rewrite (created_run _ _ _ _ _ rm Hrm).
Qed.

(** The series created by two runs are the same, but for the standardized
    series that the two hosts may treat differently. *)
Lemma created_except_143 np v h h' st s :
  same_but "Nd143_144_Corr" "143Nd/144Nd" h h' →
  created_except "StdCorr_143Nd_144" (trace (run np v h st s)) =
  created_except "StdCorr_143Nd_144" (trace (run np v h' st s)).
Proof.
  intros Hsame. destruct (resolved h s) as [rm|] eqn:Hrm.
  - pose proof Hrm as Hrm'. rewrite (same_resolved _ _ h h' Hsame) in Hrm'.
    rewrite (created_except_run _ _ _ _ _ rm _ Hrm),
      (created_except_run _ _ _ _ _ rm _ Hrm').
    unfold raw_outputs, later_outputs, StdCorr_147Sm_144_of, published.
    rewrite <- (same_engine np _ _ h h' Hsame), <- (same_time _ _ h h' Hsame).
    rewrite <- (same_std_value _ _ h h' Hsame _ rm "Sm147_Nd144_Corr"
                  "147Sm/144Nd") by done.
    reflexivity.
  - pose proof Hrm as Hrm'. rewrite (same_resolved _ _ h h' Hsame) in Hrm'.
    unfold created_except.
    by rewrite (run_aborted _ _ _ _ _ Hrm), (run_aborted _ _ _ _ _ Hrm').
Qed.

Lemma created_except_147 np v h h' st s :
  same_but "Sm147_Nd144_Corr" "147Sm/144Nd" h h' →
  created_except "StdCorr_147Sm_144" (trace (run np v h st s)) =
  created_except "StdCorr_147Sm_144" (trace (run np v h' st s)).
Proof.
  intros Hsame. destruct (resolved h s) as [rm|] eqn:Hrm.
  - pose proof Hrm as Hrm'. rewrite (same_resolved _ _ h h' Hsame) in Hrm'.
    rewrite (created_except_run _ _ _ _ _ rm _ Hrm),
      (created_except_run _ _ _ _ _ rm _ Hrm').
    unfold raw_outputs, later_outputs, StdCorr_143Nd_144_of, published.
    rewrite <- (same_engine np _ _ h h' Hsame), <- (same_time _ _ h h' Hsame).
    rewrite <- (same_std_value _ _ h h' Hsame _ rm "Nd143_144_Corr"
                  "143Nd/144Nd") by done.
    reflexivity.
  - pose proof Hrm as Hrm'. rewrite (same_resolved _ _ h h' Hsame) in Hrm'.
    unfold created_except.
    by rewrite (run_aborted _ _ _ _ _ Hrm), (run_aborted _ _ _ _ _ Hrm').
Qed.

Lemma created_names_run np v h st s rm :
  resolved h s = Some rm →
  (created (trace (run np v h st s))).*1 = output_names v.
Proof.
  intros Hrm. rewrite (created_run _ _ _ _ _ rm Hrm). by destruct v.
Qed.




(** ** Claim C5: the rho diagnostic of a selection *)

Lemma valid_mask_pairs sm nd :
  length sm = length nd → valid_mask sm nd = inr (valid_pair <$> zip sm nd).
Proof.
  intros Hlen. unfold valid_mask, broadcast2.
  rewrite decide_True by (by rewrite !length_fmap). simpl.
  rewrite decide_True
    by (rewrite length_zip_with, !length_fmap; lia). simpl.
  rewrite decide_True
    by (rewrite !length_zip_with, !length_fmap; lia).
  f_equal. revert nd Hlen.
  induction sm as [|x sm IH]; intros [|y nd] Hlen; try done.
  simpl in *. f_equal. apply IH. lia.
Qed.

Lemma bool_index_valid_fst sm nd :
  length sm = length nd →
  bool_index sm (valid_pair <$> zip sm nd) = inr (valid_pairs sm nd).*1.
Proof.
  intros Hlen. unfold bool_index.
  rewrite decide_True by (rewrite length_fmap, length_zip; lia).
  f_equal. unfold valid_pairs. revert nd Hlen.
  induction sm as [|x sm IH]; intros [|y nd] Hlen; try done.
  simpl in Hlen. cbn [zip zip_with fmap list_fmap].
  rewrite !filter_cons. cbn [snd].
  destruct (valid_pair (x, y)); simpl; rewrite IH by lia; done.
Qed.

Lemma bool_index_valid_snd sm nd :
  length sm = length nd →
  bool_index nd (valid_pair <$> zip sm nd) = inr (valid_pairs sm nd).*2.
Proof.
  intros Hlen. unfold bool_index.
  rewrite decide_True by (rewrite length_fmap, length_zip; lia).
  f_equal. unfold valid_pairs. revert nd Hlen.
  induction sm as [|x sm IH]; intros [|y nd] Hlen; try done.
  simpl in Hlen. cbn [zip zip_with fmap list_fmap].
  rewrite !filter_cons. cbn [snd].
  destruct (valid_pair (x, y)); simpl; rewrite IH by lia; done.
Qed.

Lemma any_valid sm nd :
  existsb id (valid_pair <$> zip sm nd) =
  negb (bool_decide (valid_pairs sm nd = [])).
Proof.
  unfold valid_pairs. induction (zip sm nd) as [|p l IH]; [done|].
  cbn [fmap list_fmap existsb id]. rewrite filter_cons.
  destruct (valid_pair p); simpl; [done|]. by rewrite IH.
Qed.

(** The [try] block, once both extractions have succeeded with arrays of
    one length. *)
Lemma rho_try_extracted np h st sel ts_sm ts_nd sm nd :
  st !! "StdCorr_147Sm_144" = Some ts_sm →
  dataForSelection h sel ts_sm = inr sm →
  st !! "StdCorr_143Nd_144" = Some ts_nd →
  dataForSelection h sel ts_nd = inr nd →
  length sm = length nd →
  rho_try np h st sel =
  if bool_decide (valid_pairs sm nd = []) then inr NaN
  else np_corrcoef01 np (np_log10 np <$> (valid_pairs sm nd).*1)
                        (np_log10 np <$> (valid_pairs sm nd).*2).
Proof.
  intros Hts1 Hsm Hts2 Hnd Hlen. unfold rho_try, data_timeSeries.
  rewrite Hts1; simpl. rewrite Hsm; simpl. rewrite Hts2; simpl.
  rewrite Hnd; simpl. rewrite (valid_mask_pairs sm nd Hlen); simpl.
  rewrite any_valid. case_bool_decide; simpl; [done|].
  rewrite (bool_index_valid_fst sm nd Hlen); simpl.
  by rewrite (bool_index_valid_snd sm nd Hlen).
Qed.

Lemma rho_try_extraction_raises np h st sel :
  (st !! "StdCorr_147Sm_144" = None → ∃ e, rho_try np h st sel = inl e) ∧
  (∀ ts e, st !! "StdCorr_147Sm_144" = Some ts →
           dataForSelection h sel ts = inl e → rho_try np h st sel = inl e) ∧
  (∀ ts sm ts' e,
     st !! "StdCorr_147Sm_144" = Some ts → dataForSelection h sel ts = inr sm →
     st !! "StdCorr_143Nd_144" = Some ts' →
     dataForSelection h sel ts' = inl e → rho_try np h st sel = inl e).
Proof.
  unfold rho_try, data_timeSeries. repeat apply conj.
  - intros ->. by eexists.
  - intros ts e -> Hsm. simpl. by rewrite Hsm.
  - intros ts sm ts' e -> Hsm -> Hnd. simpl. rewrite Hsm; simpl.
    by rewrite Hnd.
Qed.

(** C5. For every selection [sel] and every state [w] of the host:
    - the function returns a value and leaves the series and the settings
      alone: when the [try] block raises [e] (a missing series, a failing
      extraction, a shape mismatch, a failing [corrcoef]) the value is NaN
      and the one message logged names the selection and [e]; otherwise
      nothing is logged;
    - once both extractions have given arrays of one length, the samples kept
      are exactly the pairs in which both values are not NaN and greater than
      zero, and the coefficient is taken over their base-10 logarithms; with
      no such pair the value is NaN and [corrcoef] is not called;
    - with fewer than two such pairs the value is NaN, given that [corrcoef]
      on a single observation returns NaN or raises. *)
Theorem rho_diagnostic np h sel w :
  (∀ e, rho_try np h (store w) sel = inl e →
        rho_corr_147Sm_143Nd np h sel w =
        (NaN, add_events
                [Message ("[rho_corr_147Sm_143Nd] Error in selection " +:+
                          g_name sel +:+ ": " +:+ e)] w)) ∧
  (∀ v, rho_try np h (store w) sel = inr v →
        rho_corr_147Sm_143Nd np h sel w = (v, w)) ∧
  ((store w !! "StdCorr_147Sm_144" = None →
    ∃ e, rho_try np h (store w) sel = inl e) ∧
   (∀ ts e, store w !! "StdCorr_147Sm_144" = Some ts →
            dataForSelection h sel ts = inl e →
            rho_try np h (store w) sel = inl e) ∧
   (∀ ts sm ts' e,
      store w !! "StdCorr_147Sm_144" = Some ts →
      dataForSelection h sel ts = inr sm →
      store w !! "StdCorr_143Nd_144" = Some ts' →
      dataForSelection h sel ts' = inl e →
      rho_try np h (store w) sel = inl e)) ∧
  (∀ ts_sm ts_nd sm nd,
     store w !! "StdCorr_147Sm_144" = Some ts_sm →
     dataForSelection h sel ts_sm = inr sm →
     store w !! "StdCorr_143Nd_144" = Some ts_nd →
     dataForSelection h sel ts_nd = inr nd →
     length sm = length nd →
     rho_try np h (store w) sel =
       (if bool_decide (valid_pairs sm nd = []) then inr NaN
        else np_corrcoef01 np (np_log10 np <$> (valid_pairs sm nd).*1)
                              (np_log10 np <$> (valid_pairs sm nd).*2)) ∧
     (valid_pairs sm nd = [] →
      rho_corr_147Sm_143Nd np h sel w = (NaN, w)) ∧
     ((∀ x y, np_corrcoef01 np [x] [y] = inr NaN ∨
              ∃ e, np_corrcoef01 np [x] [y] = inl e) →
      length (valid_pairs sm nd) < 2 →
      (rho_corr_147Sm_143Nd np h sel w).1 = NaN)).
Proof.
  repeat apply conj.
  - intros e He. rewrite rho_corr_run. unfold rho_value, rho_events.
    by rewrite He.
  - intros v Hv. rewrite rho_corr_run. unfold rho_value, rho_events.
    by rewrite Hv, add_events_nil.
  - apply rho_try_extraction_raises.
  - apply rho_try_extraction_raises.
  - apply rho_try_extraction_raises.
  - intros ts_sm ts_nd sm nd Hts1 Hsm Hts2 Hnd Hlen.
    pose proof (rho_try_extracted np h _ sel _ _ _ _ Hts1 Hsm Hts2 Hnd Hlen)
      as Htry.
    split; [done|]. split.
    + intros Hnone. rewrite rho_corr_run. unfold rho_value, rho_events.
      rewrite Htry, bool_decide_true by done. by rewrite add_events_nil.
    + intros Hsingle Hfew. rewrite rho_corr_run. cbn [fst].
      unfold rho_value. rewrite Htry.
      destruct (valid_pairs sm nd) as [|p [|q l]]; [done| |simpl in *; lia].
      rewrite bool_decide_false by done. cbn [fmap list_fmap].
      by destruct (Hsingle (np_log10 np p.1) (np_log10 np p.2))
        as [-> | [e ->]].
Qed.

Lemma rho_diagnostic_witness :
  (* one valid pair: (1, 2); the second pair has a NaN *)
  rho_corr_147Sm_143Nd numpy_special sample_run_host
    {| g_name := "Monazite"; g_type := data_Sample |}
    (initial {["StdCorr_147Sm_144" := [c1_0; NaN];
               "StdCorr_143Nd_144" := [c2_0; c3_0]]}
             (default_settings "G_LREE")) =
  (NaN, initial {["StdCorr_147Sm_144" := [c1_0; NaN];
                  "StdCorr_143Nd_144" := [c2_0; c3_0]]}
                (default_settings "G_LREE")) ∧
  (rho_corr_147Sm_143Nd numpy_special sample_run_host
     {| g_name := "Monazite"; g_type := data_Sample |}
     (initial {["StdCorr_147Sm_144" := [c1_0; NaN];
                "StdCorr_143Nd_144" := [c2_0; c3_0]]}
              (default_settings "G_LREE"))).1 = NaN ∧
  (* the extraction raises: the group has no selection *)
  rho_corr_147Sm_143Nd numpy_special rho_host
    {| g_name := "G_LREE"; g_type := data_ReferenceMaterial |}
    (initial {["StdCorr_147Sm_144" := [c1_0; c2_0]]}
             (default_settings "G_LREE")) =
  (NaN, {| store := {["StdCorr_147Sm_144" := [c1_0; c2_0]]};
           settings := default_settings "G_LREE";
           trace := [Message "[rho_corr_147Sm_143Nd] Error in selection G_LREE: the group has no selection"] |}).
Proof.
  destruct (rho_diagnostic numpy_special sample_run_host
              {| g_name := "Monazite"; g_type := data_Sample |}
              (initial {["StdCorr_147Sm_144" := [c1_0; NaN];
                         "StdCorr_143Nd_144" := [c2_0; c3_0]]}
                       (default_settings "G_LREE")))
    as (_ & Hval & _ & Hpairs).
  destruct (Hpairs [c1_0; NaN] [c2_0; c3_0] [c1_0; NaN] [c2_0; c3_0]
              eq_refl eq_refl eq_refl eq_refl eq_refl)
    as (Htry & _ & Hfew).
  split; [|split].
  - apply Hval. rewrite Htry. reflexivity.
  - apply Hfew; [intros x y; left; reflexivity|].
    vm_compute. lia.
  - destruct (rho_diagnostic numpy_special rho_host
                {| g_name := "G_LREE"; g_type := data_ReferenceMaterial |}
                (initial {["StdCorr_147Sm_144" := [c1_0; c2_0]]}
                         (default_settings "G_LREE")))
      as (Hexn & _ & (_ & Hraise & _) & _).
    apply (Hexn "the group has no selection").
    apply (Hraise [c1_0; c2_0]); reflexivity.
Defined.

(** * Further properties of the two scripts *)

(** ** settingsWidget and the reference-material check *)

Lemma settingsWidget_run v h w :
  (settingsWidget v h w).2 =
  {| store := store w;
     settings :=
       {| IndexChannel := "Nd146"; MaskChannel := "Nd146";
          ReferenceMaterial :=
            default_ReferenceMaterial
              (selectionGroupNames h data_ReferenceMaterial);
          MaskCutoff := c0_1; MaskTrim := fzero;
          NdTrue := c0_7219; Sm147_149 := c1_0868;
          Sm144_149 := c0_22332; Sm148_149 := c0_81419;
          PropagateError :=
            match v with
            | v4_8 => true
            | v4_9 => PropagateError (settings w)
            end |};
     trace :=
       trace w ++
       [SetSetting "IndexChannel" "Nd146";
        SetSetting "ReferenceMaterial"
          (default_ReferenceMaterial
             (selectionGroupNames h data_ReferenceMaterial));
        SetSetting "MaskChannel" "Nd146";
        SetSetting "MaskCutoff" "0.1"; SetSetting "MaskTrim" "0.0";
        SetSetting "NdTrue" "0.7219"; SetSetting "Sm147_149" "1.08680";
        SetSetting "Sm144_149" "0.22332";
        SetSetting "Sm148_149" "0.81419"] ++
       match v with
       | v4_8 => [SetSetting "PropagateError" "True"]
       | v4_9 => []
       end |}.
Proof.
  unfold settingsWidget, drs_setSetting. cbv zeta.
  rewrite !bind_run; cbn [fst snd store settings trace].
  destruct v; cbn [fst snd store settings trace mret M_ret];
    rewrite <- ?app_assoc; cbn [app]; done.
Qed.

Lemma default_ReferenceMaterial_in rmNames :
  rmNames ≠ [] → default_ReferenceMaterial rmNames ∈ rmNames.
Proof.
  intros Hne. unfold default_ReferenceMaterial. case_decide; [done|].
  destruct rmNames; [done|]. constructor.
Qed.

Lemma resolved_in h s :
  selectionGroupNames h data_ReferenceMaterial ≠ [] →
  ∃ rm, resolved h s = Some rm ∧
        rm ∈ selectionGroupNames h data_ReferenceMaterial.
Proof.
  intros Hne. unfold resolved. repeat case_decide; eauto.
  destruct (selectionGroupNames h data_ReferenceMaterial) as [|first rest];
    [done|]. exists first. split; [done|constructor].
Qed.

(** A run whose configured reference material exists leaves the settings
    alone. *)
Lemma run_configured np v h st s :
  ReferenceMaterial s ∈ selectionGroupNames h data_ReferenceMaterial →
  settings (run np v h st s) = s ∧
  settings_writes (trace (run np v h st s)) = [].
Proof.
  intros Hin. pose proof (resolved_configured h s Hin) as Hrm.
  rewrite (run_resolved_world np v h st s _ Hrm).
  rewrite bool_decide_false by (by intros ?). split; [done|].
  cbn [trace]. by rewrite settings_writes_app, settings_writes_reduce_events.
Qed.

Lemma settings_of_run np v h st s rm :
  resolved h s = Some rm →
  settings (run np v h st s) = set_ReferenceMaterial rm s.
Proof.
  intros Hrm. rewrite (run_resolved_world np v h st s rm Hrm). cbn [settings].
  case_bool_decide as Hout; [done|].
  unfold resolved in Hrm.
  destruct (decide (ReferenceMaterial s ∈ _)) as [Hin|Hnin]; [|done].
  injection Hrm as <-. by destruct s.
Qed.

(** X1. After [settingsWidget] has written its defaults, a run (of either
    version) never takes the fallback: with at least one reference-material
    group it runs with "G_LREE" if that group exists and with the first
    group otherwise, and writes no setting; without any group the default is
    the empty name and the run stops at the check, creating nothing. *)
Theorem widget_defaults_need_no_fallback np v v' h w :
  (selectionGroupNames h data_ReferenceMaterial ≠ [] →
   resolved h (settings (settingsWidget v h w).2) =
     Some (default_ReferenceMaterial
             (selectionGroupNames h data_ReferenceMaterial)) ∧
   settings (run_from np v' h (settingsWidget v h w).2) =
     settings (settingsWidget v h w).2 ∧
   settings_writes (trace (run_from np v' h (settingsWidget v h w).2)) = []) ∧
  (selectionGroupNames h data_ReferenceMaterial = [] →
   ReferenceMaterial (settings (settingsWidget v h w).2) = "" ∧
   created (trace (run_from np v' h (settingsWidget v h w).2)) = [] ∧
   store (run_from np v' h (settingsWidget v h w).2) = store w).
Proof.
  unfold run_from. rewrite settingsWidget_run. cbn [store settings]. split.
  - intros Hne. pose proof (default_ReferenceMaterial_in _ Hne) as Hin.
    split; [by apply resolved_configured|]. by apply run_configured.
  - intros Hnil. cbn [ReferenceMaterial]. rewrite Hnil. split; [done|].
    rewrite run_aborted by (by apply resolved_None). done.
Qed.

(** X2. What a run leaves in the settings: only the reference material can
    have changed; when there is a reference-material group the name left
    there is the name of such a group, and the next run (of either version,
    on any store) finds it and writes nothing. *)
Theorem resolution_is_persistent np v v' h st st' s :
  selectionGroupNames h data_ReferenceMaterial ≠ [] →
  settings (run np v h st s) =
    set_ReferenceMaterial (ReferenceMaterial (settings (run np v h st s))) s ∧
  ReferenceMaterial (settings (run np v h st s))
    ∈ selectionGroupNames h data_ReferenceMaterial ∧
  settings (run np v' h st' (settings (run np v h st s))) =
    settings (run np v h st s) ∧
  settings_writes (trace (run np v' h st' (settings (run np v h st s)))) = [].
Proof.
  intros Hne. destruct (resolved_in h s Hne) as (rm & Hrm & Hin).
  rewrite (settings_of_run np v h st s rm Hrm). cbn [ReferenceMaterial].
  split; [done|]. split; [done|]. by apply run_configured.
Qed.

Lemma resolution_is_persistent_witness :
  ReferenceMaterial
    (settings (run numpy_special v4_9 sample_run_host ∅
                   (default_settings "BHVO"))) = "G_LREE" ∧
  settings_writes
    (trace (run numpy_special v4_8 sample_run_host ∅
                (settings (run numpy_special v4_9 sample_run_host ∅
                               (default_settings "BHVO"))))) = [].
Proof.
  destruct (resolution_is_persistent numpy_special v4_9 v4_8 sample_run_host
              ∅ ∅ (default_settings "BHVO")) as (Hs & _ & _ & Hw).
  - discriminate.
  - split; [by rewrite Hs|exact Hw].
Defined.

(** ** The store after a run *)

Lemma reduce_store_created np v h s time rm st name values :
  (name, values) ∈ raw_outputs np h s ++ later_outputs np v h s st rm →
  reduce_store np v h s time rm st !! name = Some values.
Proof.
  intros Hin.
  unfold reduce_store, store_at_scan, published, raw_outputs,
    later_outputs in *.
  destruct v; cbn [app store_all foldl fst snd] in *;
    repeat (apply elem_of_cons in Hin as [[= -> ->]|Hin];
            [destruct (negb _);
             rewrite ?lookup_insert_ne by done; apply lookup_insert_eq|]);
    by apply elem_of_nil in Hin.
Qed.

(** X3. In a run that settles on a reference material, every series the run
    creates, other than rho, is in the store at the end with the values it
    was created with: no later call of the run replaces them. *)
Theorem outputs_in_store np v h st s rm :
  resolved h s = Some rm →
  ∀ name values,
    (name, values) ∈ created (trace (run np v h st s)) → name ≠ "rho" →
    store (run np v h st s) !! name = Some values.
Proof.
  intros Hrm. rewrite (created_run _ _ _ _ _ rm Hrm).
  rewrite (run_resolved_world np v h st s rm Hrm). cbn [store].
  intros name values Hin Hne. apply reduce_store_created.
  rewrite app_assoc in Hin. apply elem_of_app in Hin as [Hin|Hin]; [done|].
  apply list_elem_of_singleton in Hin. by injection Hin as -> _.
Qed.

Lemma outputs_in_store_witness :
  store (run numpy_special v4_8 sample_run_host ∅
             (default_settings "G_LREE")) !! "TotalNd" =
  Some (TotalNd (engine_of numpy_special sample_run_host
                   (default_settings "G_LREE"))).
Proof.
  apply (outputs_in_store numpy_special v4_8 sample_run_host ∅
           (default_settings "G_LREE") "G_LREE" eq_refl); [|discriminate].
  apply list_elem_of_lookup. exists 9. reflexivity.
Defined.

(** ** The order of the host calls *)

Lemma select_app P l k : select P (l ++ k) = select P l ++ select P k.
Proof. apply filter_app. Qed.

Lemma select_none P l : Forall (λ e, P e = false) l → select P l = [].
Proof.
  induction 1 as [|e l He _ IH]; [done|].
  unfold select in *. rewrite filter_cons, decide_False; [done|].
  by rewrite He.
Qed.

Lemma select_create P l :
  (∀ name values, P (CreateTimeSeries name values) = false) →
  select P (create <$> l) = [].
Proof.
  intros HP. apply select_none. induction l as [|[n a] l IH]; constructor;
    [apply HP|done].
Qed.

Lemma talk_std_events h st rm series key raw :
  Forall (λ e, talk e = true) (std_events h st rm series key raw).
Proof.
  unfold std_events. destruct (std_try _ _ _ _ _ _); by repeat constructor.
Qed.

Lemma message_scan_events np h st groups :
  Forall (λ e, is_message e = true) (scan_events np h st groups).
Proof.
  induction groups as [|sel rest IH]; simpl; [constructor|].
  case_decide; [|done]. apply Forall_app; split.
  - unfold rho_events. destruct (rho_try _ _ _ _); by repeat constructor.
  - by destruct (negb _).
Qed.

Lemma select_std_events P h st rm series key raw :
  (∀ e, talk e = true → P e = false) →
  select P (std_events h st rm series key raw) = [].
Proof.
  intros HP. apply select_none.
  eapply Forall_impl; [apply talk_std_events|]. apply HP.
Qed.

Lemma select_scan_events P np h st groups :
  (∀ e, is_message e = true → P e = false) →
  select P (scan_events np h st groups) = [].
Proof.
  intros HP. apply select_none.
  eapply Forall_impl; [apply message_scan_events|]. apply HP.
Qed.

Lemma select_propagation_events P v h s rm :
  (∀ e, is_message e = true → P e = false) →
  (∀ g t r m, P (PropagateErrors g t r m) = false) →
  select P (propagation_events v h s rm) = [].
Proof.
  intros HM HP. apply select_none. unfold propagation_events.
  destruct v, (PropagateError s); repeat constructor; auto.
Qed.

Lemma select_rho_update P (b : bool) values :
  P (SetData "rho" values) = false →
  select P (if b then [SetData "rho" values] else []) = [].
Proof.
  intros HP. apply select_none. destruct b; repeat constructor; done.
Qed.

(** What an observer that ignores messages, spline requests, series and
    error propagation sees of the reduction proper. *)
Lemma select_reduce_events P np v h s time rm st :
  (∀ e, talk e = true → P e = false) →
  (∀ name values, P (CreateTimeSeries name values) = false) →
  (∀ name values, P (SetData name values) = false) →
  (∀ g t r m, P (PropagateErrors g t r m) = false) →
  select P (reduce_events np v h s time rm st) =
  select P [SetIndexChannel (IndexChannel s)] ++
  select P (BaselineSubtract "Baseline" <$> timeSeriesList_Input h) ++
  select P [RegisterAssociatedResult
    "log10(StdCorr_147Sm/144Nd) vs log10(StdCorr_143Nd/144Nd) rho"] ++
  select P [Progress 100; Message "Finished!"; Finished].
Proof.
  intros Htalk Hcreate Hset Hprop.
  assert (∀ e, is_message e = true → P e = false) as Hmsg
    by (intros [] ?; try done; by apply Htalk).
  unfold reduce_events, rho_series_events.
  rewrite !select_app, !select_create, !select_std_events,
    select_scan_events, select_propagation_events, select_rho_update
    by done.
  cbn [app]. f_equal. f_equal.
  change [RegisterAssociatedResult ?l; CreateTimeSeries ?n ?a]
    with ([RegisterAssociatedResult l] ++ [CreateTimeSeries n a]).
  rewrite select_app.
  rewrite (select_none P [CreateTimeSeries _ _]) by (by repeat constructor).
  by rewrite app_nil_r.
Qed.

Lemma select_baseline_fmap P g (l : list string) :
  (∀ c, P (BaselineSubtract g c) = false) →
  select P (BaselineSubtract g <$> l) = [].
Proof.
  intros HP. apply select_none. induction l; by constructor.
Qed.

Lemma select_after_resolution P v st s b rm :
  select P (trace (after_resolution v st s b rm)) =
  select P [Message (start_message v); Progress 0] ++
  (if b then select P [Message (fallback_message v s rm);
                       SetSetting "ReferenceMaterial" rm]
   else []).
Proof.
  destruct b; cbn [after_resolution trace]; [|by rewrite app_nil_r].
  by rewrite <- select_app.
Qed.

(** The reduction proper ends with the three closing calls. *)
Lemma reduce_events_end np v h s time rm st :
  ∃ body,
    reduce_events np v h s time rm st =
    body ++ [Progress 100; Message "Finished!"; Finished].
Proof. unfold reduce_events. rewrite !app_assoc. by eexists. Qed.

Lemma select_reduce_body P np v h s time rm st body :
  (∀ e, talk e = true → P e = false) →
  (∀ name values, P (CreateTimeSeries name values) = false) →
  (∀ name values, P (SetData name values) = false) →
  (∀ g t r m, P (PropagateErrors g t r m) = false) →
  (∀ g c, P (BaselineSubtract g c) = false) →
  reduce_events np v h s time rm st =
    body ++ [Progress 100; Message "Finished!"; Finished] →
  select P body =
  select P [SetIndexChannel (IndexChannel s);
            RegisterAssociatedResult
              "log10(StdCorr_147Sm/144Nd) vs log10(StdCorr_143Nd/144Nd) rho"].
Proof.
  intros Htalk Hcreate Hset Hprop Hbase Hbody.
  pose proof (select_reduce_events P np v h s time rm st
                Htalk Hcreate Hset Hprop) as Hsel.
  rewrite Hbody, select_app, select_baseline_fmap in Hsel by done.
  apply (app_inv_tail (select P [Progress 100; Message "Finished!"; Finished])).
  rewrite Hsel. cbn [app].
  change [SetIndexChannel ?c; RegisterAssociatedResult ?l]
    with ([SetIndexChannel c] ++ [RegisterAssociatedResult l]).
  by rewrite select_app, <- app_assoc.
Qed.

(** Every trace ends with the completion signal, and neither it nor progress
    100 occurs before the closing calls. *)
Lemma run_ends np v h st s :
  ∃ body tail,
    trace (run np v h st s) = body ++ tail ∧
    (Finished ∉ body) ∧ (Progress 100 ∉ body) ∧
    (tail = [Progress 100; Message "Finished!"; Finished] ∨
     tail = [Finished] ∧ (Progress 100 ∉ trace (run np v h st s))).
Proof.
  destruct (resolved h s) as [rm|] eqn:Hrm.
  - rewrite (run_resolved_world np v h st s rm Hrm). cbn [trace].
    destruct (reduce_events_end np v h s (time_of h s) rm st)
      as [body Hbody].
    eexists (_ ++ body), _. rewrite Hbody.
    split; [by rewrite app_assoc|]. split; [|split; [|by left]].
    + intros Hin.
      assert (Finished ∈ select is_finished
                (trace (after_resolution v st s
                   (bool_decide (ReferenceMaterial s ∉
                      selectionGroupNames h data_ReferenceMaterial)) rm)
                 ++ body)) as Hsel
        by (by apply list_elem_of_filter).
      rewrite select_app, select_after_resolution in Hsel.
      rewrite (select_reduce_body _ _ _ _ _ _ _ _ body) in Hsel
        by (done || by intros []).
      revert Hsel. case_bool_decide; by intros ?%elem_of_nil.
    + intros Hin.
      assert (Progress 100 ∈ select is_progress
                (trace (after_resolution v st s
                   (bool_decide (ReferenceMaterial s ∉
                      selectionGroupNames h data_ReferenceMaterial)) rm)
                 ++ body)) as Hsel
        by (by apply list_elem_of_filter).
      rewrite select_app, select_after_resolution in Hsel.
      rewrite (select_reduce_body _ _ _ _ _ _ _ _ body) in Hsel
        by (done || by intros []).
      revert Hsel.
      case_bool_decide; by intros [=]%list_elem_of_singleton.
  - rewrite (run_aborted np v h st s Hrm). cbn [trace].
    exists [Message (start_message v); Progress 0;
            Message (error_message v)], [Finished].
    split; [done|].
    assert (∀ e, e ∈ [Message (start_message v); Progress 0;
                      Message (error_message v)] →
                 e ≠ Finished ∧ e ≠ Progress 100) as Hbody.
    { intros e He.
      repeat (apply elem_of_cons in He as [->|He]; [done|]).
      by apply elem_of_nil in He. }
    split; [intros He; by destruct (Hbody _ He)|].
    split; [intros He; by destruct (Hbody _ He)|].
    right. split; [done|]. intros He.
    repeat (apply elem_of_cons in He as [?|He]; [done|]).
    by apply elem_of_nil in He.
Qed.

(** An event that is not in [body] and is before a cut of [body ++ tail]:
    the cut is in [tail], after the event. *)
Lemma cut_after (x : Event) body tail pre post :
  body ++ tail = pre ++ post → x ∉ body → x ∈ pre →
  ∃ k, pre = body ++ k ∧ tail = k ++ post ∧ x ∈ k.
Proof.
  intros Heq Hbody Hpre.
  apply app_eq_inv in Heq as [(k & -> & ->)|(k & -> & ->)].
  - destruct Hbody. apply elem_of_app. by left.
  - exists k. repeat split; try done.
    apply elem_of_app in Hpre as [?|?]; done.
Qed.

(** X4. No host call follows [drs.finished()], which is called at most once,
    and progress 100 is reported only when nothing is left to do but the
    closing message and the completion signal.  Stated for every cut of the
    trace in two, hence for the calls made up to any point of a run: also
    of a run that an exception ends there. *)
Theorem nothing_after_finished np v h st s pre post :
  trace (run np v h st s) = pre ++ post →
  (Finished ∈ pre → post = []) ∧
  (Progress 100 ∈ pre →
   post `suffix_of` [Message "Finished!"; Finished]).
Proof.
  intros Hcut.
  destruct (run_ends np v h st s)
    as (body & tail & Htr & HF & HP & Htail).
  rewrite Htr in Hcut. split.
  - intros Hin.
    destruct (cut_after Finished body tail pre post Hcut HF Hin)
      as (k & _ & Hk & Hink).
    destruct Htail as [->|[-> _]].
    + destruct k as [|? [|? [|? [|? ?]]]]; simplify_eq/=; try done;
        repeat (apply elem_of_cons in Hink as [?|Hink]; [done|]);
        by apply elem_of_nil in Hink.
    + destruct k as [|? [|? ?]]; simplify_eq/=; try done.
      by apply elem_of_nil in Hink.
  - intros Hin.
    destruct (cut_after (Progress 100) body tail pre post Hcut HP Hin)
      as (k & Hpre & Hk & Hink).
    destruct Htail as [->|[-> Hno]].
    + destruct k as [|? [|? [|? [|? ?]]]]; simplify_eq/=.
      * by apply elem_of_nil in Hink.
      * by exists [].
      * by exists [Message "Finished!"].
      * by exists [Message "Finished!"; Finished].
    + destruct Hno. rewrite Htr, Hcut. apply elem_of_app. by left.
Qed.

Lemma nothing_after_finished_witness :
  drop 20 (trace (run numpy_special v4_9 sample_run_host ∅
                      (default_settings "G_LREE")))
    `suffix_of` [Message "Finished!"; Finished].
Proof.
  destruct (nothing_after_finished numpy_special v4_9 sample_run_host ∅
              (default_settings "G_LREE")
              (take 20 (trace (run numpy_special v4_9 sample_run_host ∅
                                   (default_settings "G_LREE"))))
              (drop 20 (trace (run numpy_special v4_9 sample_run_host ∅
                                   (default_settings "G_LREE")))))
    as [_ Hdone].
  - by rewrite take_drop.
  - apply Hdone. apply list_elem_of_lookup. exists 19. vm_compute.
    reflexivity.
Defined.

Lemma reduce_events_after_baseline np v h s time rm st :
  ∃ post,
    reduce_events np v h s time rm st =
      [SetIndexChannel (IndexChannel s)] ++
      (BaselineSubtract "Baseline" <$> timeSeriesList_Input h) ++ post ∧
    select is_baselineSubtract post = [].
Proof.
  unfold reduce_events. eexists. split; [reflexivity|].
  rewrite !select_app, !select_create, !select_std_events by
    (done || by intros []).
  rewrite select_propagation_events by (done || by intros []).
  unfold rho_series_events.
  rewrite !select_app, select_scan_events, select_rho_update
    by (done || by intros []).
  done.
Qed.

(** X5. In a run that settles on a reference material, the baseline is
    subtracted from every input channel exactly once, in the order of the
    channel list, always with the group "Baseline", and before any series is
    created, any spline requested or any error propagated. *)
Theorem baseline_before_outputs np v h st s rm :
  resolved h s = Some rm →
  ∃ pre post,
    trace (run np v h st s) =
      pre ++ (BaselineSubtract "Baseline" <$> timeSeriesList_Input h) ++ post
    ∧ select is_baselineSubtract pre = []
    ∧ select is_baselineSubtract post = []
    ∧ created pre = [] ∧ select is_createSpline pre = []
    ∧ propagations pre = [].
Proof.
  intros Hrm. rewrite (run_resolved_world np v h st s rm Hrm). cbn [trace].
  destruct (reduce_events_after_baseline np v h s (time_of h s) rm st)
    as (post & Hsplit & Hpost).
  exists (trace (after_resolution v st s
            (bool_decide (ReferenceMaterial s ∉
                          selectionGroupNames h data_ReferenceMaterial)) rm)
          ++ [SetIndexChannel (IndexChannel s)]), post.
  split; [by rewrite Hsplit, <- !app_assoc|].
  repeat apply conj.
  - rewrite select_app, select_after_resolution. by case_bool_decide.
  - done.
  - rewrite created_app, created_after_resolution. done.
  - rewrite select_app, select_after_resolution. by case_bool_decide.
  - rewrite propagations_app. by case_bool_decide.
Qed.

Lemma baseline_before_outputs_witness :
  ∃ pre post,
    trace (run numpy_special v4_9 sample_run_host ∅
               (default_settings "BHVO")) =
      pre ++ [BaselineSubtract "Baseline" "Nd143";
              BaselineSubtract "Baseline" "Nd146";
              BaselineSubtract "Baseline" "Sm147"] ++ post
    ∧ select is_baselineSubtract pre = []
    ∧ select is_baselineSubtract post = []
    ∧ created pre = [] ∧ select is_createSpline pre = []
    ∧ propagations pre = [].
Proof.
  exact (baseline_before_outputs numpy_special v4_9 sample_run_host ∅
           (default_settings "BHVO") "G_LREE" eq_refl).
Defined.

Lemma splines_of_std_events h st rm series key raw :
  select is_createSpline (std_events h st rm series key raw) =
  [CreateSpline rm series].
Proof. unfold std_events. by destruct (std_try _ _ _ _ _ _). Qed.

Lemma reduce_events_after_raw np v h s time rm st :
  ∃ post,
    reduce_events np v h s time rm st =
      ([SetIndexChannel (IndexChannel s)] ++
       (BaselineSubtract "Baseline" <$> timeSeriesList_Input h)) ++
      (create <$> raw_outputs np h s) ++ post ∧
    select is_createSpline post =
      [CreateSpline rm "Nd143_144_Corr"; CreateSpline rm "Sm147_Nd144_Corr"].
Proof.
  unfold reduce_events. eexists. split; [by rewrite <- app_assoc|].
  rewrite !select_app, !splines_of_std_events, select_create by done.
  rewrite select_propagation_events by (done || by intros []).
  unfold rho_series_events.
  rewrite !select_app, select_scan_events, select_rho_update
    by (done || by intros []).
  done.
Qed.

(** X6. In a run that settles on a reference material [rm], the two raw
    corrected ratios are the first series created, and both are created
    before any spline is requested; after them the spline of each is
    requested exactly once, for [rm], first for Nd143_144_Corr and then
    for Sm147_Nd144_Corr (also when the first standardization fails). *)
Theorem raw_ratios_before_splines np v h st s rm :
  resolved h s = Some rm →
  ∃ pre post,
    trace (run np v h st s) =
      pre ++
      [CreateTimeSeries "Nd143_144_Corr" (Nd143_144_Corr (engine_of np h s));
       CreateTimeSeries "Sm147_Nd144_Corr"
         (Sm147_Nd144_Corr (engine_of np h s))] ++ post
    ∧ created pre = [] ∧ select is_createSpline pre = []
    ∧ select is_createSpline post =
        [CreateSpline rm "Nd143_144_Corr";
         CreateSpline rm "Sm147_Nd144_Corr"].
Proof.
  intros Hrm. rewrite (run_resolved_world np v h st s rm Hrm). cbn [trace].
  destruct (reduce_events_after_raw np v h s (time_of h s) rm st)
    as (post & Hsplit & Hpost).
  exists (trace (after_resolution v st s
            (bool_decide (ReferenceMaterial s ∉
                          selectionGroupNames h data_ReferenceMaterial)) rm)
          ++ [SetIndexChannel (IndexChannel s)] ++
          (BaselineSubtract "Baseline" <$> timeSeriesList_Input h)), post.
  split; [by rewrite Hsplit, <- !app_assoc|].
  repeat apply conj; [| |done].
  - rewrite !created_app, created_after_resolution.
    by rewrite (created_silent (_ <$> _)) by auto with silent.
  - rewrite !select_app, select_after_resolution.
    rewrite select_baseline_fmap by done. by case_bool_decide.
Qed.

Lemma raw_ratios_before_splines_witness :
  ∃ pre post,
    trace (run numpy_special v4_8 sample_run_host ∅
               (default_settings "G_LREE")) =
      pre ++
      [CreateTimeSeries "Nd143_144_Corr"
         (Nd143_144_Corr (engine_of numpy_special sample_run_host
                            (default_settings "G_LREE")));
       CreateTimeSeries "Sm147_Nd144_Corr"
         (Sm147_Nd144_Corr (engine_of numpy_special sample_run_host
                              (default_settings "G_LREE")))] ++ post
    ∧ created pre = [] ∧ select is_createSpline pre = []
    ∧ select is_createSpline post =
        [CreateSpline "G_LREE" "Nd143_144_Corr";
         CreateSpline "G_LREE" "Sm147_Nd144_Corr"].
Proof.
  exact (raw_ratios_before_splines numpy_special v4_8 sample_run_host ∅
           (default_settings "G_LREE") "G_LREE" eq_refl).
Defined.

(** ** The loop over the groups never looks at Baseline groups *)

Lemma scan_filter np h st groups :
  scan_value np h st groups = scan_value np h st (filter not_Baseline groups)
  ∧ scan_events np h st groups =
    scan_events np h st (filter not_Baseline groups).
Proof.
  induction groups as [|sel rest [IHv IHe]]; [done|].
  rewrite filter_cons.
  destruct (decide (not_Baseline sel)) as [Hty|Hty]; unfold not_Baseline in Hty;
    cbn [scan_value scan_events].
  - rewrite !(decide_True (P := g_type sel ≠ data_Baseline)) by done.
    by rewrite IHv, IHe.
  - by rewrite !(decide_False (P := g_type sel ≠ data_Baseline)) by done.
Qed.

(** X7. The loop that looks for the first rho never evaluates a group of
    type Baseline: run on a list of groups or on that list with the Baseline
    groups removed, it returns the same value and leaves the same world
    (the same messages in particular). *)
Theorem scan_skips_baseline_groups np h groups w :
  scan_rho np h groups w = scan_rho np h (filter not_Baseline groups) w.
Proof.
  rewrite !scan_rho_run.
  by destruct (scan_filter np h (store w) groups) as [<- <-].
Qed.

(** ** A mask sample that is NaN *)

(** X8. At a sample where the mask is NaN, every masked product of the
    correction engine (and the guarded divisor) is NaN. *)
Theorem nan_mask_gives_nan np c inp n i :
  aligned n inp → i < n → mask inp !! i = Some NaN →
  nan_at i [SmFract (correction_engine np c inp);
            Sm144 (correction_engine np c inp);
            Sm148 (correction_engine np c inp);
            Nd144c (correction_engine np c inp);
            Nd148c (correction_engine np c inp);
            Nd144c_safe (correction_engine np c inp);
            NdFract (correction_engine np c inp);
            Nd143_144_Corr (correction_engine np c inp);
            Nd145_144_Corr (correction_engine np c inp);
            Nd148_144_Corr (correction_engine np c inp);
            Sm147_Nd144_Corr (correction_engine np c inp);
            TotalNd (correction_engine np c inp)].
Proof.
  intros Hal Hi Hm.
  destruct (correction_engine_length np c inp n Hal)
    as ((?&?&?&?&?&?&?&?&?&?&?) & ?).
  pose proof Hal as (?&?&?&?&?&?&?&?).
  assert (Nd144c (correction_engine np c inp) !! i = Some NaN) as H144
    by (rewrite eq_Nd144c; apply amul_nan_r; [done|alen]).
  unfold nan_at. repeat apply Forall_cons_2; [..|apply Forall_nil_2].
  - rewrite eq_SmFract. apply amul_nan_r; [done|].
    unfold measured_Sm147_149. alen.
  - rewrite eq_Sm144. apply amul_nan_r; [done|alen].
  - rewrite eq_Sm148. apply amul_nan_r; [done|alen].
  - done.
  - rewrite eq_Nd148c. apply amul_nan_r; [done|alen].
  - rewrite eq_Nd144c_safe. apply where_nan_nan; [done|alen].
  - rewrite eq_NdFract. apply amul_nan_r; [done|alen].
  - rewrite eq_Nd143_144_Corr. apply amul_nan_r; [done|alen].
  - rewrite eq_Nd145_144_Corr. apply amul_nan_r; [done|alen].
  - rewrite eq_Nd148_144_Corr. apply amul_nan_r; [done|alen].
  - rewrite eq_Sm147_Nd144_Corr. apply amul_nan_r; [done|alen].
  - rewrite eq_TotalNd. apply amul_nan_r; [done|alen].
Qed.

Lemma nan_mask_gives_nan_witness :
  nan_at 1
    [SmFract (correction_engine numpy_special zero_settings nan_mask_inputs);
     Sm144 (correction_engine numpy_special zero_settings nan_mask_inputs);
     Sm148 (correction_engine numpy_special zero_settings nan_mask_inputs);
     Nd144c (correction_engine numpy_special zero_settings nan_mask_inputs);
     Nd148c (correction_engine numpy_special zero_settings nan_mask_inputs);
     Nd144c_safe
       (correction_engine numpy_special zero_settings nan_mask_inputs);
     NdFract (correction_engine numpy_special zero_settings nan_mask_inputs);
     Nd143_144_Corr
       (correction_engine numpy_special zero_settings nan_mask_inputs);
     Nd145_144_Corr
       (correction_engine numpy_special zero_settings nan_mask_inputs);
     Nd148_144_Corr
       (correction_engine numpy_special zero_settings nan_mask_inputs);
     Sm147_Nd144_Corr
       (correction_engine numpy_special zero_settings nan_mask_inputs);
     TotalNd (correction_engine numpy_special zero_settings nan_mask_inputs)].
Proof.
  apply (nan_mask_gives_nan numpy_special zero_settings nan_mask_inputs 2 1).
  - repeat apply conj; reflexivity.
  - lia.
  - reflexivity.
Defined.

(** ** The guarded divisor *)

Lemma fne0_where x : fne0 (if fne0 x then x else NaN) = true.
Proof. by destruct (fne0 x) eqn:Hx. Qed.

Lemma where_nan_ane0_self (a : array) :
  Forall (λ x, fne0 x = true) (where_nan (ane0 a) a).
Proof.
  unfold where_nan, ane0. induction a as [|x a IH]; [constructor|].
  cbn [fmap list_fmap zip_with]. constructor; [apply fne0_where|done].
Qed.

Lemma where_nan_all_true (c : list bool) (q : array) :
  Forall (λ b, b = true) c → length q ≤ length c → where_nan c q = q.
Proof.
  unfold where_nan. intros Hc. revert q.
  induction Hc as [|b c -> _ IH]; intros [|x q] Hlen; simpl in *;
    try done; try lia.
  f_equal. apply IH. lia.
Qed.

(** X9. The guarded divisor Nd144c_safe is never zero: a sample of Nd144c
    that is not zero (NaN included) passes unchanged and a zero becomes NaN.
    Hence the second guard, in the Nd fractionation factor, never replaces
    anything: NdFract is computed from Nd146 / Nd144c_safe as it is. *)
Theorem guarded_divisor_never_zero np c inp n :
  aligned n inp →
  Forall (λ x, fne0 x = true) (Nd144c_safe (correction_engine np c inp)) ∧
  (∀ i x, Nd144c (correction_engine np c inp) !! i = Some x →
          Nd144c_safe (correction_engine np c inp) !! i =
            Some (if feq0 x then NaN else x)) ∧
  NdFract (correction_engine np c inp) =
    amul (divs (alog np (sdiv (NdTrue c)
                  (adiv (Nd146 inp)
                        (Nd144c_safe (correction_engine np c inp)))))
               (np_log np (fdiv c145_9131 c143_9098))) (mask inp).
Proof.
  intros Hal.
  destruct (correction_engine_length np c inp n Hal)
    as ((?&?&?&?&?&?&?&?&?&?&?) & Hsafe).
  pose proof Hal as (?&?&?&?&?&?&?&?).
  assert (Forall (λ x, fne0 x = true)
            (Nd144c_safe (correction_engine np c inp))) as Hne
    by (rewrite eq_Nd144c_safe; apply where_nan_ane0_self).
  split; [done|]. split.
  - intros i x Hx. rewrite eq_Nd144c_safe. unfold where_nan, ane0.
    rewrite (zip_with_at _ _ _ i (fne0 x) x);
      [|by rewrite list_lookup_fmap, Hx|done].
    unfold fne0, feq0. by destruct (SFeqb x fzero).
  - rewrite eq_NdFract. do 4 f_equal. apply where_nan_all_true.
    + unfold ane0. by apply Forall_fmap.
    + alen.
Qed.

Lemma guarded_divisor_never_zero_witness :
  Nd144c_safe (correction_engine numpy_special zero_settings zero_inputs)
    !! 1 = Some NaN ∧
  Forall (λ x, fne0 x = true)
    (Nd144c_safe (correction_engine numpy_special zero_settings zero_inputs)).
Proof.
  destruct (guarded_divisor_never_zero numpy_special zero_settings
              zero_inputs 2) as (Hne & Hat & _).
  - repeat apply conj; reflexivity.
  - split; [|exact Hne].
    rewrite (Hat 1 (S754_zero false)); [reflexivity|].
    vm_compute. reflexivity.
Defined.

(** ** rho after a failed standardization *)

Lemma andb_stretch_l (x : bool) (b : list bool) :
  x = false ∨ Forall (λ y, y = false) b →
  Forall (λ z, z = false) (andb x <$> b).
Proof.
  intros [-> | Hb]; apply Forall_fmap.
  - by apply Forall_true.
  - eapply Forall_impl; [exact Hb|]. intros ? ->. apply andb_false_r.
Qed.

Lemma andb_stretch_r (a : list bool) (y : bool) :
  y = false ∨ Forall (λ x, x = false) a →
  Forall (λ z, z = false) ((λ x, x && y) <$> a).
Proof.
  intros [-> | Ha]; apply Forall_fmap.
  - apply Forall_true. intros ?. apply andb_false_r.
  - eapply Forall_impl; [exact Ha|]. by intros ? ->.
Qed.

Lemma zip_andb_false (a b : list bool) :
  Forall (λ x, x = false) a ∨ Forall (λ y, y = false) b →
  Forall (λ z, z = false) (zip_with andb a b).
Proof.
  revert b. induction a as [|x a IH]; intros [|y b] H; simpl;
    try constructor.
  - destruct H as [H|H]; apply Forall_cons_1 in H as [-> _];
      [done|apply andb_false_r].
  - apply IH. destruct H as [H|H]; apply Forall_cons_1 in H as [_ H]; auto.
Qed.

Lemma broadcast2_inr {A B C} (f : A → B → C) a b c :
  broadcast2 f a b = inr c →
  c = zip_with f a b ∨ (∃ x, a = [x] ∧ c = f x <$> b) ∨
  (∃ y, b = [y] ∧ c = (λ x, f x y) <$> a).
Proof.
  unfold broadcast2. case_decide as Hlen; [intros [= <-]; by left|].
  destruct a as [|x [|x' a]], b as [|y [|y' b]]; try done;
    intros [= <-]; eauto.
Qed.

Lemma broadcast2_andb_false (a b c : list bool) :
  Forall (λ x, x = false) a ∨ Forall (λ y, y = false) b →
  broadcast2 andb a b = inr c → Forall (λ z, z = false) c.
Proof.
  intros H [-> | [(x & -> & ->) | (y & -> & ->)]]%broadcast2_inr.
  - by apply zip_andb_false.
  - apply andb_stretch_l. destruct H as [H|H]; [left|by right].
    by apply Forall_cons_1 in H as [-> _].
  - apply andb_stretch_r. destruct H as [H|H]; [by right|left].
    by apply Forall_cons_1 in H as [-> _].
Qed.

Lemma broadcast2_andb_false_l (a b c : list bool) :
  Forall (λ x, x = false) a → broadcast2 andb a b = inr c →
  Forall (λ x, x = false) c.
Proof. intros Ha. apply broadcast2_andb_false. by left. Qed.

Lemma broadcast2_andb_false_r (a b c : list bool) :
  Forall (λ x, x = false) b → broadcast2 andb a b = inr c →
  Forall (λ x, x = false) c.
Proof. intros Hb. apply broadcast2_andb_false. by right. Qed.

Lemma existsb_all_false (l : list bool) :
  Forall (λ x, x = false) l → existsb id l = false.
Proof. induction 1 as [|x l -> _ IH]; done. Qed.

(** With a series that is NaN throughout on either side, no pair is valid. *)
Lemma valid_mask_nan_side sm nd valid :
  Forall (λ x, isnan x = true) sm ∨ Forall (λ x, isnan x = true) nd →
  valid_mask sm nd = inr valid → existsb id valid = false.
Proof.
  intros Hnan. unfold valid_mask.
  destruct (broadcast2 andb ((λ x, negb (isnan x)) <$> sm)
              ((λ x, negb (isnan x)) <$> nd)) as [e|v1] eqn:H1; [done|].
  simpl.
  destruct (broadcast2 andb v1 (fgt0 <$> sm)) as [e|v2] eqn:H2; [done|].
  simpl. intros H3. apply existsb_all_false.
  apply (broadcast2_andb_false_l _ _ _) in H3; [done|].
  apply (broadcast2_andb_false_l _ _ _) in H2; [done|].
  destruct Hnan as [Hsm|Hnd].
  - apply (broadcast2_andb_false_l _ _ _) in H1; [done|].
    apply Forall_fmap. eapply Forall_impl; [exact Hsm|].
    intros x Hx. simpl. by rewrite Hx.
  - apply (broadcast2_andb_false_r _ _ _) in H1; [done|].
    apply Forall_fmap. eapply Forall_impl; [exact Hnd|].
    intros x Hx. simpl. by rewrite Hx.
Qed.

Lemma selection_of_nan h g (a b : array) :
  selects_samples h → Forall (λ x, isnan x = true) a →
  dataForSelection h g a = inr b → Forall (λ x, isnan x = true) b.
Proof.
  intros Hsel Ha Hb. apply Hsel in Hb. rewrite Forall_forall in Ha.
  eapply Forall_impl; [exact Hb|]. intros x Hx. by apply Ha.
Qed.

Lemma rho_value_nan_series np h st sel sm_series nd_series :
  selects_samples h →
  st !! "StdCorr_147Sm_144" = Some sm_series →
  st !! "StdCorr_143Nd_144" = Some nd_series →
  Forall (λ x, isnan x = true) sm_series ∨
  Forall (λ x, isnan x = true) nd_series →
  rho_value np h st sel = NaN.
Proof.
  intros Hsel Hsm Hnd Hnan. unfold rho_value, rho_try, data_timeSeries.
  rewrite Hsm, Hnd. simpl.
  destruct (dataForSelection h sel sm_series) as [e|sm] eqn:Esm; [done|].
  simpl.
  destruct (dataForSelection h sel nd_series) as [e|nd] eqn:End; [done|].
  simpl.
  destruct (valid_mask sm nd) as [e|valid] eqn:Evalid; [done|]. simpl.
  rewrite (valid_mask_nan_side sm nd valid); [done| |done].
  destruct Hnan as [Ha|Ha]; [left|right];
    by eapply selection_of_nan.
Qed.

Lemma store_at_scan_standardized np v h s time rm st :
  store_at_scan np v h s time rm st !! "StdCorr_147Sm_144" =
    Some (StdCorr_147Sm_144_of np h s st rm) ∧
  store_at_scan np v h s time rm st !! "StdCorr_143Nd_144" =
    Some (StdCorr_143Nd_144_of np h s st rm).
Proof.
  unfold store_at_scan, later_outputs.
  destruct v; cbn [app store_all foldl fst snd];
    split; rewrite ?lookup_insert_ne by done; apply lookup_insert_eq.
Qed.

(** X10. In a run that settles on a reference material, on a host whose
    selections take their samples from the series: if either standardization
    fails, the rho of every group is NaN, the flat rho series is never
    updated and holds NaN at every sample. *)
Theorem failed_standardization_gives_no_rho np v h st s rm e :
  resolved h s = Some rm →
  selects_samples h →
  std_try h (published np h s st) rm "Nd143_144_Corr" "143Nd/144Nd"
          (Nd143_144_Corr (engine_of np h s)) = inl e ∨
  std_try h (published np h s st) rm "Sm147_Nd144_Corr" "147Sm/144Nd"
          (Sm147_Nd144_Corr (engine_of np h s)) = inl e →
  (∀ g, rho_value np h (store_at_scan np v h s (time_of h s) rm st) g = NaN)
  ∧ store (run np v h st s) !! "rho" =
      Some (replicate (length (time_of h s)) NaN)
  ∧ updates (trace (run np v h st s)) = [].
Proof.
  intros Hrm Hsel Hfail.
  destruct (store_at_scan_standardized np v h s (time_of h s) rm st)
    as [H147 H143].
  assert (∀ g, rho_value np h (store_at_scan np v h s (time_of h s) rm st) g
               = NaN) as Hnan.
  { intros g. eapply rho_value_nan_series; [done..|].
    unfold StdCorr_147Sm_144_of, StdCorr_143Nd_144_of, std_value.
    destruct Hfail as [-> | ->]; [right|left];
      unfold full_like; by apply Forall_replicate. }
  split; [done|].
  destruct (rho_series_of_run np v h st s rm Hrm) as [Hstore _].
  rewrite Hstore, (updates_run np v h st s rm Hrm).
  unfold first_rho_val_of.
  rewrite (scan_value_all_nan np h _ (selectionGroupList h))
    by (intros g _ _; by rewrite Hnan).
  done.
Qed.

Lemma selects_samples_rho_host : selects_samples rho_host.
Proof.
  intros g a b. simpl. case_decide; [done|]. intros [= <-].
  by apply Forall_forall.
Qed.

Lemma failed_standardization_gives_no_rho_witness :
  store (run numpy_special v4_8
             (failing_host "Nd143_144_Corr" "no data" rho_host) ∅
             (default_settings "G_LREE")) !! "rho" = Some [NaN; NaN; NaN] ∧
  updates (trace (run numpy_special v4_8
                      (failing_host "Nd143_144_Corr" "no data" rho_host) ∅
                      (default_settings "G_LREE"))) = [].
Proof.
  destruct (failed_standardization_gives_no_rho numpy_special v4_8
              (failing_host "Nd143_144_Corr" "no data" rho_host) ∅
              (default_settings "G_LREE") "G_LREE" "no data" eq_refl)
    as (_ & Hstore & Hupd).
  - exact selects_samples_rho_host.
  - left. reflexivity.
  - split; [exact Hstore|exact Hupd].
Defined.

(** ** The flat rho series and the associated result *)

Lemma rho_try_frame np h st st' sel :
  st !! "StdCorr_147Sm_144" = st' !! "StdCorr_147Sm_144" →
  st !! "StdCorr_143Nd_144" = st' !! "StdCorr_143Nd_144" →
  rho_try np h st sel = rho_try np h st' sel.
Proof. unfold rho_try, data_timeSeries. by intros -> ->. Qed.

(** The registered function, called when the run is over, returns what the
    loop of the run computed. *)
Lemma rho_after_run np v h st s rm g :
  resolved h s = Some rm →
  (rho_corr_147Sm_143Nd np h g (run np v h st s)).1 =
  rho_value np h (store_at_scan np v h s (time_of h s) rm st) g.
Proof.
  intros Hrm. rewrite rho_corr_run. cbn [fst]. unfold rho_value.
  rewrite (rho_try_frame np h _
             (store_at_scan np v h s (time_of h s) rm st)); [done|..];
    rewrite (run_resolved_world np v h st s rm Hrm); cbn [store];
    unfold reduce_store; destruct (negb _); try done;
    by rewrite lookup_insert_ne.
Qed.

Lemma scan_value_found np h st groups :
  isnan (scan_value np h st groups) = false →
  ∃ g, g ∈ groups ∧ g_type g ≠ data_Baseline ∧
       rho_value np h st g = scan_value np h st groups.
Proof.
  induction groups as [|sel rest IH]; [done|]. simpl.
  case_decide as Hty.
  - destruct (isnan (rho_value np h st sel)) eqn:Hv; simpl.
    + intros (g & Hg & ?)%IH. exists g. split; [by constructor|done].
    + intros _. exists sel. split; [constructor|done].
  - intros (g & Hg & ?)%IH. exists g. split; [by constructor|done].
Qed.

Lemma elem_of_updates e tr :
  e ∈ tr → is_setData e = true → e ∈ updates tr.
Proof. intros Hin He. unfold updates. by apply list_elem_of_filter. Qed.

(** X11. In a run that settles on a reference material, the flat rho series
    agrees with the associated result as the host would evaluate it once the
    run is over: the series is updated if and only if some group that is not
    of type Baseline has an associated result that is not NaN, and the
    constant it is then filled with is the associated result of such a
    group. *)
Theorem flat_rho_is_an_associated_result np v h st s rm :
  resolved h s = Some rm →
  (updates (trace (run np v h st s)) = [] ↔
   ∀ g, g ∈ selectionGroupList h → g_type g ≠ data_Baseline →
        isnan (rho_corr_147Sm_143Nd np h g (run np v h st s)).1 = true) ∧
  (∀ values, SetData "rho" values ∈ trace (run np v h st s) →
     ∃ g, g ∈ selectionGroupList h ∧ g_type g ≠ data_Baseline ∧
          isnan (rho_corr_147Sm_143Nd np h g (run np v h st s)).1 = false ∧
          values =
            replicate (length (time_of h s))
              (rho_corr_147Sm_143Nd np h g (run np v h st s)).1 ∧
          store (run np v h st s) !! "rho" = Some values).
Proof.
  intros Hrm.
  pose proof (updates_run np v h st s rm Hrm) as Hupd.
  destruct (rho_series_of_run np v h st s rm Hrm) as [Hstore _].
  unfold first_rho_val_of in *.
  set (stS := store_at_scan np v h s (time_of h s) rm st) in *.
  split; [split|].
  - intros Hnone g Hg Hty. rewrite (rho_after_run np v h st s rm g Hrm).
    fold stS. rewrite Hnone in Hupd.
    destruct (isnan (scan_value np h stS (selectionGroupList h))) eqn:Hv;
      [|done].
    destruct (isnan (rho_value np h stS g)) eqn:Hg'; [done|].
    exfalso. apply list_elem_of_split in Hg as (pre & post & Hl).
    revert Hv. rewrite Hl. clear Hl Hupd Hstore.
    induction pre as [|sel pre IH]; simpl.
    + rewrite decide_True by done. rewrite Hg'. simpl. by rewrite Hg'.
    + case_decide; [|done].
      destruct (isnan (rho_value np h stS sel)) eqn:Hsel; simpl; [done|].
      by rewrite Hsel.
  - intros Hall. rewrite Hupd.
    rewrite (scan_value_all_nan np h stS (selectionGroupList h)); [done|].
    intros g Hg Hty. unfold stS.
    rewrite <- (rho_after_run np v h st s rm g Hrm). by apply Hall.
  - intros values Hin. apply elem_of_updates in Hin; [|done].
    rewrite Hupd in Hin.
    destruct (isnan (scan_value np h stS (selectionGroupList h))) eqn:Hv;
      [by apply elem_of_nil in Hin|].
    apply list_elem_of_singleton in Hin. injection Hin as ->.
    destruct (scan_value_found np h stS _ Hv) as (g & Hg & Hty & Hval).
    exists g. rewrite (rho_after_run np v h st s rm g Hrm). fold stS.
    rewrite Hval. repeat split; try done.
Qed.

Lemma flat_rho_is_an_associated_result_witness :
  ∃ g, g ∈ rho_groups ∧ g_type g ≠ data_Baseline ∧
       isnan (rho_corr_147Sm_143Nd numpy_special rho_host g
                (run numpy_special v4_9 rho_host ∅
                     (default_settings "G_LREE"))).1 = false ∧
       replicate 3 (S754_finite false 8888110961930328 (-53)) =
         replicate 3
           (rho_corr_147Sm_143Nd numpy_special rho_host g
              (run numpy_special v4_9 rho_host ∅
                   (default_settings "G_LREE"))).1 ∧
       store (run numpy_special v4_9 rho_host ∅ (default_settings "G_LREE"))
         !! "rho" = Some (replicate 3 (S754_finite false 8888110961930328 (-53))).
Proof.
  destruct (flat_rho_is_an_associated_result numpy_special v4_9 rho_host ∅
              (default_settings "G_LREE") "G_LREE" eq_refl) as [_ Hset].
  apply (Hset (replicate 3 (S754_finite false 8888110961930328 (-53)))).
  apply list_elem_of_lookup. exists 20. vm_compute. reflexivity.
Defined.

(** ** The length of the output series *)

Lemma std_value_length h st rm series key raw n :
  splines_have n h → length raw = n →
  length (std_value h st rm series key raw) = n.
Proof.
  intros Hspl Hraw. unfold std_value.
  destruct (std_try h st rm series key raw) as [e|q] eqn:Htry;
    [by rewrite length_full_like|].
  unfold std_try in Htry.
  destruct (createSpline h rm series st); [done|].
  destruct (spline_data h rm series st) as [e|spline] eqn:Hs; [done|].
  apply Hspl in Hs. simpl in Htry.
  destruct (referenceMaterialData h rm key) as [e|std]; [done|].
  simpl in Htry. unfold std_quotient, broadcast2 in Htry.
  rewrite decide_True in Htry by alen. injection Htry as <-.
  rewrite length_zip_with. alen.
Qed.

Lemma output_lengths np v h st s rm n :
  aligned n (inputs_of h s) → splines_have n h →
  Forall (λ p : string * array, length p.2 = n)
    (raw_outputs np h s ++ later_outputs np v h s st rm).
Proof.
  intros Hal Hspl.
  destruct (correction_engine_length np s (inputs_of h s) n Hal)
    as ((?&?&?&?&?&?&?&?&?&?&?) & ?).
  unfold raw_outputs, later_outputs, StdCorr_147Sm_144_of,
    StdCorr_143Nd_144_of, engine_of in *.
  destruct v; cbn [app]; repeat apply Forall_cons_2;
    try apply Forall_nil_2; cbn [snd]; try done;
    by apply std_value_length.
Qed.

Lemma output_names_created np v h s st rm name :
  name ∈ output_names v → name ≠ "rho" →
  ∃ values,
    (name, values) ∈ raw_outputs np h s ++ later_outputs np v h s st rm.
Proof.
  intros Hin Hne. unfold output_names, raw_outputs, later_outputs in *.
  destruct v; cbn [app] in *;
    repeat (apply elem_of_cons in Hin as [->|Hin];
            [try done; eexists; apply list_elem_of_lookup;
             first [ by exists 0 | by exists 1 | by exists 2 | by exists 3
                   | by exists 4 | by exists 5 | by exists 6 | by exists 7
                   | by exists 8 | by exists 9 ]|]);
    by apply elem_of_nil in Hin.
Qed.

(** X12. In a run that settles on a reference material, if the eight input
    arrays and the time axis have [n] samples and every spline the host
    returns has [n] samples, then every series the run creates has [n]
    samples, and so has every output series in the store at the end (a
    standardized series also when its block failed, rho also after its
    update). *)
Theorem outputs_share_the_time_axis np v h st s rm n :
  resolved h s = Some rm →
  aligned n (inputs_of h s) →
  length (time_of h s) = n →
  splines_have n h →
  Forall (λ p : string * array, length p.2 = n)
    (created (trace (run np v h st s))) ∧
  (∀ name values,
     name ∈ output_names v →
     store (run np v h st s) !! name = Some values → length values = n).
Proof.
  intros Hrm Hal Htime Hspl.
  pose proof (output_lengths np v h st s rm n Hal Hspl) as Hlen. split.
  - rewrite (created_run _ _ _ _ _ rm Hrm), app_assoc.
    apply Forall_app. split; [done|].
    repeat constructor. cbn [snd]. by rewrite length_full_like.
  - intros name values Hin Hstore.
    destruct (decide (name = "rho")) as [->|Hne].
    + destruct (rho_series_of_run np v h st s rm Hrm) as [Hrho _].
      rewrite Hrho in Hstore. injection Hstore as <-.
      by rewrite length_full_like.
    + destruct (output_names_created np v h s st rm name Hin Hne)
        as [a Ha].
      rewrite (run_resolved_world np v h st s rm Hrm) in Hstore.
      cbn [store] in Hstore.
      rewrite (reduce_store_created _ _ _ _ _ _ _ _ _ Ha) in Hstore.
      injection Hstore as <-.
      rewrite Forall_forall in Hlen. apply (Hlen _ Ha).
Qed.

Lemma splines_have_rho_host : splines_have 3 rho_host.
Proof.
  intros rm series st spline. simpl. by case_decide; intros [= <-].
Qed.

Lemma outputs_share_the_time_axis_witness :
  Forall (λ p : string * array, length p.2 = 3)
    (created (trace (run numpy_special v4_8 rho_host ∅
                         (default_settings "G_LREE")))) ∧
  length (default [] (store (run numpy_special v4_8 rho_host ∅
                                 (default_settings "G_LREE")) !! "rho")) = 3.
Proof.
  destruct (outputs_share_the_time_axis numpy_special v4_8 rho_host ∅
              (default_settings "G_LREE") "G_LREE" 3 eq_refl)
    as [Hcreated Hstore].
  - repeat apply conj; reflexivity.
  - reflexivity.
  - exact splines_have_rho_host.
  - split; [exact Hcreated|].
    apply (Hstore "rho"); [|vm_compute; reflexivity].
    apply list_elem_of_lookup. exists 10. reflexivity.
Defined.

(** ** v4.8 and v4.9 side by side *)

Lemma store_at_scan_versions np h s time rm st :
  store_at_scan np v4_8 h s time rm st = store_at_scan np v4_9 h s time rm st.
Proof.
  unfold store_at_scan, later_outputs, published.
  cbn [app store_all foldl fst snd]. do 6 f_equal.
  apply insert_id. by rewrite !lookup_insert_ne, lookup_insert_eq by done.
Qed.

Lemma rho_series_events_versions np h s time rm st :
  rho_series_events np v4_8 h s time rm st =
  rho_series_events np v4_9 h s time rm st.
Proof.
  unfold rho_series_events, first_rho_val_of.
  by rewrite store_at_scan_versions.
Qed.

Lemma created_select_call l : created (select is_call l) = created l.
Proof.
  induction l as [|e l IH]; [done|]. unfold select in *.
  rewrite filter_cons. destruct e; simpl; by rewrite ?IH.
Qed.

Lemma select_call_after_resolution v st s b rm :
  select is_call (trace (after_resolution v st s b rm)) =
  Progress 0 :: (if b then [SetSetting "ReferenceMaterial" rm] else []).
Proof. by destruct b. Qed.

(** The events of the reduction proper, around the place where v4.8 creates
    Nd143_144_Corr again. *)
Lemma reduce_events_versions np h s time rm st :
  PropagateError s = false →
  ∃ before after,
    reduce_events np v4_9 h s time rm st = before ++ after ∧
    reduce_events np v4_8 h s time rm st =
      before ++
      CreateTimeSeries "Nd143_144_Corr" (Nd143_144_Corr (engine_of np h s))
      :: after ∧
    created before =
      raw_outputs np h s ++
      [("StdCorr_147Sm_144", StdCorr_147Sm_144_of np h s st rm);
       ("StdCorr_143Nd_144", StdCorr_143Nd_144_of np h s st rm)].
Proof.
  intros Hprop.
  exists
    ([SetIndexChannel (IndexChannel s)] ++
     (BaselineSubtract "Baseline" <$> timeSeriesList_Input h) ++
     (create <$> raw_outputs np h s) ++
     std_events h (published np h s st) rm "Nd143_144_Corr" "143Nd/144Nd"
                (Nd143_144_Corr (engine_of np h s)) ++
     std_events h (published np h s st) rm "Sm147_Nd144_Corr" "147Sm/144Nd"
                (Sm147_Nd144_Corr (engine_of np h s)) ++
     (create <$>
        [("StdCorr_147Sm_144", StdCorr_147Sm_144_of np h s st rm);
         ("StdCorr_143Nd_144", StdCorr_143Nd_144_of np h s st rm)])),
    ((create <$>
        [("Nd145_144_Corr", Nd145_144_Corr (engine_of np h s));
         ("Nd148_144_Corr", Nd148_144_Corr (engine_of np h s));
         ("NdFract", NdFract (engine_of np h s));
         ("SmFract", SmFract (engine_of np h s));
         ("TotalNd", TotalNd (engine_of np h s))]) ++
     [RegisterAssociatedResult
        "log10(StdCorr_147Sm/144Nd) vs log10(StdCorr_143Nd/144Nd) rho";
      CreateTimeSeries "rho" (full_like time NaN)] ++
     rho_series_events np v4_9 h s time rm st ++
     [Progress 100; Message "Finished!"; Finished]).
  repeat apply conj.
  - unfold reduce_events, later_outputs, propagation_events.
    rewrite !fmap_app, <- !app_assoc. reflexivity.
  - unfold reduce_events, later_outputs, propagation_events.
    rewrite Hprop, rho_series_events_versions.
    rewrite !fmap_app, <- !app_assoc. reflexivity.
  - rewrite !created_app, !created_create.
    by rewrite !created_silent by auto with silent.
Qed.

(** X13. With error propagation switched off (the setting is there and is
    False), v4.8 makes the host calls of v4.9, in the same order and with
    the same arguments, and one more: the second creation of Nd143_144_Corr,
    right after the four series created first.  Messages apart, whose texts
    differ. *)
Theorem versions_make_the_same_calls np h st s :
  PropagateError s = false →
  (resolved h s = None →
   select is_call (trace (run np v4_8 h st s)) =
   select is_call (trace (run np v4_9 h st s))) ∧
  (∀ rm, resolved h s = Some rm →
   ∃ pre post,
     select is_call (trace (run np v4_9 h st s)) = pre ++ post ∧
     select is_call (trace (run np v4_8 h st s)) =
       pre ++
       CreateTimeSeries "Nd143_144_Corr" (Nd143_144_Corr (engine_of np h s))
       :: post ∧
     (created pre).*1 =
       ["Nd143_144_Corr"; "Sm147_Nd144_Corr"; "StdCorr_147Sm_144";
        "StdCorr_143Nd_144"]).
Proof.
  intros Hprop. split.
  - intros Hrm. by rewrite !(run_aborted np _ h st s Hrm).
  - intros rm Hrm.
    rewrite !(run_resolved_world np _ h st s rm Hrm). cbn [trace].
    destruct (reduce_events_versions np h s (time_of h s) rm st Hprop)
      as (before & after & -> & -> & Hcreated).
    rewrite !select_app, !select_call_after_resolution.
    eexists (_ ++ select is_call before), (select is_call after).
    split; [by rewrite <- app_assoc|]. split; [by rewrite <- app_assoc|].
    rewrite created_app, created_select_call, Hcreated.
    by case_bool_decide.
Qed.

Lemma versions_make_the_same_calls_witness :
  ∃ pre post,
    select is_call
      (trace (run numpy_special v4_9 sample_run_host ∅
                  (set_PropagateError false (default_settings "G_LREE")))) =
      pre ++ post ∧
    select is_call
      (trace (run numpy_special v4_8 sample_run_host ∅
                  (set_PropagateError false (default_settings "G_LREE")))) =
      pre ++
      CreateTimeSeries "Nd143_144_Corr"
        (Nd143_144_Corr
           (engine_of numpy_special sample_run_host
              (set_PropagateError false (default_settings "G_LREE"))))
      :: post ∧
    (created pre).*1 =
      ["Nd143_144_Corr"; "Sm147_Nd144_Corr"; "StdCorr_147Sm_144";
       "StdCorr_143Nd_144"].
Proof.
  destruct (versions_make_the_same_calls numpy_special sample_run_host ∅
              (set_PropagateError false (default_settings "G_LREE"))
              eq_refl) as [_ Hsame].
  exact (Hsame "G_LREE" eq_refl).
Defined.

(** ** A standardization that succeeds *)

(** X14. When creating the spline, evaluating it and looking up the accepted
    value all succeed, and the spline has as many samples as the raw ratio,
    the standardization block logs no warning and returns, sample by sample,
    [raw * std / spline], or NaN where the spline is zero. *)
Theorem standardization_success h rm series key raw spline std w :
  createSpline h rm series (store w) = None →
  spline_data h rm series (store w) = inr spline →
  referenceMaterialData h rm key = inr std →
  length spline = length raw →
  ∃ StdCorr,
    standardize h rm series key raw w =
      (StdCorr, add_events [CreateSpline rm series] w) ∧
    length StdCorr = length raw ∧
    ∀ i r p, raw !! i = Some r → spline !! i = Some p →
      StdCorr !! i = Some (if feq0 p then NaN else fdiv (fmul r std) p).
Proof.
  intros Hcreate Hspline Hstd Hlen.
  rewrite standardize_run. unfold std_value, std_events, std_try.
  rewrite Hcreate, Hspline. simpl. rewrite Hstd. simpl.
  unfold std_quotient, broadcast2. rewrite decide_True by alen.
  eexists. split; [done|]. split; [rewrite length_zip_with; alen|].
  intros i r p Hr Hp.
  rewrite (zip_with_at fdiv _ _ i (fmul r std) (if fne0 p then p else NaN)).
  - unfold fne0, feq0. destruct (SFeqb p fzero); simpl; [|done].
    by rewrite fdiv_nan_r.
  - unfold muls. by rewrite list_lookup_fmap, Hr.
  - unfold where_nan, ane0.
    rewrite (zip_with_at _ _ _ i (fne0 p) p);
      [done|by rewrite list_lookup_fmap, Hp|done].
Qed.

Lemma standardization_success_witness :
  ∃ StdCorr,
    standardize sample_run_host "G_LREE" "Nd143_144_Corr" "143Nd/144Nd"
      [c600; c400]
      (initial {["Nd143_144_Corr" := [fzero; c2_0]]}
               (default_settings "G_LREE")) =
      (StdCorr,
       add_events [CreateSpline "G_LREE" "Nd143_144_Corr"]
         (initial {["Nd143_144_Corr" := [fzero; c2_0]]}
                  (default_settings "G_LREE"))) ∧
    length StdCorr = 2 ∧
    StdCorr !! 0 = Some NaN.
Proof.
  destruct (standardization_success sample_run_host "G_LREE"
              "Nd143_144_Corr" "143Nd/144Nd" [c600; c400] [fzero; c2_0]
              c0_512
              (initial {["Nd143_144_Corr" := [fzero; c2_0]]}
                       (default_settings "G_LREE")))
    as (StdCorr & Hrun & Hlen & Hat);
    [reflexivity|vm_compute; reflexivity|reflexivity|reflexivity|].
  exists StdCorr. split; [exact Hrun|]. split; [exact Hlen|].
  apply (Hat 0 c600 fzero); reflexivity.
Defined.

(** ** Claim C6: rho on inputs scaled by ten *)

(** *** Ten times a binary64 value

    The product of a finite binary64 value and 10 is computed by
    [binary_round_aux] from a mantissa of at least 53 bits: it cannot round
    to zero, and it keeps the sign. *)

Lemma digits2_pos_lower p : (2 ^ (Z.pos (digits2_pos p) - 1) ≤ Z.pos p)%Z.
Proof.
  induction p as [p IH|p IH|]; simpl digits2_pos;
    rewrite ?Pos2Z.inj_succ; [| |done].
  - replace (Z.succ (Z.pos (digits2_pos p)) - 1)%Z
      with (Z.succ (Z.pos (digits2_pos p) - 1)) by lia.
    rewrite Z.pow_succ_r by lia. lia.
  - replace (Z.succ (Z.pos (digits2_pos p)) - 1)%Z
      with (Z.succ (Z.pos (digits2_pos p) - 1)) by lia.
    rewrite Z.pow_succ_r by lia. lia.
Qed.

Lemma digits2_pos_upper p : (Z.pos p < 2 ^ Z.pos (digits2_pos p))%Z.
Proof.
  induction p as [p IH|p IH|]; simpl digits2_pos;
    rewrite ?Pos2Z.inj_succ, ?Z.pow_succ_r by lia; [lia|lia|done].
Qed.

Lemma shr_m_shr_1 mrs :
  (0 ≤ shr_m mrs)%Z → shr_m (shr_1 mrs) = (shr_m mrs / 2)%Z.
Proof.
  destruct mrs as [[|[p|p|]|p] r s]; simpl; intros Hm; try done.
  - apply (Z.div_unique _ _ _ 1); lia.
  - apply (Z.div_unique _ _ _ 0); lia.
Qed.

Lemma shr_m_iter_pos p : ∀ mrs,
  (0 ≤ shr_m mrs)%Z →
  shr_m (SpecFloat.iter_pos shr_1 p mrs) = (shr_m mrs / 2 ^ Z.pos p)%Z.
Proof.
  induction p as [p IH|p IH|]; intros mrs Hm; simpl SpecFloat.iter_pos.
  - assert (0 ≤ shr_m (shr_1 mrs))%Z as H1
      by (rewrite shr_m_shr_1 by done; apply Z.div_pos; lia).
    assert (0 ≤ shr_m (SpecFloat.iter_pos shr_1 p (shr_1 mrs)))%Z as H2
      by (rewrite IH by done; apply Z.div_pos; lia).
    rewrite !IH, shr_m_shr_1 by done.
    rewrite !Z.div_div by lia. f_equal.
    rewrite Pos2Z.inj_xI, <- !Z.pow_add_r, <- (Z.pow_succ_r 2) by lia.
    f_equal. lia.
  - assert (0 ≤ shr_m (SpecFloat.iter_pos shr_1 p mrs))%Z as H2
      by (rewrite IH by done; apply Z.div_pos; lia).
    rewrite !IH by done.
    rewrite !Z.div_div by lia. f_equal.
    rewrite Pos2Z.inj_xO, <- Z.pow_add_r by lia. f_equal. lia.
  - by rewrite shr_m_shr_1.
Qed.

(** A positive mantissa above the smallest subnormal keeps a positive
    mantissa through the shift to the canonical exponent. *)
Lemma shr_fexp_pos m e l mrs' e' :
  (0 < m)%Z → (SpecFloat.emin prec emax < Zdigits2 m + e)%Z →
  shr_fexp prec emax m e l = (mrs', e') →
  (0 < shr_m mrs')%Z ∧ (SpecFloat.emin prec emax ≤ e')%Z.
Proof.
  intros Hm He. unfold shr_fexp, shr.
  assert (shr_m (shr_record_of_loc m l) = m) as Hrec
    by (by destruct l as [|[]]).
  destruct m as [|p|p]; [lia| |lia]. simpl Zdigits2 in *.
  unfold fexp, SpecFloat.emin, prec, emax in *.
  destruct (Z.max (Z.pos (digits2_pos p) + e - 53) (3 - 1024 - 53) - e)%Z
    as [|q|q] eqn:Hn; intros [= <- <-].
  - rewrite Hrec. lia.
  - rewrite shr_m_iter_pos by (rewrite Hrec; lia). rewrite Hrec.
    split; [|lia].
    apply Z.div_str_pos. split; [lia|].
    etrans; [|apply digits2_pos_lower].
    apply Z.pow_le_mono_r; lia.
  - rewrite Hrec. lia.
Qed.

Lemma round_nearest_even_pos m l :
  (0 < m)%Z → (0 < round_nearest_even m l)%Z.
Proof.
  destruct l as [|[]]; simpl; try done; [destruct (Z.even m)|]; lia.
Qed.

Lemma binary_round_aux_pos sx p ex :
  (SpecFloat.emin prec emax < Z.pos (digits2_pos p) + ex)%Z →
  (∃ m e, binary_round_aux prec emax sx (Z.pos p) ex loc_Exact
          = S754_finite sx m e) ∨
  binary_round_aux prec emax sx (Z.pos p) ex loc_Exact = S754_infinity sx.
Proof.
  intros He. unfold binary_round_aux.
  destruct (shr_fexp prec emax (Z.pos p) ex loc_Exact) as [mrs' e'] eqn:H1.
  apply shr_fexp_pos in H1 as [Hm1 He1]; [|done|done].
  pose proof (round_nearest_even_pos _ (loc_of_shr_record mrs') Hm1) as Hm2.
  destruct (shr_fexp prec emax _ e' loc_Exact) as [mrs'' e''] eqn:H2.
  apply shr_fexp_pos in H2 as [Hm3 He3]; [|done|].
  - destruct (shr_m mrs'') as [|m|m]; [lia| |lia].
    destruct (e'' <=? emax - prec)%Z; [left; by eauto|by right].
  - destruct (round_nearest_even _ _) as [|q|q]; [lia| |lia].
    simpl. lia.
Qed.

Lemma fmul10_finite s m e :
  bounded prec emax m e = true →
  (∃ m' e', fmul c10_0 (S754_finite s m e) = S754_finite s m' e') ∨
  fmul c10_0 (S754_finite s m e) = S754_infinity s.
Proof.
  intros [Hcan _]%andb_prop. unfold fmul, c10_0. cbn [SFmul xorb].
  apply binary_round_aux_pos.
  unfold canonical_mantissa in Hcan. apply Z.eqb_eq in Hcan.
  assert (52 < Z.pos (digits2_pos (5629499534213120 * m)))%Z.
  { pose proof (digits2_pos_upper (5629499534213120 * m)) as Hup.
    rewrite Pos2Z.inj_mul in Hup.
    apply Z.nle_gt. intros Hle.
    apply (Z.pow_le_mono_r 2) in Hle; lia. }
  unfold fexp, SpecFloat.emin, prec, emax in *. lia.
Qed.

Lemma isnan_times10 x : binary64 x → isnan (fmul c10_0 x) = isnan x.
Proof.
  destruct x as [s|s| |s m e]; try done. intros Hx.
  by destruct (fmul10_finite s m e Hx) as [(m' & e' & ->)| ->].
Qed.

Lemma fgt0_times10 x : binary64 x → fgt0 (fmul c10_0 x) = fgt0 x.
Proof.
  destruct x as [s|s| |s m e]; try done. intros Hx.
  by destruct (fmul10_finite s m e Hx) as [(m' & e' & ->)| ->].
Qed.

(** *** The validity mask and the valid subsets *)

Lemma valid_mask_times10 sm nd :
  Forall binary64 sm → Forall binary64 nd →
  valid_mask (times10 sm) (times10 nd) = valid_mask sm nd.
Proof.
  intros Hsm Hnd. unfold valid_mask, times10.
  rewrite <- !list_fmap_compose.
  assert (∀ a, Forall binary64 a →
            ((λ x, negb (isnan x)) ∘ fmul c10_0) <$> a =
            (λ x, negb (isnan x)) <$> a) as Hnan.
  { intros a Ha. apply Forall_fmap_ext. eapply Forall_impl; [exact Ha|].
    intros x Hx. simpl. by rewrite isnan_times10. }
  assert (∀ a, Forall binary64 a →
            (fgt0 ∘ fmul c10_0) <$> a = fgt0 <$> a) as Hgt.
  { intros a Ha. apply Forall_fmap_ext. eapply Forall_impl; [exact Ha|].
    intros x Hx. simpl. by rewrite fgt0_times10. }
  by rewrite !Hnan, !Hgt.
Qed.

Lemma bool_index_fmap {A B} (f : A → B) (a : list A) (m : list bool) :
  bool_index (f <$> a) m =
  match bool_index a m with inr l => inr (f <$> l) | inl e => inl e end.
Proof.
  unfold bool_index. rewrite length_fmap. case_decide; [|done].
  f_equal. clear. revert m.
  induction a as [|x a IH]; intros [|b m]; try done.
  cbn [fmap list_fmap zip zip_with]. rewrite !filter_cons. cbn [snd].
  destruct (decide (b = true)); cbn [fmap list_fmap fst];
    by rewrite <- IH.
Qed.

Lemma selected_inr h st sel name a :
  selected h st sel name = inr a →
  ∃ ts, st !! name = Some ts ∧ dataForSelection h sel ts = inr a.
Proof.
  unfold selected, data_timeSeries.
  destruct (st !! name) as [ts|]; [|done]. simpl. by exists ts.
Qed.

(** The [try] block once both extractions have succeeded. *)
Lemma rho_try_selected np h st sel sm nd :
  selected h st sel "StdCorr_147Sm_144" = inr sm →
  selected h st sel "StdCorr_143Nd_144" = inr nd →
  rho_try np h st sel =
  valid ← valid_mask sm nd;
  if existsb id valid then
    sm_valid ← bool_index sm valid;
    nd_valid ← bool_index nd valid;
    np_corrcoef01 np (np_log10 np <$> sm_valid) (np_log10 np <$> nd_valid)
  else inr NaN.
Proof.
  intros (ts_sm & Hts1 & Hsm)%selected_inr (ts_nd & Hts2 & Hnd)%selected_inr.
  unfold rho_try, data_timeSeries.
  rewrite Hts1; simpl. rewrite Hsm; simpl. rewrite Hts2; simpl.
  by rewrite Hnd.
Qed.

Lemma rho_try_times10 np h st st' sel sm nd :
  selected h st sel "StdCorr_147Sm_144" = inr sm →
  selected h st sel "StdCorr_143Nd_144" = inr nd →
  selected h st' sel "StdCorr_147Sm_144" = inr (times10 sm) →
  selected h st' sel "StdCorr_143Nd_144" = inr (times10 nd) →
  Forall binary64 sm → Forall binary64 nd →
  rho_try np h st' sel = rho_try (log10_of_times10 np) h st sel.
Proof.
  intros Hsm Hnd Hsm' Hnd' Bsm Bnd.
  rewrite (rho_try_selected np h st' sel _ _ Hsm' Hnd').
  rewrite (rho_try_selected _ h st sel _ _ Hsm Hnd).
  rewrite (valid_mask_times10 sm nd Bsm Bnd).
  destruct (valid_mask sm nd) as [e|valid]; [done|]. simpl.
  destruct (existsb id valid); [|done].
  unfold times10. rewrite !bool_index_fmap.
  destruct (bool_index sm valid) as [e|sm_valid]; [done|]. simpl.
  destruct (bool_index nd valid) as [e|nd_valid]; [done|]. simpl.
  by rewrite <- !list_fmap_compose.
Qed.

Lemma valid_pair_times10 x y :
  binary64 x → binary64 y →
  valid_pair (fmul c10_0 x, fmul c10_0 y) = valid_pair (x, y).
Proof.
  intros Hx Hy. unfold valid_pair. cbn [fst snd].
  by rewrite !isnan_times10, !fgt0_times10.
Qed.

Lemma valid_pairs_times10 sm nd :
  Forall binary64 sm → Forall binary64 nd →
  valid_pairs (times10 sm) (times10 nd) =
  (λ p, (fmul c10_0 p.1, fmul c10_0 p.2)) <$> valid_pairs sm nd.
Proof.
  intros Hsm. revert nd. unfold valid_pairs, times10.
  induction Hsm as [|x sm Hx Hsm IH]; intros nd Hnd; [done|].
  destruct Hnd as [|y nd Hy Hnd]; [done|].
  cbn [fmap list_fmap zip zip_with]. rewrite !filter_cons.
  rewrite (valid_pair_times10 x y Hx Hy).
  specialize (IH nd Hnd). cbn [fmap list_fmap zip zip_with] in IH.
  destruct (decide (valid_pair (x, y) = true));
    cbn [fmap list_fmap fst snd]; by rewrite IH.
Qed.

(** When a product [10 * x] of a valid pair is infinite, the coefficient of
    the scaled inputs is NaN. *)
Lemma rho_value_overflow np h st' sel sm nd x y :
  selected h st' sel "StdCorr_147Sm_144" = inr (times10 sm) →
  selected h st' sel "StdCorr_143Nd_144" = inr (times10 nd) →
  Forall binary64 sm → Forall binary64 nd →
  length sm = length nd → inf_gives_nan np →
  (x, y) ∈ valid_pairs sm nd →
  fmul c10_0 x = pinf ∨ fmul c10_0 y = pinf →
  rho_value np h st' sel = NaN.
Proof.
  intros (ts_sm & Hts1 & Hsm)%selected_inr (ts_nd & Hts2 & Hnd)%selected_inr
    Bsm Bnd Hlen [Hlog Hcorr] Hin Hinf.
  unfold rho_value.
  rewrite (rho_try_extracted np h st' sel ts_sm ts_nd _ _ Hts1 Hsm Hts2 Hnd)
    by (unfold times10; by rewrite !length_fmap).
  rewrite (valid_pairs_times10 sm nd Bsm Bnd).
  case_bool_decide; [done|].
  rewrite Hcorr; [done|by rewrite !length_fmap|].
  destruct Hinf as [Hx|Hy]; [left|right]; rewrite <- Hlog.
  - apply list_elem_of_fmap. exists pinf. split; [done|].
    apply list_elem_of_fmap. exists (fmul c10_0 x, fmul c10_0 y).
    split; [done|].
    apply list_elem_of_fmap. by exists (x, y).
  - apply list_elem_of_fmap. exists pinf. split; [done|].
    apply list_elem_of_fmap. exists (fmul c10_0 x, fmul c10_0 y).
    split; [done|].
    apply list_elem_of_fmap. by exists (x, y).
Qed.

(** *** [pearson] on a series that holds an infinite sample *)

Lemma fadd_pinf_r acc : fadd acc pinf = pinf ∨ fadd acc pinf = NaN.
Proof. destruct acc as [[]|[]| |]; auto. Qed.

Lemma fadd_pinf_l y : fadd pinf y = pinf ∨ fadd pinf y = NaN.
Proof. destruct y as [[]|[]| |]; auto. Qed.

Lemma fadd_nan_l y : fadd NaN y = NaN.
Proof. done. Qed.

Lemma fadd_nan_r x : fadd x NaN = NaN.
Proof. by destruct x. Qed.

Lemma foldl_fadd_nan l : foldl fadd NaN l = NaN.
Proof. induction l as [|x l IH]; [done|]. simpl. by rewrite fadd_nan_l. Qed.

Lemma foldl_fadd_pinf l :
  foldl fadd pinf l = pinf ∨ foldl fadd pinf l = NaN.
Proof.
  induction l as [|x l IH]; [by left|]. simpl.
  destruct (fadd_pinf_l x) as [-> | ->]; [done|].
  right. apply foldl_fadd_nan.
Qed.

Lemma foldl_fadd_has_pinf l : ∀ acc,
  pinf ∈ l → foldl fadd acc l = pinf ∨ foldl fadd acc l = NaN.
Proof.
  induction l as [|x l IH]; intros acc Hin; [by apply elem_of_nil in Hin|].
  simpl. apply elem_of_cons in Hin as [<-|Hin]; [|by apply IH].
  destruct (fadd_pinf_r acc) as [-> | ->];
    [apply foldl_fadd_pinf|right; apply foldl_fadd_nan].
Qed.

Lemma foldl_fadd_has_nan l : ∀ acc, NaN ∈ l → foldl fadd acc l = NaN.
Proof.
  induction l as [|x l IH]; intros acc Hin; [by apply elem_of_nil in Hin|].
  simpl. apply elem_of_cons in Hin as [<-|Hin]; [|by apply IH].
  rewrite fadd_nan_r. apply foldl_fadd_nan.
Qed.

Lemma binary_round_aux_sign sx m e l :
  match binary_round_aux prec emax sx m e l with
  | S754_zero s | S754_infinity s | S754_finite s _ _ => s = sx
  | S754_nan => True
  end.
Proof.
  unfold binary_round_aux.
  destruct (shr_fexp prec emax m e l) as [mrs' e'].
  destruct (shr_fexp prec emax _ e' loc_Exact) as [mrs'' e''].
  destruct (shr_m mrs''); [done| |done].
  by destruct (e'' <=? emax - prec)%Z.
Qed.

Lemma fdiv_pinf_of_nat n :
  fdiv pinf (of_nat n) = pinf ∨ fdiv pinf (of_nat n) = NaN.
Proof.
  unfold of_nat, binary_normalize.
  destruct (Z.of_nat n) as [|p|p] eqn:Hn; [by left| |lia].
  unfold binary_round.
  destruct (shl_align p 0 _) as [mz ez].
  pose proof (binary_round_aux_sign false (Z.pos mz) ez loc_Exact) as Hs.
  destruct (binary_round_aux prec emax false (Z.pos mz) ez loc_Exact)
    as [s|s| |s m e]; try subst s; auto.
Qed.

Lemma deviations_pinf a i :
  a !! i = Some pinf → deviations a !! i = Some NaN.
Proof.
  intros Hi. unfold deviations. rewrite list_lookup_fmap, Hi. simpl.
  f_equal.
  assert (pinf ∈ a) as Hin by (by eapply list_elem_of_lookup_2).
  unfold fsum.
  destruct (foldl_fadd_has_pinf a fzero Hin) as [-> | ->].
  - by destruct (fdiv_pinf_of_nat (length a)) as [-> | ->].
  - by rewrite fdiv_nan_l.
Qed.

Lemma length_deviations a : length (deviations a) = length a.
Proof. unfold deviations. by rewrite length_fmap. Qed.

Lemma covariance_nan x y i :
  length x = length y →
  deviations x !! i = Some NaN ∨ deviations y !! i = Some NaN →
  i < length x →
  covariance x y = NaN.
Proof.
  intros Hlen Hnan Hi. unfold covariance, fsum.
  rewrite (foldl_fadd_has_nan _ fzero); [apply fdiv_nan_l|].
  apply list_elem_of_lookup. exists i.
  destruct Hnan as [Hx|Hy].
  - apply amul_nan_l; [done|]. rewrite length_deviations. lia.
  - apply amul_nan_r; [done|]. rewrite length_deviations. lia.
Qed.

Lemma pearson_pinf x y :
  length x = length y → pinf ∈ x ∨ pinf ∈ y → pearson x y = inr NaN.
Proof.
  intros Hlen Hin. unfold pearson. rewrite decide_True by done.
  case_decide; [done|]. f_equal.
  assert (covariance x y = NaN) as ->; [|by rewrite !fdiv_nan_l].
  destruct Hin as [Hin|Hin];
    apply list_elem_of_lookup in Hin as [i Hi];
    pose proof (lookup_lt_Some _ _ _ Hi) as Hlt;
    apply (covariance_nan x y i Hlen); try lia.
  - left. by apply deviations_pinf.
  - right. by apply deviations_pinf.
Qed.

Lemma inf_gives_nan_binade : inf_gives_nan numpy_binade.
Proof. split; [done|]. intros x y. apply pearson_pinf. Qed.




(** ** When the error propagation is called *)

(** The events of the reduction proper, around the error propagation. *)
Lemma reduce_events_around_propagation np v h s time rm st :
  ∃ before after,
    reduce_events np v h s time rm st =
      before ++ propagation_events v h s rm ++ after ∧
    propagations before = [] ∧ propagations after = [] ∧
    created before = raw_outputs np h s ++ later_outputs np v h s st rm.
Proof.
  exists
    ([SetIndexChannel (IndexChannel s)] ++
     (BaselineSubtract "Baseline" <$> timeSeriesList_Input h) ++
     (create <$> raw_outputs np h s) ++
     std_events h (published np h s st) rm "Nd143_144_Corr" "143Nd/144Nd"
                (Nd143_144_Corr (engine_of np h s)) ++
     std_events h (published np h s st) rm "Sm147_Nd144_Corr" "147Sm/144Nd"
                (Sm147_Nd144_Corr (engine_of np h s)) ++
     (create <$> later_outputs np v h s st rm)),
    ([RegisterAssociatedResult
        "log10(StdCorr_147Sm/144Nd) vs log10(StdCorr_143Nd/144Nd) rho";
      CreateTimeSeries "rho" (full_like time NaN)] ++
     rho_series_events np v h s time rm st ++
     [Progress 100; Message "Finished!"; Finished]).
  repeat apply conj.
  - unfold reduce_events. by rewrite <- !app_assoc.
  - rewrite !propagations_app, !propagations_create.
    by rewrite !propagations_silent by auto with silent.
  - unfold rho_series_events.
    rewrite !propagations_app.
    rewrite (propagations_silent (scan_events _ _ _ _)) by auto with silent.
    by destruct (negb _).
  - rewrite !created_app, !created_create.
    by rewrite !created_silent by auto with silent.
Qed.

Lemma elem_of_propagations e tr :
  e ∈ tr → is_propagation e = true → e ∈ propagations tr.
Proof. intros Hin He. unfold propagations. by apply list_elem_of_filter. Qed.

(** X15. Whenever [data.propagateErrors] is called, the run is one of v4.8
    with the setting enabled, it has settled on the reference material of
    the call, and every series but rho has been created: the two raw ratios
    and the eight creations that follow the standardization, among them the
    two series named in the call.  This holds of the calls made up to that
    call, whatever the routine then does. *)
Theorem propagation_comes_after_the_series np v h st s pre post
    groups target source rm :
  trace (run np v h st s) =
    pre ++ PropagateErrors groups target source rm :: post →
  v = v4_8 ∧ PropagateError s = true ∧ resolved h s = Some rm ∧
  created pre = raw_outputs np h s ++ later_outputs np v4_8 h s st rm ∧
  target ∈ (created pre).*1 ∧ source ∈ (created pre).*1.
Proof.
  intros Hcut.
  assert (PropagateErrors groups target source rm
            ∈ propagations (trace (run np v h st s))) as Hin.
  { apply elem_of_propagations; [|done].
    rewrite Hcut. apply elem_of_app. right. constructor. }
  destruct (resolved h s) as [rm'|] eqn:Hrm;
    [|rewrite (run_aborted np v h st s Hrm) in Hin;
      by apply elem_of_nil in Hin].
  rewrite (propagations_run np v h st s rm' Hrm) in Hin.
  unfold propagation_events in Hin.
  destruct v; [|by apply elem_of_nil in Hin].
  destruct (PropagateError s) eqn:Hflag; [|by apply elem_of_nil in Hin].
  assert (rm' = rm) as ->.
  { repeat (apply elem_of_cons in Hin as [[= _ _ _ ->]|Hin]; [done|]).
    by apply elem_of_nil in Hin. }
  split; [done|]. split; [done|]. split; [done|].
  rewrite (run_resolved_world np v4_8 h st s rm Hrm) in Hcut.
  cbn [trace] in Hcut.
  destruct (reduce_events_around_propagation np v4_8 h s (time_of h s) rm st)
    as (before & after & Hred & Hbefore & Hafter & Hcreated).
  rewrite Hred in Hcut. unfold propagation_events in Hcut.
  rewrite Hflag in Hcut.
  set (b := bool_decide (ReferenceMaterial s ∉
                         selectionGroupNames h data_ReferenceMaterial))
    in Hcut.
  assert (created pre =
          raw_outputs np h s ++ later_outputs np v4_8 h s st rm) as Hpre.
  { rewrite app_assoc in Hcut.
    change (pre ++ ?e :: post) with (pre ++ [e] ++ post) in Hcut.
    rewrite (app_assoc pre) in Hcut.
    assert (PropagateErrors groups target source rm
              ∉ trace (after_resolution v4_8 st s b rm) ++ before) as Hnot.
    { intros Hx. apply elem_of_propagations in Hx; [|done].
      rewrite propagations_app, Hbefore in Hx.
      revert Hx. unfold b. case_bool_decide; by intros ?%elem_of_nil. }
    destruct (cut_after _ _ _ _ _ Hcut Hnot) as (k & Hk & Htail & Hink).
    { apply elem_of_app. right. constructor. }
    destruct k as [|e1 [|e2 k]]; cbn [app] in Htail.
    - by apply elem_of_nil in Hink.
    - apply app_inj_tail in Hk as [-> _].
      by rewrite created_app, created_after_resolution, Hcreated.
    - injection Htail as <- <- Htail.
      destruct k as [|e3 k]; cbn [app] in Htail.
      + match type of Hk with
        | _ = ?X ++ [?a; ?c] =>
            change (X ++ [a; c]) with (X ++ [a] ++ [c]) in Hk
        end.
        rewrite app_assoc in Hk.
        apply app_inj_tail in Hk as [-> _].
        rewrite !created_app, created_after_resolution, Hcreated.
        by rewrite app_nil_r.
      + exfalso. injection Htail as <- Htail.
        assert (Message "Propagated uncertainties calculated." :: k ≠ [])
          as Hne by done.
        destruct (exists_last Hne) as (k' & x & Hlast).
        rewrite Hlast in Hk.
        change (?a :: ?c :: k' ++ [x]) with ([a; c] ++ k' ++ [x]) in Hk.
        rewrite !app_assoc in Hk.
        apply app_inj_tail in Hk as [_ <-].
        assert (PropagateErrors groups target source rm
                  ∈ Message "Propagated uncertainties calculated." :: k)
          as Hx by (rewrite Hlast; apply elem_of_app; right; constructor).
        apply elem_of_cons in Hx as [?|Hx]; [done|].
        assert (PropagateErrors groups target source rm ∈ after) as Hy
          by (rewrite Htail; apply elem_of_app; by left).
        apply elem_of_propagations in Hy; [|done].
        rewrite Hafter in Hy. by apply elem_of_nil in Hy. }
  split; [done|]. rewrite Hpre.
  repeat (apply elem_of_cons in Hin as [[= _ -> -> ]|Hin];
          [split; apply (bool_decide_unpack _); by vm_compute|]).
  by apply elem_of_nil in Hin.
Qed.

Lemma propagation_comes_after_the_series_witness :
  "StdCorr_147Sm_144"
    ∈ (created (take 19 (trace (run numpy_special v4_8 sample_run_host ∅
                                    (default_settings "G_LREE"))))).*1 ∧
  "Sm147_Nd144_Corr"
    ∈ (created (take 19 (trace (run numpy_special v4_8 sample_run_host ∅
                                    (default_settings "G_LREE"))))).*1.
Proof.
  destruct (propagation_comes_after_the_series numpy_special v4_8
              sample_run_host ∅ (default_settings "G_LREE")
              (take 19 (trace (run numpy_special v4_8 sample_run_host ∅
                                   (default_settings "G_LREE"))))
              (drop 20 (trace (run numpy_special v4_8 sample_run_host ∅
                                   (default_settings "G_LREE"))))
              [ {| g_name := "G_LREE"; g_type := data_ReferenceMaterial |};
                {| g_name := "Monazite"; g_type := data_Sample |} ]
              "StdCorr_147Sm_144" "Sm147_Nd144_Corr" "G_LREE")
    as (_ & _ & _ & _ & Htarget & Hsource).
  - vm_compute. reflexivity.
  - by split.
Defined.
